(** * mat2: the markup sanitizers of [libmat2/web.py] and the office
    sanitizers of [libmat2/office.py]

    Python [str] values are modelled by [string], with the case folding
    and the white space of ASCII: on a text with a character outside
    ASCII [str.lower] and [str.strip] can do more than their models
    here, and the statements that depend on them are made for the
    events and texts on which they agree.  [int] counters are modelled
    by [Z],
    [set] by [gset], [dict] by [gmap] or, where the order of the keys is
    kept, by an association list.  The tokenizer of [html.parser] and the
    parser and serializer of [xml.etree.ElementTree] are not part of
    mat2: the markup sanitizer is modelled on the events the tokenizer
    delivers, the office sanitizers on documents and on the [Element]
    objects the parser creates for them. *)

From Stdlib Require Import ZArith Ascii String List Lia Bool.
From stdpp Require Import gmap strings list sorting.
Import ListNotations.

Local Open Scope string_scope.
Local Open Scope Z_scope.

(** ** Python string primitives used by the sources *)

Module Py.

(** [c.lower()] on one ASCII character. *)
Definition lower_ascii (c : ascii) : ascii :=
  let n := nat_of_ascii c in
  if ((65 <=? n)%nat && (n <=? 90)%nat)%bool then ascii_of_nat (n + 32) else c.

(** [s.lower()]. *)
Fixpoint lower (s : string) : string :=
  match s with
  | EmptyString => EmptyString
  | String c s' => String (lower_ascii c) (lower s')
  end.

(** [s[:-1]]: all but the last character. *)
Fixpoint drop_last (s : string) : string :=
  match s with
  | EmptyString => EmptyString
  | String c EmptyString => EmptyString
  | String c s' => String c (drop_last s')
  end.

(** [s[1:]]. *)
Definition drop_first (s : string) : string :=
  match s with
  | EmptyString => EmptyString
  | String _ s' => s'
  end.

(** [s[k:]]. *)
Fixpoint drop (k : nat) (s : string) : string :=
  match k, s with
  | O, _ => s
  | S k', String _ s' => drop k' s'
  | S _, EmptyString => EmptyString
  end.

(** [s[1:-1]]. *)
Definition slice_1_m1 (s : string) : string := drop_last (drop_first s).

(** The longest prefix whose characters all satisfy [keep]. *)
Fixpoint take_while (keep : ascii -> bool) (s : string) : string :=
  match s with
  | EmptyString => EmptyString
  | String c s' => if keep c then String c (take_while keep s') else EmptyString
  end.

Definition is_blank (c : ascii) : bool := Ascii.eqb c " "%char.

(** [s.split(' ')[0]]: the text before the first blank. *)
Definition split_blank_0 (s : string) : string :=
  take_while (fun c => negb (is_blank c)) s.

(** The characters [str.strip()] removes: [str.isspace] on ASCII. *)
Definition is_space (c : ascii) : bool :=
  let n := nat_of_ascii c in
  ((9 <=? n)%nat && (n <=? 13)%nat)%bool
  || ((28 <=? n)%nat && (n <=? 32)%nat)%bool.

Fixpoint lstrip (s : string) : string :=
  match s with
  | EmptyString => EmptyString
  | String c s' => if is_space c then lstrip s' else s
  end.

Fixpoint rstrip (s : string) : string :=
  match s with
  | EmptyString => EmptyString
  | String c s' =>
      match rstrip s' with
      | EmptyString => if is_space c then EmptyString else String c EmptyString
      | r => String c r
      end
  end.

(** [s.strip()]. *)
Definition strip (s : string) : string := rstrip (lstrip s).

(** Truth value of a string: non-empty. *)
Definition truthy (s : string) : bool :=
  match s with EmptyString => false | _ => true end.

(** [html.escape(s)] (with [quote=True]). *)
Fixpoint escape (s : string) : string :=
  match s with
  | EmptyString => EmptyString
  | String c s' =>
      let r := escape s' in
      if Ascii.eqb c "&"%char then "&amp;" ++ r
      else if Ascii.eqb c "<"%char then "&lt;" ++ r
      else if Ascii.eqb c ">"%char then "&gt;" ++ r
      else if Ascii.eqb c "034"%char then "&quot;" ++ r
      else if Ascii.eqb c "'"%char then "&#x27;" ++ r
      else String c r
  end.

(** [s.startswith(prefix)]. *)
Fixpoint startswith (s prefix : string) {struct prefix} : bool :=
  match prefix with
  | EmptyString => true
  | String a prefix' =>
      match s with
      | EmptyString => false
      | String b s' => Ascii.eqb a b && startswith s' prefix'
      end
  end.

(** [needle in s]. *)
Fixpoint contains (needle s : string) : bool :=
  startswith s needle
  || match s with
     | EmptyString => false
     | String _ s' => contains needle s'
     end.

(** [s.isascii()]: every character is below 128. *)
Fixpoint isascii (s : string) : bool :=
  match s with
  | EmptyString => true
  | String c s' => (nat_of_ascii c <? 128)%nat && isascii s'
  end.

(** [s.endswith(suffix)]. *)
Fixpoint endswith (s suffix : string) : bool :=
  String.eqb s suffix
  || match s with
     | EmptyString => false
     | String _ s' => endswith s' suffix
     end.

End Py.

(** ** Results of fallible code *)

(** The exceptions the two modules can let escape. *)
Inductive exn : Type :=
| ValueError_overlap
    (* "There is an overlap between %s and %s" *)
| ValueError_no_opening (tag : string)
    (* "The closing tag %s doesn't have a corresponding opening one" *)
| ValueError_mismatch (tag previous_tag : string)
    (* "The closing tag %s doesn't match the previous tag %s" *)
| ValueError_unclosed (tags : list string)
    (* "Some tags (%s) were left unclosed" *)
| ValueError_not_in_list
    (* list.remove(x): x not in list *)
| TypeError_compare
    (* '<' not supported between 'NoneType' and 'str' (or the converse) *)
| SyntaxError_prefix (prefix : string)
    (* "prefix %r not found in prefix map" *)
| KeyError (key : string)
| ParseError
    (* xml.etree.ElementTree.ParseError *)
| Diverges.
    (* the bound on loop iterations of the model was reached *)

Inductive result (A : Type) : Type :=
| Ok (a : A)
| Raise (e : exn).
Arguments Ok {A} a.
Arguments Raise {A} e.

#[global] Instance result_ret : MRet result := fun A a => Ok a.
#[global] Instance result_bind : MBind result := fun A B k r =>
  match r with
  | Ok a => k a
  | Raise e => Raise e
  end.

(** ** [libmat2/web.py]: the streaming markup sanitizer *)

Module Web.

(** *** [CSSParser] *)

(** The number of characters before the first ["*/"] of [s]. *)
Fixpoint find_close (s : string) : option nat :=
  match s with
  | EmptyString => None
  | String c s' =>
      if Ascii.eqb c "*"%char && Py.startswith s' "/" then Some 0%nat
      else option_map S (find_close s')
  end.

(** The length of the match of [/\*.*?\*/] (with [re.DOTALL]) that
    starts at the first character of [s], if there is one: the opening
    ["/*"], the shortest body, the first ["*/"] after the opening. *)
Definition match_comment (s : string) : option nat :=
  match s with
  | String c1 (String c2 body) =>
      if Ascii.eqb c1 "/"%char && Ascii.eqb c2 "*"%char
      then option_map (fun n => (2 + n + 2)%nat) (find_close body)
      else None
  | _ => None
  end.

(** [re.sub(r'/\*.*?\*/', '', s, 0, flags)]: the text is scanned from
    the left; where a match starts, its characters are dropped and the
    scan resumes after it, elsewhere the character is copied.  [skip]
    counts the characters of the current match still to drop. *)
Fixpoint sub_comments_from (skip : nat) (s : string) : string :=
  match s with
  | EmptyString => EmptyString
  | String c s' =>
      match skip with
      | S k => sub_comments_from k s'
      | O =>
          match match_comment s with
          | Some n => sub_comments_from (n - 1) s'
          | None => String c (sub_comments_from 0 s')
          end
      end
  end.

Definition sub_comments (s : string) : string := sub_comments_from 0 s.

(** [CSSParser.remove_all] on a file holding [text]: the returned flag
    and the text written to [output_filename]. *)
Definition CSSParser_remove_all (text : string) : bool * string :=
  (true, sub_comments text).

(** [re.search(r'/\*.*?\*/', s, flags) is not None]: some [/* ... */]
    span occurs in [s]. *)
Fixpoint has_comment (s : string) : bool :=
  match match_comment s with
  | Some _ => true
  | None =>
      match s with
      | EmptyString => false
      | String _ s' => has_comment s'
      end
  end.

(** *** [_HTMLParser] *)

(** What [html.parser.HTMLParser.feed] hands to the handlers.  [text] is
    the value of [get_starttag_text()] while the handler runs; attribute
    values are strings, as the annotations of the handlers have it. *)
Inductive event : Type :=
| StartTag (tag : string) (attrs : list (string * string)) (text : string)
| EndTag (tag : string)
| Data (data : string)
| StartEndTag (tag : string) (attrs : list (string * string)) (text : string).

(** One [self.__textrepr += ...]: the appended text, tagged with the
    statement that appended it. *)
Inductive chunk : Type :=
| OStart (original_tag : string)     (* [+= original_tag] *)
| OEnd (previous_tag : string)       (* [+= '</' + previous_tag + '>'] *)
| OData (escaped : string)           (* [+= escape(data)] *)
| OPlaceholder (tag : string)        (* [+= '<' + tag + ' />'] *)
| OStartEnd (original_tag : string). (* [+= self.get_starttag_text()] *)

Definition chunk_text (c : chunk) : string :=
  match c with
  | OStart t => t
  | OEnd p => "</" ++ p ++ ">"
  | OData d => d
  | OPlaceholder t => "<" ++ t ++ " />"
  | OStartEnd t => t
  end.

(** The string held by [self.__textrepr]. *)
Definition render (out : list chunk) : string :=
  fold_right (fun c acc => chunk_text c ++ acc) "" out.

(** The fields of [_HTMLParser].  [validation_queue] is kept most recent
    first: [append] is a cons and [pop()] removes the head. *)
Record parser : Type := {
  filename : string;
  textrepr : list chunk;
  meta : gmap string string;
  validation_queue : list string;
  in_dangerous_but_required_tag : Z;
  in_dangerous_tag : Z;
  tag_required_blacklist : gset string;
  tag_blacklist : gset string
}.

Definition append_text (c : chunk) (p : parser) : parser :=
  {| filename := filename p;
     textrepr := textrepr p ++ [c];
     meta := meta p;
     validation_queue := validation_queue p;
     in_dangerous_but_required_tag := in_dangerous_but_required_tag p;
     in_dangerous_tag := in_dangerous_tag p;
     tag_required_blacklist := tag_required_blacklist p;
     tag_blacklist := tag_blacklist p |}.

Definition set_queue (q : list string) (p : parser) : parser :=
  {| filename := filename p;
     textrepr := textrepr p;
     meta := meta p;
     validation_queue := q;
     in_dangerous_but_required_tag := in_dangerous_but_required_tag p;
     in_dangerous_tag := in_dangerous_tag p;
     tag_required_blacklist := tag_required_blacklist p;
     tag_blacklist := tag_blacklist p |}.

Definition set_counters (r d : Z) (p : parser) : parser :=
  {| filename := filename p;
     textrepr := textrepr p;
     meta := meta p;
     validation_queue := validation_queue p;
     in_dangerous_but_required_tag := r;
     in_dangerous_tag := d;
     tag_required_blacklist := tag_required_blacklist p;
     tag_blacklist := tag_blacklist p |}.

Definition set_meta (m : gmap string string) (p : parser) : parser :=
  {| filename := filename p;
     textrepr := textrepr p;
     meta := m;
     validation_queue := validation_queue p;
     in_dangerous_but_required_tag := in_dangerous_but_required_tag p;
     in_dangerous_tag := in_dangerous_tag p;
     tag_required_blacklist := tag_required_blacklist p;
     tag_blacklist := tag_blacklist p |}.

(** [_HTMLParser.__init__]. *)
Definition init (fname : string) (blacklisted_tags required_blacklisted_tags : gset string)
  : result parser :=
  if bool_decide (required_blacklisted_tags ∩ blacklisted_tags = ∅) then
    Ok {| filename := fname;
          textrepr := [];
          meta := ∅;
          validation_queue := [];
          in_dangerous_but_required_tag := 0;
          in_dangerous_tag := 0;
          tag_required_blacklist := required_blacklisted_tags;
          tag_blacklist := blacklisted_tags |}
  else Raise ValueError_overlap.

(** [_HTMLParser.handle_starttag]. *)
Definition handle_starttag (tag : string) (attrs : list (string * string))
    (original_tag : string) (p : parser) : parser :=
  let p := set_queue (original_tag :: validation_queue p) p in
  let r := if bool_decide (tag ∈ tag_required_blacklist p)
           then in_dangerous_but_required_tag p + 1
           else in_dangerous_but_required_tag p in
  let d := if bool_decide (tag ∈ tag_blacklist p)
           then in_dangerous_tag p + 1
           else in_dangerous_tag p in
  let p := set_counters r d p in
  if (in_dangerous_tag p =? 0) && (in_dangerous_but_required_tag p <=? 1)
  then append_text (OStart original_tag) p
  else p.

(** [_HTMLParser.handle_endtag]. *)
Definition handle_endtag (tag : string) (p : parser) : result parser :=
  match validation_queue p with
  | [] => Raise (ValueError_no_opening tag)
  | previous_tag :: queue =>
      let p := set_queue queue p in
      let previous_tag := Py.slice_1_m1 previous_tag in
      let previous_tag := Py.split_blank_0 previous_tag in
      if negb (String.eqb tag (Py.lower previous_tag))
      then Raise (ValueError_mismatch tag previous_tag)
      else
        let p :=
          if (in_dangerous_tag p =? 0) && (in_dangerous_but_required_tag p <=? 1)
          then append_text (OEnd previous_tag) p
          else p in
        if bool_decide (tag ∈ tag_required_blacklist p)
        then Ok (set_counters (in_dangerous_but_required_tag p - 1) (in_dangerous_tag p) p)
        else if bool_decide (tag ∈ tag_blacklist p)
        then Ok (set_counters (in_dangerous_but_required_tag p) (in_dangerous_tag p - 1) p)
        else Ok p
  end.

(** [_HTMLParser.handle_data]. *)
Definition handle_data (data : string) (p : parser) : parser :=
  if in_dangerous_but_required_tag p =? 0 then
    if in_dangerous_tag p =? 0 then
      if Py.truthy (Py.strip data) then append_text (OData (Py.escape data)) p
      else p
    else p
  else p.

(** [{k:v for k, v in attrs}]. *)
Definition dict_of_attrs (attrs : list (string * string)) : gmap string string :=
  fold_left (fun m kv => <[kv.1 := kv.2]> m) attrs ∅.

(** [_HTMLParser.handle_startendtag]. *)
Definition handle_startendtag (tag : string) (attrs : list (string * string))
    (starttag_text : string) (p : parser) : parser :=
  if bool_decide (tag ∈ tag_required_blacklist p ∪ tag_blacklist p) then
    let m := dict_of_attrs attrs in
    let name := default "harmful metadata" (m !! "name") in
    let content := default "harmful data" (m !! "content") in
    let p := set_meta (<[name := content]> (meta p)) p in
    if negb (in_dangerous_tag p =? 0) then p
    else if bool_decide (tag ∈ tag_required_blacklist p)
    then append_text (OPlaceholder tag) p
    else p
  else
    if in_dangerous_but_required_tag p =? 0 then
      if in_dangerous_tag p =? 0 then append_text (OStartEnd starttag_text) p
      else p
    else p.

(** The handler [feed] dispatches one event to. *)
Definition handle (ev : event) (p : parser) : result parser :=
  match ev with
  | StartTag tag attrs text => Ok (handle_starttag tag attrs text p)
  | EndTag tag => handle_endtag tag p
  | Data data => Ok (handle_data data p)
  | StartEndTag tag attrs text => Ok (handle_startendtag tag attrs text p)
  end.

(** [feed] followed by [close], on the events of the whole file. *)
Fixpoint feed (evs : list event) (p : parser) : result parser :=
  match evs with
  | [] => Ok p
  | ev :: evs' => p' ← handle ev p; feed evs' p'
  end.

(** [_HTMLParser.remove_all]: the returned flag and the text written to
    [output_filename]. *)
Definition remove_all (p : parser) : result (bool * string) :=
  match validation_queue p with
  | [] => Ok (true, render (textrepr p))
  | _ => Raise (ValueError_unclosed (rev (validation_queue p)))
  end.

(** [_HTMLParser.get_meta]. *)
Definition get_meta (p : parser) : result (gmap string string) :=
  match validation_queue p with
  | [] => Ok (meta p)
  | _ => Raise (ValueError_unclosed (rev (validation_queue p)))
  end.

(** [AbstractHTMLParser.__init__] for a subclass with the given class
    attributes, on the events of the file's text. *)
Definition AbstractHTMLParser_init (fname : string)
    (tags_blacklist tags_required_blacklist : gset string) (evs : list event)
  : result parser :=
  p ← init fname tags_blacklist tags_required_blacklist; feed evs p.

(** [HTMLParser]: [tags_blacklist = {'meta'}],
    [tags_required_blacklist = {'title'}]. *)
Definition HTMLParser (fname : string) (evs : list event) : result parser :=
  AbstractHTMLParser_init fname {["meta"]} {["title"]} evs.

(** [DTBNCXParser]: [tags_required_blacklist = {'title', 'doctitle', 'meta'}]. *)
Definition DTBNCXParser (fname : string) (evs : list event) : result parser :=
  AbstractHTMLParser_init fname ∅ {["title"; "doctitle"; "meta"]} evs.

(** *** The contract of [html.parser] the handlers rely on *)

(** The characters that end a tag name in [tagfind_tolerant]:
    [[^\t\n\r\f />\x00]] is the class of the others. *)
Definition is_tag_delim (c : ascii) : bool :=
  Ascii.eqb c "009"%char || Ascii.eqb c "010"%char || Ascii.eqb c "013"%char
  || Ascii.eqb c "012"%char || Ascii.eqb c " "%char || Ascii.eqb c "/"%char
  || Ascii.eqb c ">"%char || Ascii.eqb c "000"%char.

(** Group 1 of [tagfind_tolerant] matched right after the ["<"] of a
    start tag: the tag name as written. *)
Definition tagfind (starttag_text : string) : string :=
  Py.take_while (fun c => negb (is_tag_delim c)) (Py.drop_first starttag_text).

Fixpoint all_chars (f : ascii -> bool) (s : string) : bool :=
  match s with
  | EmptyString => true
  | String c s' => f c && all_chars f s'
  end.

(** [parse_starttag] passes [tagfind(...).lower()] as [tag] and leaves in
    [get_starttag_text()] the source text up to and including the closing
    [">"]; [parse_endtag] passes a lowercased name matched by
    [tagfind_tolerant] (or by the stricter [endtagfind]), which holds no
    delimiter. *)
Definition from_html_parser (ev : event) : bool :=
  match ev with
  | StartTag tag _ text | StartEndTag tag _ text =>
      Py.endswith text ">" && String.eqb tag (Py.lower (tagfind text))
  | EndTag tag => all_chars (fun c => negb (is_tag_delim c)) tag
  | Data _ => true
  end.

(** *** Nesting of the tags appended to the output *)

(** The effect of one appended chunk on the stack of start tags that are
    still open in the output (innermost first); [None] when the chunk is
    an end tag that closes nothing or closes another name than the
    innermost open one. *)
Definition nest_step (c : chunk) (open : list string) : option (list string) :=
  match c with
  | OStart t => Some (tagfind t :: open)
  | OEnd name =>
      match open with
      | [] => None
      | o :: open' => if String.eqb name o then Some open' else None
      end
  | OData _ | OPlaceholder _ | OStartEnd _ => Some open
  end.

Fixpoint open_tags_from (open : list string) (out : list chunk) : option (list string) :=
  match out with
  | [] => Some open
  | c :: out' =>
      match nest_step c open with
      | Some open' => open_tags_from open' out'
      | None => None
      end
  end.

(** Every start tag of [out] is closed later by an end tag of the same
    name, in nested order, and no end tag is left over. *)
Definition well_nested (out : list chunk) : bool :=
  match open_tags_from [] out with
  | Some [] => true
  | _ => false
  end.

(** *** The counters as functions of the validation queue *)

Definition tag_of (starttag_text : string) : string := Py.lower (tagfind starttag_text).

(** How many entries of the queue have their tag in [tags]. *)
Fixpoint depth_in (tags : gset string) (q : list string) : Z :=
  match q with
  | [] => 0
  | t :: q' => (if bool_decide (tag_of t ∈ tags) then 1 else 0) + depth_in tags q'
  end.

(** The names of the queue entries whose start tag was appended to the
    output. *)
Fixpoint open_names (R B : gset string) (q : list string) : list string :=
  match q with
  | [] => []
  | t :: q' =>
      if (depth_in B q =? 0) && (depth_in R q <=? 1)
      then tagfind t :: open_names R B q'
      else open_names R B q'
  end.

Record invariant (p : parser) : Prop := {
  inv_disjoint : tag_required_blacklist p ∩ tag_blacklist p = ∅;
  inv_required : in_dangerous_but_required_tag p
                 = depth_in (tag_required_blacklist p) (validation_queue p);
  inv_dangerous : in_dangerous_tag p = depth_in (tag_blacklist p) (validation_queue p);
  inv_output : open_tags_from [] (textrepr p)
               = Some (open_names (tag_required_blacklist p) (tag_blacklist p)
                         (validation_queue p));
  inv_queue : Forall (fun t => Py.endswith t ">" = true) (validation_queue p)
}.

End Web.

(** ** Inputs used in examples *)

Module Examples.

Definition dq : string := String "034"%char EmptyString.

(** [<meta name="author" content="Bob">]. *)
Definition meta_open_text : string :=
  "<meta name=" ++ dq ++ "author" ++ dq ++ " content=" ++ dq ++ "Bob" ++ dq ++ ">".

(** [<meta name="author" content="Bob"/>]. *)
Definition meta_selfclosed_text : string :=
  "<meta name=" ++ dq ++ "author" ++ dq ++ " content=" ++ dq ++ "Bob" ++ dq ++ "/>".

Definition meta_attrs : list (string * string) :=
  [("name", "author"); ("content", "Bob")].

(** What [html.parser] makes of [<meta name="author" content="Bob">]: it
    knows no void elements, so a tag that does not end in ["/>"] goes to
    [handle_starttag]. *)
Definition meta_open_events : list Web.event :=
  [Web.StartTag "meta" meta_attrs meta_open_text].

(** What it makes of [<meta name="author" content="Bob"/>]. *)
Definition meta_selfclosed_events : list Web.event :=
  [Web.StartEndTag "meta" meta_attrs meta_selfclosed_text].

(** [<title>data</title>]. *)
Definition title_events (data : string) : list Web.event :=
  [Web.StartTag "title" [] "<title>"; Web.Data data; Web.EndTag "title"].

(** [<html><head><title>Secret <b>x</b></title><meta name="author"
    content="Bob"/><meta></meta></head><BODY class=a>1 &lt; 2<br/></BODY></html>]. *)
Definition page_events : list Web.event :=
  [Web.StartTag "html" [] "<html>";
   Web.StartTag "head" [] "<head>";
   Web.StartTag "title" [] "<title>";
   Web.Data "Secret ";
   Web.StartTag "b" [] "<b>";
   Web.Data "x";
   Web.EndTag "b";
   Web.EndTag "title";
   Web.StartEndTag "meta" meta_attrs meta_selfclosed_text;
   Web.StartTag "meta" [] "<meta>";
   Web.EndTag "meta";
   Web.EndTag "head";
   Web.StartTag "body" [("class", "a")] "<BODY class=a>";
   Web.Data "1 < 2";
   Web.StartEndTag "br" [] "<br/>";
   Web.EndTag "body";
   Web.EndTag "html"].

End Examples.

(** ** [libmat2/office.py]: the office XML sanitizers *)

Module Office.

#[local] Open Scope nat_scope.

(** *** Files *)

(** An XML document as it stands in a file: [tag] and the keys of
    [attrib] are qualified names in ElementTree's form [{uri}local];
    [text] and [tail] are the character data after the start tag and
    after the end tag. *)
#[local] Unset Elimination Schemes.
Inductive xml : Type :=
| Element (tag : string) (attrib : list (string * string)) (text tail : string)
    (children : list xml).
#[local] Set Elimination Schemes.

Definition xml_tag (t : xml) : string := match t with Element tg _ _ _ _ => tg end.
Definition xml_attrib (t : xml) : list (string * string) :=
  match t with Element _ a _ _ _ => a end.
Definition xml_children (t : xml) : list xml := match t with Element _ _ _ _ cs => cs end.

(** A well-formed XML file: whether it starts with an XML declaration,
    the namespace declarations [(prefix, uri)] in document order (the
    [start-ns] events of [ET.iterparse]) and the root element. *)
Record xml_file : Type := {
  declaration : bool;
  ns_decls : list (string * string);
  body : xml
}.

(** The bytes of an archive member: a well-formed XML document; bytes
    that the XML parser rejects with [ParseError] (the empty file among
    them); or the file that [tree.write] leaves of a document one of
    whose names holds a character outside ASCII: the file is written in
    [us-ascii], the character becomes a character reference, which
    cannot stand in a name, and the parser rejects the file. *)
Inductive content : Type :=
| NotXml (raw : string)
| Xml (f : xml_file)
| IllFormed (f : xml_file).

(** [os.stat(full_path).st_size == 0]. *)
Definition is_empty_file (c : content) : bool :=
  match c with
  | NotXml EmptyString => true
  | _ => false
  end.

(** *** Element objects *)

(** An [Element] object.  The objects of a parsed tree live in a store
    and are named by their index in it; [children] holds the names of the
    child objects, as the Python list holds references. *)
Record element : Type := {
  tag : string;
  attrib : list (string * string);
  text : string;
  tail : string;
  children : list nat
}.

Abbreviation store := (list element) (only parsing).

(** An [ElementTree] object: the objects, the root, and what the file
    declared (the prefixes and the XML declaration are not part of the
    Element objects). *)
Record etree : Type := {
  objects : store;
  root : nat;
  decls : list (string * string)
}.

Definition children_of (s : store) (i : nat) : list nat :=
  match s !! i with
  | Some e => children e
  | None => []
  end.

Definition tag_of (s : store) (i : nat) : string :=
  match s !! i with
  | Some e => tag e
  | None => ""
  end.

Definition attrib_of (s : store) (i : nat) : list (string * string) :=
  match s !! i with
  | Some e => attrib e
  | None => []
  end.

Definition set_children (i : nat) (cs : list nat) (s : store) : store :=
  match s !! i with
  | Some e =>
      <[i := {| tag := tag e; attrib := attrib e; text := text e; tail := tail e;
                children := cs |}]> s
  | None => s
  end.

Definition set_attrib (i : nat) (a : list (string * string)) (s : store) : store :=
  match s !! i with
  | Some e =>
      <[i := {| tag := tag e; attrib := a; text := text e; tail := tail e;
                children := children e |}]> s
  | None => s
  end.

(** The number of elements of a document. *)
Fixpoint xml_size (t : xml) : nat :=
  match t with
  | Element _ _ _ _ cs => S (list_sum (map xml_size cs))
  end.

(** The names given to the roots of the trees [cs] when their objects
    are created from name [b] on, in document order. *)
Fixpoint child_ids (b : nat) (cs : list xml) : list nat :=
  match cs with
  | [] => []
  | c :: cs' => b :: child_ids (b + xml_size c) cs'
  end.

(** The objects the parser creates for [t], the first of them named [b]:
    one object per element, in document order. *)
Fixpoint load (b : nat) (t : xml) : list element :=
  match t with
  | Element tg a tx tl cs =>
      {| tag := tg; attrib := a; text := tx; tail := tl;
         children := child_ids (S b) cs |}
      :: (fix load_forest (b : nat) (cs : list xml) : list element :=
            match cs with
            | [] => []
            | c :: cs' => (load b c ++ load_forest (b + xml_size c) cs')%list
            end) (S b) cs
  end.

Fixpoint load_forest (b : nat) (cs : list xml) : list element :=
  match cs with
  | [] => []
  | c :: cs' => (load b c ++ load_forest (b + xml_size c) cs')%list
  end.

(** The document below object [i], as [tree.write] serializes it.
    [depth] bounds the recursion: on a store whose child references form
    a cycle the serializer does not return. *)
Fixpoint dump (depth : nat) (s : store) (i : nat) : option xml :=
  match depth with
  | O => None
  | S depth' =>
      e ← s !! i;
      cs ← mapM (dump depth' s) (children e);
      Some (Element (tag e) (attrib e) (text e) (tail e) cs)
  end.

(** [ET.parse(full_path)]. *)
Definition ET_parse (c : content) : option etree :=
  match c with
  | NotXml _ => None
  | Xml f => Some {| objects := load 0 (body f); root := 0; decls := ns_decls f |}
  | IllFormed _ => None
  end.

(** The document that the objects of a tree spell out, which is what
    [tree.write] serializes. *)
Definition ET_document (t : etree) : option xml :=
  dump (S (length (objects t))) (objects t) (root t).

(** The part of a qualified name [{uri}local] that the serializer writes
    after the prefix: [tag[1:].rsplit("}", 1)[1]]; a name without
    namespace is written whole. *)
Fixpoint after_last_brace (q : string) : string :=
  match q with
  | EmptyString => EmptyString
  | String c q' =>
      if Py.contains "}" q' then after_last_brace q'
      else if Ascii.eqb c "}"%char then q' else q
  end.

Definition local_name (q : string) : string :=
  match q with
  | String "{" rest => after_last_brace rest
  | _ => q
  end.

(** The names of the elements and of the attributes of a document are
    ASCII. *)
Fixpoint ascii_names (t : xml) : bool :=
  match t with
  | Element tg a _ _ cs =>
      Py.isascii (local_name tg)
      && forallb (fun kv => Py.isascii (local_name kv.1)) a
      && forallb ascii_names cs
  end.

(** The file that [tree.write(full_path, xml_declaration=True)] leaves
    of a document.  No encoding is given, so that the file is written in
    [us-ascii] with [xmlcharrefreplace]: where a name holds a character
    outside ASCII the file is not well-formed.  Otherwise the file is
    taken to hold the document again, under the declarations of the file
    that was parsed.  The bytes themselves are not modelled, nor are the
    prefixes the serializer writes (those of its registry, which
    [ET.register_namespace] fills, and [ns0], [ns1], ... for a namespace
    that is not registered; a namespace that is not used is not
    declared), nor its treatment of line ends: the statements on what a
    function writes are made on the document handed to [tree.write],
    [ET_document]. *)
Definition written (f : xml_file) : content :=
  if ascii_names (body f) then Xml f else IllFormed f.

(** [tree.write(full_path, xml_declaration=True)]. *)
Definition ET_write (t : etree) : result content :=
  match ET_document t with
  | Some x => Ok (written {| declaration := true; ns_decls := decls t; body := x |})
  | None => Raise Diverges
  end.

(** [re.match('^ns[0-9]+$', key, re.I)]. *)
Definition is_digit (c : ascii) : bool :=
  let n := nat_of_ascii c in (48 <=? n)%nat && (n <=? 57)%nat.

Definition is_reserved_prefix (key : string) : bool :=
  match Py.lower key with
  | String "n" (String "s" (String d ds)) => is_digit d && Web.all_chars is_digit ds
  | _ => false
  end.

(** The [namespace_map] that [_parse_xml] builds from the [start-ns]
    events. *)
Definition namespace_map (ns : list (string * string)) : gmap string string :=
  fold_left
    (fun m kv =>
       let key := if is_reserved_prefix kv.1 then "mat" ++ Py.drop 2 kv.1 else kv.1 in
       <[key := kv.2]> m)
    ns ∅.

(** The declared prefixes are ASCII.  [_parse_xml] calls
    [ET.register_namespace] on each prefix, which raises [ValueError] on
    [ns] followed by decimal digits; [_parse_xml] renames such a prefix
    before, but only where the digits are those of ASCII. *)
Definition ascii_prefixes (ns : list (string * string)) : bool :=
  forallb (fun kv => Py.isascii kv.1) ns.

(** [_parse_xml(full_path)], for a file whose prefixes
    [ET.register_namespace] accepts. *)
Definition _parse_xml (c : content) : option (etree * gmap string string) :=
  t ← ET_parse c; Some (t, namespace_map (decls t)).

(** *** Iteration over a tree of objects *)

(** The state of the generator [elem.iter()]: not started, or the stack
    of the elements being visited, each with the index of its next child.
    The child lists are read from the store as it is when the generator
    is resumed. *)
Inductive iter_state : Type :=
| IterStart (elem : nat)
| IterStack (stack : list (nat * nat)).

Fixpoint advance (s : store) (stack : list (nat * nat)) : option (nat * list (nat * nat)) :=
  match stack with
  | [] => None
  | (n, i) :: rest =>
      match children_of s n !! i with
      | Some c => Some (c, (c, 0) :: (n, S i) :: rest)
      | None => advance s rest
      end
  end.

(** [next(generator)]: the element yielded and the new state, or [None]
    for [StopIteration]. *)
Definition iter_next (s : store) (st : iter_state) : option (nat * iter_state) :=
  match st with
  | IterStart e => Some (e, IterStack [(e, 0)])
  | IterStack stack =>
      match advance s stack with
      | Some (c, stack') => Some (c, IterStack stack')
      | None => None
      end
  end.

(** [for x in elem.iter(): body], where [body] may change the store.
    [fuel] bounds the number of elements yielded. *)
Fixpoint for_iter {A : Type} (fuel : nat) (body : nat -> store * A -> result (store * A))
    (st : iter_state) (sa : store * A) : result (store * A) :=
  match fuel with
  | O => Raise Diverges
  | S fuel' =>
      match iter_next sa.1 st with
      | None => Ok sa
      | Some (x, st') => sa' ← body x sa; for_iter fuel' body st' sa'
      end
  end.

(** [list(elem.iter())] on a store that does not change meanwhile. *)
Fixpoint iter_list (fuel : nat) (s : store) (st : iter_state) : result (list nat) :=
  match fuel with
  | O => Raise Diverges
  | S fuel' =>
      match iter_next s st with
      | None => Ok []
      | Some (x, st') => xs ← iter_list fuel' s st'; Ok (x :: xs)
      end
  end.

(** The bound used for every loop over the objects of a store: a tree of
    [length s] objects yields no more elements than that. *)
Definition fuel_of (s : store) : nat := S (length s).

(** *** ElementPath *)

(** The tag a path step [prefix:local] stands for; [SyntaxError] when the
    prefix is not in the map given to [find] or [iterfind]. *)
Definition qualified (namespaces : gmap string string) (prefix local : string)
  : result string :=
  match namespaces !! prefix with
  | Some uri => Ok ("{" ++ uri ++ "}" ++ local)
  | None => Raise (SyntaxError_prefix prefix)
  end.

(** [list(elem.iterfind('.//' + tag))] for a tag already qualified: the
    elements below [elem] with that tag, in document order. *)
Definition findall_descendants (s : store) (elem : nat) (qtag : string)
  : result (list nat) :=
  xs ← iter_list (fuel_of s) s (IterStart elem);
  Ok (filter (fun x => x ≠ elem ∧ tag_of s x = qtag) xs).

(** [elem.findall(tag)] and [elem.iterfind('./*')]: children of [elem]. *)
Definition findall_children (s : store) (elem : nat) (qtag : string) : list nat :=
  filter (fun x => tag_of s x = qtag) (children_of s elem).

(** [{c: p for p in tree.iter() for c in p}]. *)
Definition parent_map (s : store) (root : nat) : result (gmap nat nat) :=
  ps ← iter_list (fuel_of s) s (IterStart root);
  Ok (fold_left
        (fun m p => fold_left (fun m c => <[c := p]> m) (children_of s p) m)
        ps ∅).

(** [l.remove(x)] on a list of references. *)
Fixpoint list_remove (x : nat) (l : list nat) : option (list nat) :=
  match l with
  | [] => None
  | y :: l' => if decide (y = x) then Some l' else cons y <$> list_remove x l'
  end.

(** [parent.remove(child)]. *)
Definition Element_remove (parent child : nat) (s : store) : result store :=
  match list_remove child (children_of s parent) with
  | Some cs => Ok (set_children parent cs s)
  | None => Raise ValueError_not_in_list
  end.

(** [parent.insert(index, child)] for an index that is not negative. *)
Definition Element_insert (parent index child : nat) (s : store) : store :=
  let cs := children_of s parent in
  set_children parent (take index cs ++ child :: drop index cs) s.

(** [d[key]] on a dictionary of parents. *)
Definition parent_of (m : gmap nat nat) (x : nat) : result nat :=
  match m !! x with
  | Some p => Ok p
  | None => Raise (KeyError "element")
  end.

(** [for x in xs: body] over a list that the body leaves alone. *)
Fixpoint for_each {X A : Type} (body : X -> A -> result A) (xs : list X) (a : A)
  : result A :=
  match xs with
  | [] => Ok a
  | x :: xs' => a' ← body x a; for_each body xs' a'
  end.

(** *** Outcomes of the functions that rewrite a file *)

(** How a call ended: it returned a flag or let an exception escape. *)
Inductive outcome : Type :=
| Ret (b : bool)
| Exc (e : exn).

(** The end of every rewriting function: [tree.write(full_path,
    xml_declaration=True); return True] when the work on the objects went
    through; otherwise the exception escapes before the file is opened
    for writing, and its content [c] stays. *)
Definition write_and_return (c : content) (r : result etree) : outcome * content :=
  match r ≫= ET_write with
  | Ok c' => (Ret true, c')
  | Raise e => (Exc e, c)
  end.

Definition with_objects (t : etree) (s : store) : etree :=
  {| objects := s; root := root t; decls := decls t |}.

(** *** [_sort_xml_attributes] *)

(** [d.get(key)]. *)
Fixpoint dict_get (key : string) (d : list (string * string)) : option string :=
  match d with
  | [] => None
  | (k, v) :: d' => if String.eqb k key then Some v else dict_get key d'
  end.

(** [a < b] on [str]. *)
Definition str_lt (a b : string) : bool :=
  match String.compare a b with
  | Lt => true
  | _ => false
  end.

(** [(child.tag, child.get('desc'))]. *)
Definition sort_key (tg : string) (a : list (string * string)) : string * option string :=
  (tg, dict_get "desc" a).

(** [k1 < k2] on the key tuples: the first components that differ are
    compared; [None] and a string are different and cannot be ordered. *)
Definition key_lt (k1 k2 : string * option string) : result bool :=
  if String.eqb k1.1 k2.1 then
    match k1.2, k2.2 with
    | None, None => Ok false
    | Some a, Some b => Ok (str_lt a b)
    | _, _ => Raise TypeError_compare
    end
  else Ok (str_lt k1.1 k2.1).

(** [sorted(l, key=...)], as a stable insertion sort whose comparisons
    can raise.  Where no two keys of the list are unordered the result
    is the one of [list.sort] (a stable sort has one result), and on a
    list of two elements the one comparison made, of the second key
    against the first, is the one [list.sort] makes; on longer lists
    with unordered keys [list.sort] may compare other pairs. *)
Fixpoint insert_by_key {X : Type} (key : X -> string * option string) (x : X) (l : list X)
  : result (list X) :=
  match l with
  | [] => Ok [x]
  | y :: l' =>
      b ← key_lt (key y) (key x);
      if b : bool then r ← insert_by_key key x l'; Ok (y :: r) else Ok (x :: l)
  end.

Fixpoint sorted_by_key {X : Type} (key : X -> string * option string) (l : list X)
  : result (list X) :=
  match l with
  | [] => Ok []
  | x :: l' => r ← sorted_by_key key l'; insert_by_key key x r
  end.

(** [for c in elem: body]: the list iterator reads [elem]'s child list,
    as it is then, at the next index each time round. *)
Fixpoint for_children (fuel : nat) (body : nat -> store -> result store)
    (elem index : nat) (s : store) : result store :=
  match fuel with
  | O => Raise Diverges
  | S fuel' =>
      match children_of s elem !! index with
      | None => Ok s
      | Some c => s' ← body c s; for_children fuel' body elem (S index) s'
      end
  end.

(** [c[:] = sorted(c, key=lambda child: (child.tag, child.get('desc')))]. *)
Definition sort_children (c : nat) (s : store) : result store :=
  cs ← sorted_by_key (fun child => sort_key (tag_of s child) (attrib_of s child))
        (children_of s c);
  Ok (set_children c cs s).

(** [_sort_xml_attributes(full_path)]. *)
Definition _sort_xml_attributes (c : content) : outcome * content :=
  match ET_parse c with
  | None => (Exc ParseError, c)
  | Some tree =>
      write_and_return c
        (s ← for_children (fuel_of (objects tree)) sort_children (root tree) 0
               (objects tree);
         Ok (with_objects tree s))
  end.

(** *** [MSOfficeParser] *)

Module MSOfficeParser.

(** ['}rsid' in item.tag.strip().lower()]. *)
Definition rsid_tag (tg : string) : bool :=
  Py.contains "}rsid" (Py.lower (Py.strip tg)).

(** ['}rsid' in key.lower()]. *)
Definition rsid_key (key : string) : bool :=
  Py.contains "}rsid" (Py.lower key).

(** The body of the first loop of [__remove_rsid] for one [item] of
    [tree.iterfind('.//', namespace)]; the root itself is not among the
    items. *)
Definition collect_rsid (root_elem : nat) (item : nat) (sa : store * list nat)
  : result (store * list nat) :=
  let '(s, elements_to_remove) := sa in
  if decide (item = root_elem) then Ok sa
  else if rsid_tag (tag_of s item) then Ok (s, (elements_to_remove ++ [item])%list)
  else
    Ok (set_attrib item (filter (fun kv => negb (rsid_key kv.1)) (attrib_of s item)) s,
        elements_to_remove).

(** [parent_map[element].remove(element)]. *)
Definition remove_from_parent (pm : gmap nat nat) (element : nat) (s : store)
  : result store :=
  p ← parent_of pm element; Element_remove p element s.

(** [MSOfficeParser.__remove_rsid]. *)
Definition __remove_rsid (c : content) : outcome * content :=
  match _parse_xml c with
  | None => (Ret false, c)
  | Some (tree, namespace) =>
      if bool_decide ("w" ∉ dom namespace) then (Ret true, c)
      else
        write_and_return c
          (let s := objects tree in
           pm ← parent_map s (root tree);
           sa ← for_iter (fuel_of s) (collect_rsid (root tree)) (IterStart (root tree))
                  (s, []);
           s' ← for_each (remove_from_parent pm) sa.2 sa.1;
           Ok (with_objects tree s'))
  end.

(** The index of [element] in [enumerate(tree.iter())]. *)
Fixpoint position_of (element : nat) (items : list nat) : option nat :=
  match items with
  | [] => None
  | item :: items' =>
      if decide (item = element) then Some 0 else S <$> position_of element items'
  end.

(** The second collecting loop of [__remove_revisions]: for every
    [w:ins] element, one triple per child of it. *)
Definition collect_insertions (s : store) (items : list nat) (inss : list nat)
  : list (nat * nat * nat) :=
  flat_map
    (fun element =>
       match position_of element items with
       | Some position => map (fun ch => (element, position, ch)) (children_of s element)
       | None => []
       end)
    inss.

(** The body of the last loop of [__remove_revisions]. *)
Definition splice_insertion (pm : gmap nat nat) (triple : nat * nat * nat) (s : store)
  : result store :=
  let '(element, position, ch) := triple in
  p ← parent_of pm element;
  let s := Element_insert p position ch s in
  p' ← parent_of pm element;
  Element_remove p' element s.

(** [MSOfficeParser.__remove_revisions]. *)
Definition __remove_revisions (c : content) : outcome * content :=
  match _parse_xml c with
  | None => (Ret false, c)
  | Some (tree, namespace) =>
      let s := objects tree in
      let found :=
        w_del ← qualified namespace "w" "del";
        dels ← findall_descendants s (root tree) w_del;
        w_ins ← qualified namespace "w" "ins";
        inss ← findall_descendants s (root tree) w_ins;
        Ok (w_del, w_ins, dels, inss) in
      match found with
      | Raise e => (Exc e, c)
      | Ok (_, _, [], []) => (Ret true, c)
      | Ok (w_del, w_ins, _, _) =>
          write_and_return c
            (pm ← parent_map s (root tree);
             elements ← findall_descendants s (root tree) w_del;
             s ← for_each (remove_from_parent pm) elements s;
             inss ← findall_descendants s (root tree) w_ins;
             items ← iter_list (fuel_of s) s (IterStart (root tree));
             s ← for_each (splice_insertion pm) (collect_insertions s items inss) s;
             Ok (with_objects tree s))
      end
  end.

(** [MSOfficeParser.__remove_content_type_members].  [removed_fnames]
    is the set the method computes from the archive: the member names
    that match one of [files_to_omit]. *)
Definition __remove_content_type_members (removed_fnames : gset string) (c : content)
  : outcome * content :=
  match _parse_xml c with
  | None => (Ret false, c)
  | Some (tree, namespace) =>
      if negb (size namespace =? 1) then (Ret false, c)
      else
        write_and_return c
          (let s := objects tree in
           uri ← match namespace !! "" with
                 | Some uri => Ok uri
                 | None => Raise (KeyError "")
                 end;
           s ← for_each
                 (fun item s =>
                    part ← match dict_get "PartName" (attrib_of s item) with
                           | Some v => Ok v
                           | None => Raise (KeyError "PartName")
                           end;
                    if bool_decide (Py.drop 1 part ∈ removed_fnames)
                    then Element_remove (root tree) item s
                    else Ok s)
                 (findall_children s (root tree) ("{" ++ uri ++ "}Override")) s;
           Ok (with_objects tree s))
  end.

(** The documents written over [docProps/app.xml] and
    [docProps/core.xml]. *)
Definition blank_app : content :=
  Xml {| declaration := true;
         ns_decls :=
           [("", "http://schemas.openxmlformats.org/officeDocument/2006/extended-properties")];
         body :=
           Element
             "{http://schemas.openxmlformats.org/officeDocument/2006/extended-properties}Properties"
             [] "" "" [] |}.

Definition blank_core : content :=
  Xml {| declaration := true;
         ns_decls :=
           [("cp", "http://schemas.openxmlformats.org/package/2006/metadata/core-properties")];
         body :=
           Element
             "{http://schemas.openxmlformats.org/package/2006/metadata/core-properties}coreProperties"
             [] "" "" [] |}.

(** [MSOfficeParser._specific_cleanup].  [sub_ignorable] stands for the
    last step, [re.sub] deleting the first [mc:Ignorable] attribute from
    the bytes of the file; the serialized bytes are not modelled. *)
Definition _specific_cleanup (removed_fnames : gset string)
    (sub_ignorable : content -> content) (full_path : string) (c : content)
  : outcome * content :=
  if is_empty_file c then (Ret true, c)
  else if negb (Py.endswith full_path ".xml") then (Ret true, c)
  else
    let '(r, c) :=
      if Py.endswith full_path "/[Content_Types].xml"
      then __remove_content_type_members removed_fnames c
      else if Py.endswith full_path "/word/document.xml" then __remove_revisions c
      else if Py.endswith full_path "/docProps/app.xml" then (Ret true, blank_app)
      else if Py.endswith full_path "/docProps/core.xml" then (Ret true, blank_core)
      else (Ret true, c) in
    match r with
    | Ret false => (Ret false, c)
    | Exc e => (Exc e, c)
    | Ret true =>
        match __remove_rsid c with
        | (Ret false, c) => (Ret false, c)
        | (Exc e, c) => (Exc e, c)
        | (Ret true, c) =>
            match _sort_xml_attributes c with
            | (Exc ParseError, c) => (Ret false, c)
            | (Exc e, c) => (Exc e, c)
            | (Ret _, c) => (Ret true, sub_ignorable c)
            end
        end
    end.

End MSOfficeParser.

(** *** [LibreOfficeParser] *)

Module LibreOfficeParser.

(** The inner loop of [__remove_revisions]:
    [for changes in text.iterfind('.//text:tracked-changes', namespace):
    text.remove(changes)]. *)
Definition remove_tracked_changes (tracked_changes : string) (text_elem : nat) (s : store)
  : result store :=
  sa ← for_iter (fuel_of s)
         (fun changes sa =>
            let s := sa.1 in
            if decide (changes ≠ text_elem ∧ tag_of s changes = tracked_changes)
            then s' ← Element_remove text_elem changes s; Ok (s', tt)
            else Ok sa)
         (IterStart text_elem) (s, tt);
  Ok sa.1.

(** [LibreOfficeParser.__remove_revisions]. *)
Definition __remove_revisions (c : content) : outcome * content :=
  match _parse_xml c with
  | None => (Ret false, c)
  | Some (tree, namespace) =>
      if bool_decide ("office" ∉ dom namespace) then (Ret true, c)
      else
        write_and_return c
          (let s := objects tree in
           office_text ← qualified namespace "office" "text";
           sa ← for_iter (fuel_of s)
                  (fun text_elem sa =>
                     let s := sa.1 in
                     if decide (text_elem ≠ root tree ∧ tag_of s text_elem = office_text)
                     then
                       tracked_changes ← qualified namespace "text" "tracked-changes";
                       s' ← remove_tracked_changes tracked_changes text_elem s;
                       Ok (s', tt)
                     else Ok sa)
                  (IterStart (root tree)) (s, tt);
           Ok (with_objects tree sa.1))
  end.

(** [os.path.basename(full_path)]. *)
Fixpoint basename (path : string) : string :=
  match path with
  | EmptyString => EmptyString
  | String c path' =>
      if Py.contains "/" path' then basename path'
      else if Ascii.eqb c "/"%char then path'
      else path
  end.

(** [LibreOfficeParser._specific_cleanup]. *)
Definition _specific_cleanup (full_path : string) (c : content) : outcome * content :=
  if is_empty_file c then (Ret true, c)
  else if Py.endswith (basename full_path) ".xml" then
    let '(r, c) :=
      if String.eqb (basename full_path) "content.xml" then __remove_revisions c
      else (Ret true, c) in
    match r with
    | Ret false => (Ret false, c)
    | Exc e => (Exc e, c)
    | Ret true =>
        match _sort_xml_attributes c with
        | (Exc ParseError, c) => (Ret false, c)
        | (Exc e, c) => (Exc e, c)
        | (Ret _, c) => (Ret true, c)
        end
    end
  else (Ret true, c).

End LibreOfficeParser.

End Office.

(** ** Documents used in examples *)

Module OfficeExamples.

Import Office.

Definition elem (tg : string) (a : list (string * string)) (cs : list xml) : xml :=
  Element tg a "" "" cs.

Definition qname (uri local : string) : string := "{" ++ uri ++ "}" ++ local.

(** [<root><a><x desc="d"/><x/></a></root>]. *)
Definition mixed_desc : xml_file :=
  {| declaration := false;
     ns_decls := [];
     body := elem "root" [] [elem "a" [] [elem "x" [("desc", "d")] []; elem "x" [] []]] |}.

(** [<root><b/><a><z desc="d"/><x><q/><p/></x><x/></a></root>]. *)
Definition unsorted : xml_file :=
  {| declaration := false;
     ns_decls := [];
     body :=
       elem "root" []
         [elem "b" [] [];
          elem "a" []
            [elem "z" [("desc", "d")] [];
             elem "x" [] [elem "q" [] []; elem "p" [] []];
             elem "x" [] []]] |}.

Definition office_uri : string := "urn:oasis:names:tc:opendocument:xmlns:office:1.0".
Definition text_uri : string := "urn:oasis:names:tc:opendocument:xmlns:text:1.0".

Definition tracked_changes : xml := elem (qname text_uri "tracked-changes") [] [].

(** A [content.xml] whose [<office:text>] holds [inside]. *)
Definition odf_content (inside : list xml) : xml_file :=
  {| declaration := true;
     ns_decls := [("office", office_uri); ("text", text_uri)];
     body :=
       elem (qname office_uri "document-content") []
         [elem (qname office_uri "body") []
            [elem (qname office_uri "text") [] inside]] |}.

Definition w_uri : string :=
  "http://schemas.openxmlformats.org/wordprocessingml/2006/main".

(** A [word/document.xml] that declares the main namespace under
    [prefix]; its root carries a [w:rsidR] attribute. *)
Definition word_document (prefix : string) (inside : list xml) : xml_file :=
  {| declaration := true;
     ns_decls := [(prefix, w_uri)];
     body := elem (qname w_uri "document") [(qname w_uri "rsidR", "00C1")] inside |}.

(** [<w:p w:rsidR="00A1" w:val="1"><w:rsid><w:r/></w:rsid><w:tblRsid/></w:p>
    <w:rsids/>]. *)
Definition rsid_body : list xml :=
  [elem (qname w_uri "p") [(qname w_uri "rsidR", "00A1"); (qname w_uri "val", "1")]
     [elem (qname w_uri "rsid") [] [elem (qname w_uri "r") [] []];
      elem (qname w_uri "tblRsid") [] []];
   elem (qname w_uri "rsids") [] []].

(** A [customXml/item1.xml] that declares the prefix [w] and holds an
    element whose name is not ASCII:
    [<w:data xmlns:w="..."><w:café/></w:data>]. *)
Definition accented : xml_file :=
  {| declaration := true;
     ns_decls := [("w", w_uri)];
     body := elem (qname w_uri "data") [] [elem (qname w_uri "café") [] []] |}.

End OfficeExamples.

(** ** What the rewriting functions compute, on documents *)

Module OfficeSpec.

Import Office.

#[local] Open Scope nat_scope.

(** [(child.tag, child.get('desc'))] of an element of a document. *)
Definition xml_key (t : xml) : string * option string :=
  sort_key (xml_tag t) (xml_attrib t).

(** No comparison between the keys of two elements of [l] raises. *)
Definition comparable (l : list xml) : Prop :=
  forall x y, x ∈ l -> y ∈ l -> exists b, key_lt (xml_key x) (xml_key y) = Ok b.

(** [k1 < k2] where the comparison does not raise. *)
Definition key_ltb (k1 k2 : string * option string) : bool :=
  match key_lt k1 k2 with
  | Ok b => b
  | Raise _ => false
  end.

(** The stable sort by key of a list of elements. *)
Fixpoint insert_xml (x : xml) (l : list xml) : list xml :=
  match l with
  | [] => [x]
  | y :: l' => if key_ltb (xml_key y) (xml_key x) then y :: insert_xml x l' else x :: l
  end.

Definition sort_xml (l : list xml) : list xml := foldr insert_xml [] l.

(** No element is followed by an element of a smaller key. *)
Definition key_sorted (l : list xml) : Prop :=
  Sorted (fun x y => key_ltb (xml_key y) (xml_key x) = false) l.

(** The element with its children sorted by key. *)
Definition sort_children_of (c : xml) : xml :=
  match c with
  | Element tg a tx tl gs => Element tg a tx tl (sort_xml gs)
  end.

(** What [_sort_xml_attributes] makes of a document: the children of
    each child of the root are sorted, nothing else moves. *)
Definition canonical (t : xml) : xml :=
  match t with
  | Element tg a tx tl cs => Element tg a tx tl (map sort_children_of cs)
  end.

(** The elements of a document, in document order. *)
Fixpoint elements (t : xml) : list xml :=
  match t with
  | Element _ _ _ _ cs => t :: flat_map elements cs
  end.

(** The elements below the root. *)
Definition descendants (t : xml) : list xml := flat_map elements (xml_children t).

(** What [__remove_rsid] makes of the elements below the root: those
    with an rsid tag go, with all they hold; the others lose their rsid
    attributes. *)
Fixpoint strip_rsid (t : xml) : xml :=
  match t with
  | Element tg a tx tl cs =>
      Element tg (filter (fun kv => negb (MSOfficeParser.rsid_key kv.1)) a) tx tl
        ((fix strip_forest (cs : list xml) : list xml :=
            match cs with
            | [] => []
            | c :: cs' =>
                if MSOfficeParser.rsid_tag (xml_tag c) then strip_forest cs'
                else strip_rsid c :: strip_forest cs'
            end) cs)
  end.

Fixpoint strip_rsid_forest (cs : list xml) : list xml :=
  match cs with
  | [] => []
  | c :: cs' =>
      if MSOfficeParser.rsid_tag (xml_tag c) then strip_rsid_forest cs'
      else strip_rsid c :: strip_rsid_forest cs'
  end.

(** What [__remove_rsid] makes of a document; the root keeps its tag and
    its attributes. *)
Definition strip_rsid_below_root (t : xml) : xml :=
  match t with
  | Element tg a tx tl cs => Element tg a tx tl (strip_rsid_forest cs)
  end.

(** Store [s] holds at [i] an object tree that serializes to [t], all of
    whose objects have names in [[lo, hi)]. *)
Fixpoint represents_in (lo hi : nat) (s : store) (i : nat) (t : xml) {struct t} : Prop :=
  match t with
  | Element tg a tx tl cs =>
      lo <= i < hi
      /\ exists ids,
          s !! i = Some {| tag := tg; attrib := a; text := tx; tail := tl;
                           children := ids |}
          /\ (fix all2 (ids : list nat) (cs : list xml) {struct cs} : Prop :=
                match ids, cs with
                | [], [] => True
                | i' :: ids', c :: cs' => represents_in lo hi s i' c /\ all2 ids' cs'
                | _, _ => False
                end) ids cs
  end.

Fixpoint represents_all (lo hi : nat) (s : store) (ids : list nat) (cs : list xml)
    {struct cs} : Prop :=
  match ids, cs with
  | [], [] => True
  | i' :: ids', c :: cs' => represents_in lo hi s i' c /\ represents_all lo hi s ids' cs'
  | _, _ => False
  end.

(** Store [s] holds from [b] on the objects the parser creates for [t]. *)
Definition loaded (s : store) (b : nat) (t : xml) : Prop :=
  forall k e, load b t !! k = Some e -> s !! (b + k) = Some e.

Definition loaded_forest (s : store) (b : nat) (cs : list xml) : Prop :=
  forall k e, load_forest b cs !! k = Some e -> s !! (b + k) = Some e.

(** *** The passes of [__remove_rsid], on the objects *)

(** Two stores with the same child lists everywhere. *)
Definition same_shape (s s0 : store) : Prop :=
  forall i, children_of s i = children_of s0 i.

(** The object [e] after the first loop of [__remove_rsid]. *)
Definition strip_attrib (e : element) : element :=
  {| tag := tag e;
     attrib := filter (fun kv => negb (MSOfficeParser.rsid_key kv.1)) (attrib e);
     text := text e; tail := tail e; children := children e |}.

(** What the first loop leaves of the object named [j]: the root and
    the objects with an rsid tag are not touched. *)
Definition pass1_entry (j : nat) (e : element) : element :=
  if decide (j = 0) then e
  else if MSOfficeParser.rsid_tag (tag e) then e else strip_attrib e.

(** The objects the first loop puts in [elements_to_remove]. *)
Definition collected (s : store) (i : nat) : Prop :=
  i <> 0 /\ MSOfficeParser.rsid_tag (tag_of s i) = true.

(** The object [e] once the elements of [gone] have been removed from
    their parents. *)
Definition drop_children (gone : list nat) (e : element) : element :=
  {| tag := tag e; attrib := attrib e; text := text e; tail := tail e;
     children := filter (fun c => c ∉ gone) (children e) |}.

(** No object is referenced twice, by one parent or by two. *)
Definition unique_parent (s : store) : Prop :=
  (forall p, NoDup (children_of s p))
  /\ (forall c p q, c ∈ children_of s p -> c ∈ children_of s q -> p = q).

(** The local name of a qualified name [{uri}local]. *)
Fixpoint after_brace (q : string) : string :=
  match q with
  | EmptyString => EmptyString
  | String c q' => if Py.contains "}" q' then after_brace q'
                   else if Ascii.eqb c "}"%char then q' else q
  end.

(** The local name contains [rsid], in any letter case. *)
Definition names_rsid (q : string) : bool :=
  Py.contains "rsid" (Py.lower (after_brace q)).

(** No element and no attribute of the document has such a name. *)
Definition rsid_free (t : xml) : bool :=
  forallb
    (fun e => negb (names_rsid (xml_tag e))
              && forallb (fun kv => negb (names_rsid kv.1)) (xml_attrib e))
    (elements t).

(** What [__remove_rsid] achieves: below the root, no tag and no
    attribute name contains ["}rsid"], in any case. *)
Definition no_rsid_below_root (t : xml) : Prop :=
  forall e, e ∈ descendants t ->
    MSOfficeParser.rsid_tag (xml_tag e) = false
    /\ forall kv, kv ∈ xml_attrib e -> MSOfficeParser.rsid_key kv.1 = false.

End OfficeSpec.

(** ** More of [libmat2/web.py]: what the sanitizer accepts and copies *)

Module WebSpec.

Import Web.

(** The name an end tag must carry to close a start tag written
    [starttag_text]: what [handle_endtag] compares its [tag] with. *)
Definition closing_name (starttag_text : string) : string :=
  Py.lower (Py.split_blank_0 (Py.slice_1_m1 starttag_text)).

(** Well-nested event sequences: character data and self-closing tags
    anywhere, and every start tag closed by an end tag of its name after
    a well-nested content. *)
Inductive balanced : list event -> Prop :=
| balanced_nil : balanced []
| balanced_data data evs : balanced evs -> balanced (Data data :: evs)
| balanced_startend tag attrs text evs :
    balanced evs -> balanced (StartEndTag tag attrs text :: evs)
| balanced_element tag attrs text inner rest :
    balanced inner -> balanced rest ->
    balanced (StartTag tag attrs text :: (inner ++ EndTag (closing_name text) :: rest)%list).

(** A start tag that is still open, with the well-nested events that
    followed it. *)
Definition frame : Type := (string * list (string * string) * string) * list event.

Definition frame_events (f : frame) : list event :=
  let '((tag, attrs, text), inner) := f in StartTag tag attrs text :: inner.

Definition frame_text (f : frame) : string := f.1.2.

(** The events fed so far, cut at the start tags that are still open:
    [queue] lists the texts of these, most recent first. *)
Definition open_frames (evs : list event) (queue : list string) : Prop :=
  exists (done : list event) (frames : list frame),
    evs = (done ++ concat (map frame_events frames))%list
    /\ balanced done
    /\ Forall (fun f => balanced f.2) frames
    /\ queue = rev (map frame_text frames).


(** The tag, the text and the character data of [ev] are ASCII: on such
    events [Py.lower] and [Py.strip] are [str.lower] and [str.strip]. *)
Definition ascii_event (ev : event) : bool :=
  match ev with
  | StartTag tag _ text | StartEndTag tag _ text => Py.isascii tag && Py.isascii text
  | EndTag tag => Py.isascii tag
  | Data data => Py.isascii data
  end.



(** The metadata of the self-closing tags of [evs] that are in one of the
    two sets, later ones overwriting earlier ones. *)
Definition harvest (B R : gset string) (evs : list event) (m : gmap string string)
  : gmap string string :=
  fold_left
    (fun m ev =>
       match ev with
       | StartEndTag tag attrs _ =>
           if bool_decide (tag ∈ R ∪ B) then
             let d := dict_of_attrs attrs in
             <[default "harmful metadata" (d !! "name")
               := default "harmful data" (d !! "content")]> m
           else m
       | _ => m
       end)
    evs m.

(** Chunk [c] shows no tag of the blacklist: a start or end tag written
    is not of [B], a self-closing tag copied is of neither set, and a
    placeholder stands for a tag of [R]. *)
Definition clean_chunk (B R : gset string) (c : chunk) : Prop :=
  match c with
  | OStart text => tag_of text ∉ B
  | OEnd name => Py.lower name ∉ B
  | OData _ => True
  | OPlaceholder tag => tag ∈ R
  | OStartEnd text => tag_of text ∉ R ∪ B
  end.

End WebSpec.

Module WebExamples.


End WebExamples.

(** ** More of [libmat2/web.py]: [CSSParser.get_meta] *)

Module Css.

Import Web.

(** [re.findall(r'/\*(.*?)\*/', s, flags)]: the scan of [re.sub], which
    collects the text between the opening and the closing of each match
    instead of deleting the match. *)
Fixpoint findall_from (skip : nat) (s : string) : list string :=
  match s with
  | EmptyString => []
  | String c s' =>
      match skip with
      | S k => findall_from k s'
      | O =>
          match match_comment s with
          | Some n => substring 2 (n - 4) s :: findall_from (n - 1) s'
          | None => findall_from 0 s'
          end
      end
  end.

Definition findall_comments (s : string) : list string := findall_from 0 s.

(** The line boundaries of [str.splitlines] among the ASCII characters:
    LF, VT, FF, CR, FS, GS and RS. *)
Definition is_linebreak (c : ascii) : bool :=
  let n := nat_of_ascii c in
  ((10 <=? n)%nat && (n <=? 13)%nat)%bool
  || ((28 <=? n)%nat && (n <=? 30)%nat)%bool.

(** [s.splitlines()]: the lines without their boundaries, CR LF being
    one boundary, and no empty last line after a final boundary. *)
Fixpoint splitlines (s : string) : list string :=
  match s with
  | EmptyString => []
  | String c s' =>
      if is_linebreak c then
        if Ascii.eqb c "013"%char && Py.startswith s' (String "010"%char EmptyString)
        then splitlines s'
        else EmptyString :: splitlines s'
      else
        match splitlines s' with
        | [] => [String c EmptyString]
        | line :: lines => String c line :: lines
        end
  end.

(** [s.split(':')]. *)
Fixpoint split_colon (s : string) : list string :=
  match s with
  | EmptyString => [EmptyString]
  | String c s' =>
      if Ascii.eqb c ":"%char then EmptyString :: split_colon s'
      else
        match split_colon s' with
        | [] => [String c EmptyString]
        | part :: parts => String c part :: parts
        end
  end.

(** [string.whitespace]: space, TAB, LF, CR, VT, FF. *)
Definition whitespace : string :=
  String " "%char (String "009"%char (String "010"%char (String "013"%char
    (String "011"%char (String "012"%char EmptyString))))).

(** [c in chars]. *)
Definition in_chars (chars : string) (c : ascii) : bool :=
  existsb (Ascii.eqb c) (list_ascii_of_string chars).

Fixpoint lstrip_chars (chars : string) (s : string) : string :=
  match s with
  | EmptyString => EmptyString
  | String c s' => if in_chars chars c then lstrip_chars chars s' else s
  end.

Fixpoint rstrip_chars (chars : string) (s : string) : string :=
  match s with
  | EmptyString => EmptyString
  | String c s' =>
      match rstrip_chars chars s' with
      | EmptyString => if in_chars chars c then EmptyString else String c EmptyString
      | r => String c r
      end
  end.

(** [s.strip(chars)]. *)
Definition strip_chars (chars : string) (s : string) : string :=
  rstrip_chars chars (lstrip_chars chars s).

(** The body of the inner loop of [get_meta]: [k, v = line.split(':')]
    raises [ValueError] unless the line has exactly one colon. *)
Definition line_entry (metadata : gmap string string) (line : string)
  : gmap string string :=
  match split_colon line with
  | [k; v] => <[strip_chars (whitespace ++ "*") k := Py.strip v]> metadata
  | _ => <["harmful data" := Py.strip line]> metadata
  end.

(** [CSSParser.get_meta] on a file holding [text]. *)
Definition CSSParser_get_meta (text : string) : gmap string string :=
  fold_left
    (fun metadata m => fold_left line_entry (splitlines m) metadata)
    (findall_comments text) ∅.

(** [text] cut at its comments: each piece is the text kept before a
    comment and the body of the comment; [last] is the text after the
    last comment. *)
Definition weave (pieces : list (string * string)) (last : string) : string :=
  fold_right (fun kb acc => kb.1 ++ "/*" ++ kb.2 ++ "*/" ++ acc) last pieces.

(** The kept texts alone. *)
Definition kept (pieces : list (string * string)) (last : string) : string :=
  fold_right (fun kb acc => kb.1 ++ acc) last pieces.

End Css.

(** ** More of [libmat2/office.py]: the members [MSOfficeParser] omits *)

Module MSOfficeFiles.

Import Office.

#[local] Open Scope nat_scope.

(** [re.compile('word/webSettings.xml').match(s)]: the pattern at the
    start of [s]; its dot stands for any character but a line feed. *)
Definition match_webSettings (s : string) : bool :=
  Py.startswith s "word/webSettings"
  && match Py.drop 16 s with
     | String c rest => negb (Ascii.eqb c "010"%char) && Py.startswith rest "xml"
     | EmptyString => false
     end.

(** [re.compile('word/webSettings.xml').search(s) is not None]. *)
Fixpoint search_webSettings (s : string) : bool :=
  match_webSettings s
  || match s with
     | EmptyString => false
     | String _ s' => search_webSettings s'
     end.

(** [any(map(lambda r: r.search(fname), self.files_to_omit))] for the
    two patterns of [MSOfficeParser.files_to_omit]. *)
Definition omitted (fname : string) : bool :=
  search_webSettings fname || Py.contains "word/theme" fname.

(** The set [removed_fnames] that [__remove_content_type_members] builds
    from the member names of the archive. *)
Definition removed_fnames (names : list string) : gset string :=
  fold_left
    (fun removed fname => if omitted fname then {[fname]} ∪ removed else removed)
    names ∅.

(** [item] is an [Override] of namespace [uri] for a member of the
    archive that is omitted. *)
Definition dangling (uri : string) (names : list string) (item : xml) : bool :=
  bool_decide (xml_tag item = "{" ++ uri ++ "}Override")
  && match dict_get "PartName" (xml_attrib item) with
     | Some part => bool_decide (Py.drop 1 part ∈ names) && omitted (Py.drop 1 part)
     | None => false
     end.

(** The document without the dangling children of its root. *)
Definition drop_dangling (uri : string) (names : list string) (t : xml) : xml :=
  match t with
  | Element tg a tx tl cs =>
      Element tg a tx tl (filter (fun item => dangling uri names item = false) cs)
  end.

End MSOfficeFiles.

(** ** What [MSOfficeParser.__remove_revisions] makes of deletions *)

Module Revisions.

Import Office.

(** The document without the elements of tag [q] below its root, and
    without all they hold. *)
Fixpoint prune (q : string) (t : xml) : xml :=
  match t with
  | Element tg a tx tl cs =>
      Element tg a tx tl
        ((fix prune_forest (cs : list xml) : list xml :=
            match cs with
            | [] => []
            | c :: cs' =>
                if String.eqb (xml_tag c) q then prune_forest cs'
                else prune q c :: prune_forest cs'
            end) cs)
  end.

Fixpoint prune_forest (q : string) (cs : list xml) : list xml :=
  match cs with
  | [] => []
  | c :: cs' =>
      if String.eqb (xml_tag c) q then prune_forest q cs'
      else prune q c :: prune_forest q cs'
  end.

End Revisions.

Module OfficeExamples2.

Import Office.

Definition types_uri : string :=
  "http://schemas.openxmlformats.org/package/2006/content-types".

(** A [[Content_Types].xml] with one [Default] and three [Override]
    elements. *)
Definition content_types : xml_file :=
  {| declaration := true;
     ns_decls := [("", types_uri)];
     body :=
       OfficeExamples.elem (OfficeExamples.qname types_uri "Types") []
         [OfficeExamples.elem (OfficeExamples.qname types_uri "Default")
            [("Extension", "xml"); ("ContentType", "application/xml")] [];
          OfficeExamples.elem (OfficeExamples.qname types_uri "Override")
            [("PartName", "/word/document.xml")] [];
          OfficeExamples.elem (OfficeExamples.qname types_uri "Override")
            [("PartName", "/word/theme/theme1.xml")] [];
          OfficeExamples.elem (OfficeExamples.qname types_uri "Override")
            [("PartName", "/word/webSettings.xml")] []] |}.

(** The members of the archive. *)
Definition member_names : list string :=
  ["[Content_Types].xml"; "word/document.xml"; "word/theme/theme1.xml";
   "word/webSettings.xml"].

(** [<w:document><w:body><w:p><w:r/>inside<w:r/></w:p></w:body></w:document>]. *)
Definition paragraph (inside : list xml) : xml_file :=
  OfficeExamples.word_document "w"
    [OfficeExamples.elem (OfficeExamples.qname OfficeExamples.w_uri "body") []
       [OfficeExamples.elem (OfficeExamples.qname OfficeExamples.w_uri "p") []
          ([OfficeExamples.elem (OfficeExamples.qname OfficeExamples.w_uri "r") [] []]
           ++ inside
           ++ [OfficeExamples.elem (OfficeExamples.qname OfficeExamples.w_uri "r") [] []])]].

(** A tracked deletion and a tracked insertion of two runs. *)
Definition w_del : xml :=
  OfficeExamples.elem (OfficeExamples.qname OfficeExamples.w_uri "del") []
    [OfficeExamples.elem (OfficeExamples.qname OfficeExamples.w_uri "r") [] []].

Definition w_ins : xml :=
  OfficeExamples.elem (OfficeExamples.qname OfficeExamples.w_uri "ins") []
    [OfficeExamples.elem (OfficeExamples.qname OfficeExamples.w_uri "r") [] [];
     OfficeExamples.elem (OfficeExamples.qname OfficeExamples.w_uri "r") [] []].

End OfficeExamples2.

(** * Properties *)

Lemma bind_Ok {A B : Type} (r : result A) (k : A -> result B) (b : B) :
  r ≫= k = Ok b -> exists a, r = Ok a /\ k a = Ok b.
Proof. destruct r as [a|e]; simpl; [eauto | discriminate]. Qed.

(** ** The comment-based sanitizer *)

Section Css.

Import Web.

Lemma sub_comments_fixed (s : string) : has_comment s = false -> sub_comments s = s.
Proof.
  unfold sub_comments.
  induction s as [|c s IH]; [reflexivity|].
  cbn [has_comment sub_comments_from].
  destruct (match_comment (String c s)); [discriminate|].
  intros H. now rewrite IH.
Qed.

Lemma sub_comments_from_drop (k : nat) (s : string) :
  sub_comments_from k s = sub_comments (Py.drop k s).
Proof.
  revert k. induction s as [|c s IH]; intros [|k]; try reflexivity.
  cbn [sub_comments_from Py.drop]. apply IH.
Qed.

Lemma find_close_none_suffix c s : find_close (String c s) = None -> find_close s = None.
Proof.
  cbn [find_close]. destruct (_ && _); [discriminate|].
  destruct (find_close s); [discriminate|reflexivity].
Qed.

Lemma match_comment_find_close s n : match_comment s = Some n -> find_close s <> None.
Proof.
  destruct s as [|c1 [|c2 body]]; try discriminate.
  cbn [match_comment]. destruct (_ && _); [|discriminate].
  destruct (find_close body) eqn:Hb; [|discriminate]. intros _ H.
  apply find_close_none_suffix in H. apply find_close_none_suffix in H. congruence.
Qed.

Lemma no_close_fixed (s : string) : find_close s = None -> sub_comments s = s.
Proof.
  intros H. apply sub_comments_fixed.
  induction s as [|c s IH]; [reflexivity|].
  cbn [has_comment].
  destruct (match_comment (String c s)) eqn:Hm.
  - apply match_comment_find_close in Hm. contradiction.
  - apply IH. eapply find_close_none_suffix; eauto.
Qed.

Lemma match_comment_opener s n :
  match_comment s = Some n -> exists body, s = String "/" (String "*" body).
Proof.
  destruct s as [|c1 [|c2 body]]; try discriminate.
  cbn [match_comment]. destruct (Ascii.eqb c1 "/") eqn:H1; [|discriminate].
  destruct (Ascii.eqb c2 "*") eqn:H2; [|discriminate].
  apply Ascii.eqb_eq in H1, H2. subst. eauto.
Qed.

Lemma contains_drop needle k s :
  Py.contains needle s = false -> Py.contains needle (Py.drop k s) = false.
Proof.
  revert s. induction k as [|k IH]; intros s; [auto|].
  destruct s as [|c s]; [auto|].
  cbn [Py.contains Py.drop]. intros H. apply orb_false_iff in H as [_ H]. auto.
Qed.

Lemma length_drop k s : (String.length (Py.drop k s) <= String.length s)%nat.
Proof.
  revert s. induction k as [|k IH]; intros s; [simpl; lia|].
  destruct s as [|c s]; simpl; [lia|]. specialize (IH s). lia.
Qed.

Lemma no_junction_no_comment (s : string) :
  Py.contains "//*" s = false -> has_comment (sub_comments s) = false.
Proof.
  remember (String.length s) as n eqn:Hn.
  assert (Hle : (String.length s <= n)%nat) by lia. clear Hn.
  revert s Hle. induction n as [|n IH]; intros s Hle Hc.
  - destruct s; [reflexivity | simpl in Hle; lia].
  - destruct s as [|c s']; [reflexivity|].
    cbn [String.length] in Hle.
    pose proof Hc as Hc0.
    cbn [Py.contains] in Hc. apply orb_false_iff in Hc as [Hpre Hc].
    unfold sub_comments. cbn [sub_comments_from].
    destruct (match_comment (String c s')) as [m|] eqn:Hm.
    + rewrite sub_comments_from_drop. apply IH.
      * pose proof (length_drop (m - 1) s'). lia.
      * now apply contains_drop.
    + fold (sub_comments s').
      assert (IHs : has_comment (sub_comments s') = false) by (apply IH; [lia | exact Hc]).
      cbn [has_comment].
      destruct (match_comment (String c (sub_comments s'))) as [m|] eqn:Hm'; [|exact IHs].
      exfalso.
      destruct (match_comment_opener _ _ Hm') as [body Hbody].
      injection Hbody as -> Hsub. rewrite Hsub in Hm'.
      destruct s' as [|c2 s'']; [discriminate|].
      destruct (match_comment (String c2 s'')) as [m2|] eqn:Hm2.
      * destruct (match_comment_opener _ _ Hm2) as [b2 Hb2].
        injection Hb2 as -> ->. simpl in Hpre. discriminate Hpre.
      * unfold sub_comments in Hsub. cbn [sub_comments_from] in Hsub.
        rewrite Hm2 in Hsub. injection Hsub as -> Hsub.
        fold (sub_comments s'') in Hsub.
        cbn [match_comment] in Hm. simpl in Hm.
        destruct (find_close s'') eqn:Hfc; [discriminate|].
        rewrite (no_close_fixed _ Hfc) in Hsub. subst body.
        cbn [match_comment] in Hm'. simpl in Hm'. rewrite Hfc in Hm'. discriminate.
Qed.

(** C8 (as stated, refuted). Deleting the comment of ["//**/**/"] joins
    the ["/"] before it with the ["**/"] after it into a new comment,
    which a second application deletes. *)
Lemma css_remove_all_not_idempotent :
  snd (CSSParser_remove_all "//**/**/") = "/**/"
  /\ snd (CSSParser_remove_all (snd (CSSParser_remove_all "//**/**/"))) = ""
  /\ snd (CSSParser_remove_all (snd (CSSParser_remove_all "//**/**/")))
     <> snd (CSSParser_remove_all "//**/**/").
Proof. vm_compute. repeat split; discriminate. Qed.

(** C8 (amended). A text in which no [/* ... */] span occurs is left
    unchanged, so [remove_all] applied to its own output gives that output
    again whenever no comment remains in it; this is the case for every
    input in which no ["/"] stands right before a ["/*"]. *)
Theorem css_remove_all_idempotent_when_clean (text : string) :
  (Py.contains "//*" text = false ->
   has_comment (snd (CSSParser_remove_all text)) = false)
  /\ (has_comment (snd (CSSParser_remove_all text)) = false ->
      snd (CSSParser_remove_all (snd (CSSParser_remove_all text)))
      = snd (CSSParser_remove_all text)).
Proof.
  unfold CSSParser_remove_all. cbn [snd]. split.
  - apply no_junction_no_comment.
  - apply sub_comments_fixed.
Qed.

Lemma css_remove_all_idempotent_when_clean_witness :
  snd (CSSParser_remove_all "/* author: Alice */ body{color:red}") = " body{color:red}"
  /\ snd (CSSParser_remove_all
            (snd (CSSParser_remove_all "/* author: Alice */ body{color:red}")))
     = snd (CSSParser_remove_all "/* author: Alice */ body{color:red}").
Proof.
  split; [vm_compute; reflexivity|].
  destruct (css_remove_all_idempotent_when_clean "/* author: Alice */ body{color:red}")
    as [Hclean Hfixed].
  apply Hfixed. apply Hclean. vm_compute. reflexivity.
Defined.

End Css.

(** ** The streaming markup sanitizer *)

Section StringFacts.

Lemma is_tag_delim_lower (c : ascii) :
  Web.is_tag_delim (Py.lower_ascii c) = Web.is_tag_delim c.
Proof. destruct c as [[] [] [] [] [] [] [] []]; reflexivity. Qed.

Lemma all_chars_lower (s : string) :
  Web.all_chars (fun c => negb (Web.is_tag_delim c)) (Py.lower s)
  = Web.all_chars (fun c => negb (Web.is_tag_delim c)) s.
Proof.
  induction s as [|c s IH]; simpl; [reflexivity|].
  now rewrite is_tag_delim_lower, IH.
Qed.

Lemma endswith_gt (s : string) :
  Py.endswith s ">" = true -> exists pre, s = (pre ++ ">")%string.
Proof.
  induction s as [|c s IH]; [discriminate|].
  cbn [Py.endswith]. intros H. apply orb_true_iff in H as [H|H].
  - apply String.eqb_eq in H. exists EmptyString. exact H.
  - destruct (IH H) as [pre ->]. now exists (String c pre).
Qed.

Lemma drop_last_snoc (s : string) (c : ascii) :
  Py.drop_last (s ++ String c EmptyString) = s.
Proof.
  induction s as [|a s IH]; simpl; [reflexivity|].
  rewrite IH. destruct s; reflexivity.
Qed.

(** On a text that ends with [">"], cutting at the first blank inside
    [text[:-1]] and cutting at the first delimiter give the same name as
    soon as the former holds no delimiter. *)
Lemma take_while_blank_delim (s : string) :
  Web.all_chars (fun c => negb (Web.is_tag_delim c)) (Py.split_blank_0 s) = true ->
  Py.take_while (fun c => negb (Web.is_tag_delim c)) (s ++ ">") = Py.split_blank_0 s.
Proof.
  unfold Py.split_blank_0.
  induction s as [|c s IH]; simpl; [reflexivity|].
  destruct (Py.is_blank c) eqn:Hb; simpl.
  - unfold Py.is_blank in Hb. apply Ascii.eqb_eq in Hb. subst c. reflexivity.
  - intros H. apply andb_true_iff in H as [Hc Hs].
    rewrite Hc. f_equal. now apply IH.
Qed.

Lemma tagfind_previous_tag (text tag : string) :
  Py.endswith text ">" = true ->
  Web.all_chars (fun c => negb (Web.is_tag_delim c)) tag = true ->
  tag = Py.lower (Py.split_blank_0 (Py.slice_1_m1 text)) ->
  Web.tagfind text = Py.split_blank_0 (Py.slice_1_m1 text).
Proof.
  intros Hend Htag ->. rewrite all_chars_lower in Htag.
  destruct (endswith_gt _ Hend) as [pre ->].
  unfold Web.tagfind, Py.slice_1_m1 in *.
  destruct pre as [|c pre]; simpl in *; [reflexivity|].
  rewrite drop_last_snoc in *. now apply take_while_blank_delim.
Qed.

End StringFacts.

Section Invariant.

Lemma open_tags_from_app (out : list Web.chunk) (c : Web.chunk) (o : list string) :
  Web.open_tags_from o (out ++ [c])
  = match Web.open_tags_from o out with
    | Some o' => Web.nest_step c o'
    | None => None
    end.
Proof.
  revert o. induction out as [|c' out IH]; intros o; simpl.
  - destruct (Web.nest_step c o); reflexivity.
  - destruct (Web.nest_step c' o); [apply IH | reflexivity].
Qed.

Lemma init_invariant fname B R p :
  Web.init fname B R = Ok p -> Web.invariant p.
Proof.
  unfold Web.init. case_bool_decide as Hd; [|discriminate].
  intros [= <-]. split; simpl; auto.
Qed.

Lemma handle_starttag_invariant tag attrs text p :
  Web.from_html_parser (Web.StartTag tag attrs text) = true ->
  Web.invariant p -> Web.invariant (Web.handle_starttag tag attrs text p).
Proof.
  simpl. intros Hev [Hdis Hr Hd Hout Hq].
  apply andb_true_iff in Hev as [Hend Htag]. apply String.eqb_eq in Htag.
  unfold Web.handle_starttag. simpl.
  set (r := if bool_decide (tag ∈ Web.tag_required_blacklist p) then _ else _).
  set (d := if bool_decide (tag ∈ Web.tag_blacklist p) then _ else _).
  assert (Hr' : r = Web.depth_in (Web.tag_required_blacklist p) (text :: Web.validation_queue p)).
  { subst r. simpl. unfold Web.tag_of. rewrite <- Htag, Hr. case_bool_decide; lia. }
  assert (Hd' : d = Web.depth_in (Web.tag_blacklist p) (text :: Web.validation_queue p)).
  { subst d. simpl. unfold Web.tag_of. rewrite <- Htag, Hd. case_bool_decide; lia. }
  destruct ((d =? 0) && (r <=? 1)) eqn:Hemit; split; simpl; auto.
  - rewrite open_tags_from_app, Hout. simpl.
    change (Web.depth_in ?s (text :: ?q))
      with ((if bool_decide (Web.tag_of text ∈ s) then 1 else 0) + Web.depth_in s q) in Hr', Hd'.
    rewrite <- Hr', <- Hd', Hemit. reflexivity.
  - rewrite Hout.
    change (Web.depth_in ?s (text :: ?q))
      with ((if bool_decide (Web.tag_of text ∈ s) then 1 else 0) + Web.depth_in s q) in Hr', Hd'.
    rewrite <- Hr', <- Hd', Hemit. reflexivity.
Qed.

Lemma handle_endtag_invariant tag p p' :
  Web.from_html_parser (Web.EndTag tag) = true ->
  Web.invariant p -> Web.handle_endtag tag p = Ok p' -> Web.invariant p'.
Proof.
  simpl. intros Hev [Hdis Hr Hd Hout Hq].
  unfold Web.handle_endtag.
  destruct (Web.validation_queue p) as [|text q] eqn:Hqueue; [discriminate|].
  set (previous_tag := Py.split_blank_0 (Py.slice_1_m1 text)).
  destruct (String.eqb tag (Py.lower previous_tag)) eqn:Hcheck; [|discriminate].
  apply String.eqb_eq in Hcheck. simpl negb. cbv iota.
  apply Forall_cons in Hq as [Hend Hq].
  pose proof (tagfind_previous_tag text tag Hend Hev Hcheck) as Hname.
  fold previous_tag in Hname.
  assert (Htag : Web.tag_of text = tag) by (unfold Web.tag_of; congruence).
  cbn [Web.open_names] in Hout. rewrite <- Hr, <- Hd in Hout.
  simpl in Hr, Hd. rewrite Htag in Hr, Hd.
  assert (Hnot : tag ∈ Web.tag_required_blacklist p -> tag ∉ Web.tag_blacklist p)
    by set_solver.
  simpl.
  destruct ((Web.in_dangerous_tag p =? 0) && (Web.in_dangerous_but_required_tag p <=? 1))
    eqn:Hemit; simpl.
  - assert (Hout' : Web.open_tags_from [] (Web.textrepr p ++ [Web.OEnd previous_tag])
                    = Some (Web.open_names (Web.tag_required_blacklist p)
                              (Web.tag_blacklist p) q)).
    { rewrite open_tags_from_app, Hout. simpl. rewrite Hname.
      now rewrite String.eqb_refl. }
    repeat case_bool_decide; intros [= <-]; split; simpl; auto;
      try (rewrite Hr; lia); try (rewrite Hd; lia).
    all: exfalso; eapply Hnot; eassumption.
  - repeat case_bool_decide; intros [= <-]; split; simpl; auto;
      try (rewrite Hr; lia); try (rewrite Hd; lia).
    all: exfalso; eapply Hnot; eassumption.
Qed.

Lemma handle_data_invariant data p :
  Web.invariant p -> Web.invariant (Web.handle_data data p).
Proof.
  intros [Hdis Hr Hd Hout Hq]. unfold Web.handle_data.
  repeat match goal with |- context [if ?b then _ else _] => destruct b end;
    split; simpl; auto.
  rewrite open_tags_from_app, Hout. reflexivity.
Qed.

Lemma handle_startendtag_invariant tag attrs text p :
  Web.invariant p -> Web.invariant (Web.handle_startendtag tag attrs text p).
Proof.
  intros [Hdis Hr Hd Hout Hq]. unfold Web.handle_startendtag.
  repeat match goal with |- context [if ?b then _ else _] => destruct b end;
    split; simpl; auto; rewrite open_tags_from_app, Hout; reflexivity.
Qed.

Lemma handle_invariant ev p p' :
  Web.from_html_parser ev = true ->
  Web.invariant p -> Web.handle ev p = Ok p' -> Web.invariant p'.
Proof.
  destruct ev as [tag attrs text|tag|data|tag attrs text]; intros Hev Hinv; simpl.
  - intros [= <-]. now apply handle_starttag_invariant.
  - now apply handle_endtag_invariant.
  - intros [= <-]. now apply handle_data_invariant.
  - intros [= <-]. now apply handle_startendtag_invariant.
Qed.

Lemma feed_invariant evs p p' :
  forallb Web.from_html_parser evs = true ->
  Web.invariant p -> Web.feed evs p = Ok p' -> Web.invariant p'.
Proof.
  revert p. induction evs as [|ev evs IH]; intros p Hevs Hinv; simpl.
  - now intros [= <-].
  - simpl in Hevs. apply andb_true_iff in Hevs as [Hev Hevs].
    intros Hfeed. apply bind_Ok in Hfeed as (p1 & H1 & Hfeed).
    apply (IH p1); [exact Hevs | eapply handle_invariant; eassumption | exact Hfeed].
Qed.

Lemma feed_app evs1 evs2 p p' :
  Web.feed (evs1 ++ evs2) p = Ok p' ->
  exists p1, Web.feed evs1 p = Ok p1 /\ Web.feed evs2 p1 = Ok p'.
Proof.
  revert p. induction evs1 as [|ev evs1 IH]; intros p; simpl.
  - eauto.
  - intros H. apply bind_Ok in H as (p0 & H0 & H).
    destruct (IH _ H) as (p1 & H1 & H2). exists p1. now rewrite H0.
Qed.

Lemma handle_config ev p p' :
  Web.handle ev p = Ok p' ->
  Web.tag_required_blacklist p' = Web.tag_required_blacklist p
  /\ Web.tag_blacklist p' = Web.tag_blacklist p.
Proof.
  destruct ev as [tag attrs text|tag|data|tag attrs text]; simpl.
  - intros [= <-]. unfold Web.handle_starttag.
    destruct (_ && _); auto.
  - unfold Web.handle_endtag.
    destruct (Web.validation_queue p); [discriminate|].
    destruct (negb _); [discriminate|]. simpl.
    repeat match goal with |- context [if ?b then _ else _] => destruct b end;
      intros [= <-]; auto.
  - intros [= <-]. unfold Web.handle_data.
    repeat match goal with |- context [if ?b then _ else _] => destruct b end; auto.
  - intros [= <-]. unfold Web.handle_startendtag.
    repeat match goal with |- context [if ?b then _ else _] => destruct b end; auto.
Qed.

Lemma feed_config evs p p' :
  Web.feed evs p = Ok p' ->
  Web.tag_required_blacklist p' = Web.tag_required_blacklist p
  /\ Web.tag_blacklist p' = Web.tag_blacklist p.
Proof.
  revert p. induction evs as [|ev evs IH]; intros p; simpl.
  - intros [= <-]. auto.
  - intros H. apply bind_Ok in H as (p1 & H1 & H).
    destruct (IH _ H) as [-> ->]. eapply handle_config; eassumption.
Qed.

Lemma init_config fname B R p :
  Web.init fname B R = Ok p ->
  Web.tag_required_blacklist p = R /\ Web.tag_blacklist p = B.
Proof.
  unfold Web.init. case_bool_decide; [|discriminate]. intros [= <-]. auto.
Qed.

Lemma depth_in_nonneg tags q : 0 <= Web.depth_in tags q.
Proof. induction q as [|t q IH]; simpl; [lia|]. case_bool_decide; lia. Qed.

End Invariant.

Section Sanitizer.

Import Web.

(** C1. When the parser was built (its two tag sets are disjoint), the
    events came from [html.parser], feeding them raised nothing and
    [remove_all] returned, then the text written is the concatenation of
    the appended chunks, and in that sequence every appended start tag is
    closed later by an appended end tag of the same name, in nested
    order. *)
Theorem remove_all_output_well_nested
    (fname : string) (B R : gset string) (evs : list event)
    (p : parser) (flag : bool) (written : string) :
  forallb from_html_parser evs = true ->
  AbstractHTMLParser_init fname B R evs = Ok p ->
  remove_all p = Ok (flag, written) ->
  written = render (textrepr p) /\ well_nested (textrepr p) = true.
Proof.
  intros Hevs Hinit Hrm. unfold AbstractHTMLParser_init in Hinit.
  apply bind_Ok in Hinit as (p0 & H0 & Hfeed).
  pose proof (feed_invariant _ _ _ Hevs (init_invariant _ _ _ _ H0) Hfeed) as Hinv.
  unfold remove_all in Hrm.
  destruct (validation_queue p) as [|t q] eqn:Hq; [|discriminate].
  injection Hrm as <- <-. split; [reflexivity|].
  unfold well_nested. rewrite (inv_output _ Hinv), Hq. reflexivity.
Qed.

Lemma remove_all_output_well_nested_witness :
  exists p,
    HTMLParser "index.html" Examples.page_events = Ok p
    /\ well_nested (textrepr p) = true.
Proof.
  eexists. split; [vm_compute; reflexivity|].
  eapply (remove_all_output_well_nested "index.html" {["meta"]} {["title"]}
            Examples.page_events).
  - vm_compute; reflexivity.
  - vm_compute; reflexivity.
  - vm_compute; reflexivity.
Defined.

(** C9. After every event of a sequence that is fed without error, each
    counter is the number of start tags of its set that are still open
    in the validation queue, hence never negative. *)
Theorem counters_never_negative
    (fname : string) (B R : gset string) (evs1 evs2 : list event) (p : parser) :
  forallb from_html_parser (evs1 ++ evs2) = true ->
  AbstractHTMLParser_init fname B R (evs1 ++ evs2) = Ok p ->
  exists p1,
    AbstractHTMLParser_init fname B R evs1 = Ok p1
    /\ in_dangerous_but_required_tag p1 = depth_in R (validation_queue p1)
    /\ in_dangerous_tag p1 = depth_in B (validation_queue p1)
    /\ 0 <= in_dangerous_but_required_tag p1
    /\ 0 <= in_dangerous_tag p1.
Proof.
  intros Hevs Hinit. unfold AbstractHTMLParser_init in *.
  apply bind_Ok in Hinit as (p0 & H0 & Hfeed).
  apply feed_app in Hfeed as (p1 & H1 & _).
  rewrite forallb_app in Hevs. apply andb_true_iff in Hevs as [Hevs1 _].
  pose proof (feed_invariant _ _ _ Hevs1 (init_invariant _ _ _ _ H0) H1) as Hinv.
  exists p1. rewrite H0. simpl. split; [exact H1|].
  destruct (feed_config _ _ _ H1) as [HR HB].
  destruct (init_config _ _ _ _ H0) as [HR0 HB0].
  rewrite HR0 in HR. rewrite HB0 in HB.
  rewrite (inv_required _ Hinv), (inv_dangerous _ Hinv), HR, HB.
  repeat split; apply depth_in_nonneg.
Qed.

Lemma counters_never_negative_witness :
  exists p1,
    HTMLParser "index.html" (firstn 5 Examples.page_events) = Ok p1
    /\ 0 <= in_dangerous_but_required_tag p1
    /\ 0 <= in_dangerous_tag p1.
Proof.
  assert (Hevs : forallb from_html_parser
                   (firstn 5 Examples.page_events ++ skipn 5 Examples.page_events) = true)
    by (vm_compute; reflexivity).
  assert (Hinit : exists p, AbstractHTMLParser_init "index.html" {["meta"]} {["title"]}
                    (firstn 5 Examples.page_events ++ skipn 5 Examples.page_events) = Ok p)
    by (eexists; vm_compute; reflexivity).
  destruct Hinit as [p Hinit].
  destruct (counters_never_negative _ _ _ _ _ _ Hevs Hinit) as (p1 & H1 & _ & _ & Hr & Hd).
  exists p1. auto.
Defined.

(** C3. With ['title'] in the required blacklist, [<title>data</title>]
    is processed without error whatever the character data is: the start
    tag and the end tag are appended, the data is not, so the text written
    is [<title></title>], in which ['Secret'] does not occur. *)
Theorem required_title_kept_empty
    (fname : string) (B R : gset string) (data : string) :
  "title" ∈ R -> R ∩ B = ∅ ->
  exists p,
    AbstractHTMLParser_init fname B R (Examples.title_events data) = Ok p
    /\ textrepr p = [OStart "<title>"; OEnd "title"]
    /\ remove_all p = Ok (true, "<title></title>")
    /\ Py.contains "Secret" "<title></title>" = false.
Proof.
  intros HR Hdis.
  assert (HB : "title" ∉ B) by set_solver.
  unfold AbstractHTMLParser_init, init.
  rewrite bool_decide_eq_true_2 by exact Hdis.
  eexists. split; [|split; [|split]].
  - simpl. unfold handle_starttag. simpl.
    rewrite (bool_decide_eq_true_2 _ HR), (bool_decide_eq_false_2 _ HB). simpl.
    unfold handle_endtag. simpl.
    rewrite (bool_decide_eq_true_2 _ HR). reflexivity.
  - reflexivity.
  - reflexivity.
  - reflexivity.
Qed.

Lemma required_title_kept_empty_witness :
  exists p,
    HTMLParser "index.html" (Examples.title_events "Secret") = Ok p
    /\ remove_all p = Ok (true, "<title></title>")
    /\ Py.contains "Secret" "<title></title>" = false.
Proof.
  assert (HR : "title" ∈ ({["title"]} : gset string)) by (apply elem_of_singleton; reflexivity).
  assert (Hdis : ({["title"]} : gset string) ∩ {["meta"]} = ∅)
    by (apply (bool_decide_unpack _); vm_compute; exact I).
  destruct (required_title_kept_empty "index.html" {["meta"]} {["title"]} "Secret" HR Hdis)
    as (p & Hp & _ & Hrm & Hc).
  exists p. auto.
Defined.

(** C2 (as stated, refuted). [<meta name="author" content="Bob">] does not
    end in ["/>"]: it reaches [handle_starttag], which harvests nothing
    and leaves the tag on the validation queue, so that both [get_meta]
    and [remove_all] raise. *)
Lemma meta_start_tag_left_unclosed :
  (p ← HTMLParser "index.html" Examples.meta_open_events; get_meta p)
    = Raise (ValueError_unclosed [Examples.meta_open_text])
  /\ (p ← HTMLParser "index.html" Examples.meta_open_events; remove_all p)
    = Raise (ValueError_unclosed [Examples.meta_open_text])
  /\ (p ← HTMLParser "index.html" Examples.meta_open_events; Ok (meta p)) = Ok ∅.
Proof. vm_compute. auto. Qed.

Lemma meta_attrs_name : dict_of_attrs Examples.meta_attrs !! "name" = Some "author".
Proof. vm_compute. reflexivity. Qed.

Lemma meta_attrs_content : dict_of_attrs Examples.meta_attrs !! "content" = Some "Bob".
Proof. vm_compute. reflexivity. Qed.

(** C2 (amended). With ['meta'] in the plain blacklist, the self-closing
    [<meta name="author" content="Bob"/>] gives the metadata
    [{"author": "Bob"}] and an empty output, and neither [get_meta] nor
    [remove_all] raises; written without the closing slash, the tag is a
    start tag that is never closed, and both raise. *)
Theorem blacklisted_meta_harvested_when_self_closed
    (fname : string) (B R : gset string) :
  "meta" ∈ B -> R ∩ B = ∅ ->
  (exists p,
     AbstractHTMLParser_init fname B R Examples.meta_selfclosed_events = Ok p
     /\ get_meta p = Ok {["author" := "Bob"]}
     /\ remove_all p = Ok (true, ""))
  /\ (exists p,
     AbstractHTMLParser_init fname B R Examples.meta_open_events = Ok p
     /\ get_meta p = Raise (ValueError_unclosed [Examples.meta_open_text])
     /\ remove_all p = Raise (ValueError_unclosed [Examples.meta_open_text])).
Proof.
  intros HB Hdis.
  assert (HR : "meta" ∉ R) by set_solver.
  unfold AbstractHTMLParser_init, init.
  rewrite bool_decide_eq_true_2 by exact Hdis.
  split; eexists; (split; [simpl; reflexivity|]).
  - unfold handle_startendtag. cbn [tag_required_blacklist tag_blacklist].
    rewrite bool_decide_eq_true_2 by set_solver.
    rewrite meta_attrs_name, meta_attrs_content.
    cbn [default in_dangerous_tag set_meta Z.eqb negb].
    rewrite (bool_decide_eq_false_2 _ HR).
    split; reflexivity.
  - unfold handle_starttag. cbn [set_queue set_counters in_dangerous_tag
      in_dangerous_but_required_tag tag_required_blacklist tag_blacklist
      validation_queue].
    rewrite (bool_decide_eq_true_2 _ HB), (bool_decide_eq_false_2 _ HR).
    split; reflexivity.
Qed.

Lemma blacklisted_meta_harvested_when_self_closed_witness :
  exists p,
    HTMLParser "index.html" Examples.meta_selfclosed_events = Ok p
    /\ get_meta p = Ok {["author" := "Bob"]}
    /\ remove_all p = Ok (true, "").
Proof.
  assert (HB : "meta" ∈ ({["meta"]} : gset string)) by (apply elem_of_singleton; reflexivity).
  assert (Hdis : ({["title"]} : gset string) ∩ {["meta"]} = ∅)
    by (apply (bool_decide_unpack _); vm_compute; exact I).
  destruct (blacklisted_meta_harvested_when_self_closed "index.html" {["meta"]} {["title"]}
              HB Hdis) as [H _].
  exact H.
Defined.

End Sanitizer.

(** ** Objects, documents and the canonicalizer *)

Section Objects.

Import Office OfficeSpec.

#[local] Open Scope nat_scope.
#[local] Open Scope list_scope.

Lemma xml_ind' (P : xml -> Prop) :
  (forall tg a tx tl cs, Forall P cs -> P (Element tg a tx tl cs)) ->
  forall t, P t.
Proof.
  intros H. fix IH 1. intros [tg a tx tl cs]. apply H.
  induction cs as [|c cs IHcs]; constructor; [apply IH | exact IHcs].
Qed.

Lemma load_unfold b tg a tx tl cs :
  load b (Element tg a tx tl cs)
  = {| tag := tg; attrib := a; text := tx; tail := tl; children := child_ids (S b) cs |}
    :: load_forest (S b) cs.
Proof.
  reflexivity.
Qed.

Lemma xml_size_unfold tg a tx tl cs :
  xml_size (Element tg a tx tl cs) = S (list_sum (map xml_size cs)).
Proof. reflexivity. Qed.

Lemma xml_size_pos t : 0 < xml_size t.
Proof. destruct t. simpl. lia. Qed.

Lemma length_load b t : length (load b t) = xml_size t.
Proof.
  revert b. induction t as [tg a tx tl cs IH] using xml_ind'. intros b.
  rewrite load_unfold, xml_size_unfold. cbn [length]. f_equal.
  generalize (S b). clear b.
  induction IH as [|c cs Hc _ IHcs]; intros b; simpl; [reflexivity|].
  rewrite length_app, Hc, IHcs. reflexivity.
Qed.

Lemma length_load_forest b cs : length (load_forest b cs) = list_sum (map xml_size cs).
Proof.
  revert b. induction cs as [|c cs IH]; intros b; simpl; [reflexivity|].
  now rewrite length_app, length_load, IH.
Qed.

Lemma represents_in_unfold lo hi s i tg a tx tl cs :
  represents_in lo hi s i (Element tg a tx tl cs)
  <-> (lo <= i < hi
       /\ exists ids,
           s !! i = Some {| tag := tg; attrib := a; text := tx; tail := tl;
                            children := ids |}
           /\ represents_all lo hi s ids cs).
Proof.
  cbn [represents_in].
  assert (H : forall ids,
    (fix all2 (ids : list nat) (cs : list xml) {struct cs} : Prop :=
       match ids, cs with
       | [], [] => True
       | i' :: ids', c :: cs' => represents_in lo hi s i' c /\ all2 ids' cs'
       | _, _ => False
       end) ids cs <-> represents_all lo hi s ids cs).
  { induction cs as [|c cs IH]; intros [|i' ids]; simpl; try tauto.
    rewrite IH. tauto. }
  split; intros [Hr (ids & He & Hall)]; (split; [exact Hr|]); exists ids;
    (split; [exact He|]); now apply H.
Qed.

Lemma represents_in_frame lo hi s s' i t :
  (forall j, lo <= j < hi -> s' !! j = s !! j) ->
  represents_in lo hi s i t -> represents_in lo hi s' i t.
Proof.
  intros Hagree. revert i.
  induction t as [tg a tx tl cs IH] using xml_ind'. intros i.
  rewrite !represents_in_unfold. intros [Hr (ids & He & Hall)].
  split; [exact Hr|]. exists ids. split; [rewrite Hagree; auto|].
  clear He. revert ids Hall.
  induction IH as [|c cs Hc _ IHcs]; intros [|i' ids]; simpl; try tauto.
  intros [H1 H2]. split; auto.
Qed.

Lemma represents_in_weaken lo hi lo' hi' s i t :
  lo' <= lo -> hi <= hi' ->
  represents_in lo hi s i t -> represents_in lo' hi' s i t.
Proof.
  intros Hlo Hhi. revert i.
  induction t as [tg a tx tl cs IH] using xml_ind'. intros i.
  rewrite !represents_in_unfold. intros [Hr (ids & He & Hall)].
  split; [lia|]. exists ids. split; [exact He|].
  clear He. revert ids Hall.
  induction IH as [|c cs Hc _ IHcs]; intros [|i' ids]; simpl; try tauto.
  intros [H1 H2]. split; auto.
Qed.

Lemma represents_dump lo hi s i t fuel :
  represents_in lo hi s i t -> xml_size t <= fuel -> dump fuel s i = Some t.
Proof.
  revert i fuel.
  induction t as [tg a tx tl cs IH] using xml_ind'. intros i fuel.
  rewrite represents_in_unfold, xml_size_unfold. intros [Hr (ids & He & Hall)] Hfuel.
  destruct fuel as [|fuel]; [lia|]. cbn [dump]. rewrite He. simpl.
  assert (Hcs : mapM (dump fuel s) ids = Some cs).
  { assert (Hsum : list_sum (map xml_size cs) <= fuel) by lia.
    clear He Hfuel. revert ids Hall Hsum.
    induction IH as [|c cs Hc _ IHcs]; intros [|i' ids]; simpl; try tauto.
    intros [H1 H2] Hsum. rewrite (Hc i' fuel H1) by lia. simpl.
    rewrite (IHcs ids H2) by lia. reflexivity. }
  rewrite Hcs. reflexivity.
Qed.

Lemma represents_all_Forall2 lo hi s ids cs :
  represents_all lo hi s ids cs <-> Forall2 (represents_in lo hi s) ids cs.
Proof.
  revert ids. induction cs as [|c cs IH]; intros [|i ids]; simpl.
  - split; [constructor|trivial].
  - split; [tauto|inversion 1].
  - split; [tauto|inversion 1].
  - rewrite IH. split.
    + intros [H1 H2]. now constructor.
    + inversion 1; subst. auto.
Qed.

Lemma loaded_forest_cons s b c cs :
  loaded_forest s b (c :: cs) <-> loaded s b c /\ loaded_forest s (b + xml_size c) cs.
Proof.
  unfold loaded_forest, loaded. cbn [load_forest]. split.
  - intros H. split; intros k e Hk.
    + apply H. rewrite lookup_app_l; [exact Hk|]. now apply lookup_lt_Some in Hk.
    + replace (b + xml_size c + k) with (b + (xml_size c + k)) by lia. apply H.
      rewrite lookup_app_r; rewrite length_load; [|lia].
      now replace (xml_size c + k - xml_size c) with k by lia.
  - intros [H1 H2] k e Hk.
    destruct (decide (k < xml_size c)) as [Hlt|Hge].
    + apply H1. rewrite lookup_app_l in Hk; [exact Hk|]. now rewrite length_load.
    + rewrite lookup_app_r in Hk; rewrite length_load in *; [|lia].
      replace (b + k) with (b + xml_size c + (k - xml_size c)) by lia. now apply H2.
Qed.

Lemma loaded_unfold s b tg a tx tl cs :
  loaded s b (Element tg a tx tl cs)
  <-> s !! b = Some {| tag := tg; attrib := a; text := tx; tail := tl;
                       children := child_ids (S b) cs |}
      /\ loaded_forest s (S b) cs.
Proof.
  unfold loaded, loaded_forest. rewrite load_unfold. split.
  - intros H. split.
    + replace b with (b + 0) at 1 by lia. now apply H.
    + intros k e Hk. replace (S b + k) with (b + S k) by lia. now apply H.
  - intros [H1 H2] [|k] e Hk; simpl in Hk.
    + injection Hk as <-. now replace (b + 0) with b by lia.
    + replace (b + S k) with (S b + k) by lia. now apply H2.
Qed.

Lemma loaded_forest_frame s s' b cs :
  (forall j, b <= j < b + list_sum (map xml_size cs) -> s' !! j = s !! j) ->
  loaded_forest s b cs -> loaded_forest s' b cs.
Proof.
  intros Hagree H k e Hk. rewrite Hagree; [now apply H|].
  apply lookup_lt_Some in Hk. rewrite length_load_forest in Hk. lia.
Qed.

Lemma loaded_represents s b t :
  loaded s b t -> represents_in b (b + xml_size t) s b t.
Proof.
  revert b. induction t as [tg a tx tl cs IH] using xml_ind'. intros b.
  rewrite loaded_unfold, represents_in_unfold, xml_size_unfold.
  intros [He Hf]. split; [lia|]. eexists. split; [exact He|].
  assert (Hgen : forall b', b <= b' -> b' + list_sum (map xml_size cs) <= b + S (list_sum (map xml_size cs)) ->
            loaded_forest s b' cs ->
            represents_all b (b + S (list_sum (map xml_size cs))) s (child_ids b' cs) cs).
  { clear He Hf. generalize (b + S (list_sum (map xml_size cs))) as hi. intros hi.
    induction IH as [|c cs Hc _ IHcs]; intros b' Hlo Hhi Hl; simpl; [trivial|].
    apply loaded_forest_cons in Hl as [Hl1 Hl2]. simpl in Hhi. split.
    - eapply represents_in_weaken; [| |apply Hc; exact Hl1]; lia.
    - apply IHcs; [lia|lia|exact Hl2]. }
  apply Hgen; [lia|lia|exact Hf].
Qed.

Lemma represents_key lo hi s i t :
  represents_in lo hi s i t ->
  sort_key (tag_of s i) (attrib_of s i) = xml_key t.
Proof.
  destruct t as [tg a tx tl cs]. rewrite represents_in_unfold.
  intros [_ (ids & He & _)]. unfold tag_of, attrib_of, xml_key. now rewrite He.
Qed.

Lemma elem_of_insert_xml z y l : z ∈ insert_xml y l -> z = y \/ z ∈ l.
Proof.
  induction l as [|x l IH]; simpl.
  - intros H. apply list_elem_of_singleton in H. auto.
  - destruct (key_ltb _ _).
    + intros H. apply elem_of_cons in H as [->|H]; [right; left|].
      destruct (IH H) as [->|H']; [auto | right; now right].
    + intros H. apply elem_of_cons in H as [->|H]; auto.
Qed.

Lemma elem_of_sort_xml z l : z ∈ sort_xml l -> z ∈ l.
Proof.
  induction l as [|x l IH]; simpl; [auto|].
  intros H. apply elem_of_insert_xml in H as [->|H]; [left | right; auto].
Qed.

Section Related.

Context {X : Type} (Rel : X -> xml -> Prop) (key : X -> string * option string).
Hypothesis key_agrees : forall x y, Rel x y -> key x = xml_key y.

Lemma insert_related x y l1 l2 :
  Rel x y -> Forall2 Rel l1 l2 ->
  (forall z, z ∈ l2 -> exists b, key_lt (xml_key z) (xml_key y) = Ok b) ->
  exists r, insert_by_key key x l1 = Ok r /\ Forall2 Rel r (insert_xml y l2).
Proof.
  intros Hxy Hl. induction Hl as [|x' y' l1 l2 Hx' Hl IH]; intros Hcmp; simpl.
  - eexists. split; [reflexivity|]. repeat constructor. exact Hxy.
  - destruct (Hcmp y') as [b Hb]; [left|].
    rewrite (key_agrees _ _ Hx'), (key_agrees _ _ Hxy). unfold key_ltb. rewrite Hb. simpl.
    destruct b.
    + destruct IH as (r & Hr & HF); [intros z Hz; apply Hcmp; now right|].
      rewrite Hr. simpl. eexists. split; [reflexivity|]. now constructor.
    + eexists. split; [reflexivity|]. constructor; [exact Hxy|]. now constructor.
Qed.

Lemma sorted_related l1 l2 :
  Forall2 Rel l1 l2 -> comparable l2 ->
  exists r, sorted_by_key key l1 = Ok r /\ Forall2 Rel r (sort_xml l2).
Proof.
  intros Hl. induction Hl as [|x y l1 l2 Hxy Hl IH]; intros Hcmp; simpl.
  - eexists. split; [reflexivity|]. constructor.
  - destruct IH as (r & Hr & HF).
    { intros a b Ha Hb. apply Hcmp; now right. }
    rewrite Hr. simpl. apply insert_related; [exact Hxy | exact HF |].
    intros z Hz. apply elem_of_sort_xml in Hz. apply Hcmp; [now right | left].
Qed.

End Related.

Lemma loaded_forest_represents s b cs :
  loaded_forest s b cs ->
  represents_all b (b + list_sum (map xml_size cs)) s (child_ids b cs) cs.
Proof.
  revert b. induction cs as [|c cs IH]; intros b; simpl; [trivial|].
  intros Hl. apply loaded_forest_cons in Hl as [Hl1 Hl2]. split.
  - eapply represents_in_weaken; [| |apply loaded_represents; exact Hl1]; lia.
  - apply represents_all_Forall2.
    eapply Forall2_impl; [apply represents_all_Forall2, IH, Hl2|].
    intros i t. apply represents_in_weaken; lia.
Qed.

Lemma represents_all_frame lo hi s s' ids cs :
  (forall j, lo <= j < hi -> s' !! j = s !! j) ->
  represents_all lo hi s ids cs -> represents_all lo hi s' ids cs.
Proof.
  intros Hagree H. apply represents_all_Forall2.
  eapply Forall2_impl; [apply represents_all_Forall2, H|].
  intros i t. now apply represents_in_frame.
Qed.

Lemma represents_all_weaken lo hi lo' hi' s ids cs :
  lo' <= lo -> hi <= hi' ->
  represents_all lo hi s ids cs -> represents_all lo' hi' s ids cs.
Proof.
  intros Hlo Hhi H. apply represents_all_Forall2.
  eapply Forall2_impl; [apply represents_all_Forall2, H|].
  intros i t. now apply represents_in_weaken.
Qed.

Lemma set_children_lookup_ne i cs s j : j <> i -> set_children i cs s !! j = s !! j.
Proof.
  intros Hne. unfold set_children. destruct (s !! i); [|reflexivity].
  now apply list_lookup_insert_ne.
Qed.

Lemma set_children_length i cs s : length (set_children i cs s) = length s.
Proof.
  unfold set_children. destruct (s !! i); [|reflexivity]. apply length_insert.
Qed.

Lemma set_children_lookup i cs s e :
  s !! i = Some e ->
  set_children i cs s !! i
  = Some {| tag := tag e; attrib := attrib e; text := text e; tail := tail e;
            children := cs |}.
Proof.
  intros He. unfold set_children. rewrite He.
  apply list_lookup_insert_eq. now apply lookup_lt_Some in He.
Qed.

Lemma sort_children_loaded s b c :
  loaded s b c -> comparable (xml_children c) ->
  exists s',
    sort_children b s = Ok s'
    /\ length s' = length s
    /\ (forall j, j <> b -> s' !! j = s !! j)
    /\ represents_in b (b + xml_size c) s' b (sort_children_of c).
Proof.
  destruct c as [tg a tx tl gs]. rewrite loaded_unfold, xml_size_unfold.
  cbn [xml_children]. intros [He Hf] Hcmp.
  apply loaded_forest_represents in Hf.
  apply represents_all_Forall2 in Hf.
  destruct (sorted_related (represents_in (S b) (S b + list_sum (map xml_size gs)) s)
              (fun child => sort_key (tag_of s child) (attrib_of s child))
              (fun x y H => represents_key _ _ _ _ _ H) _ _ Hf Hcmp)
    as (r & Hr & HF).
  assert (Hsort : sort_children b s = Ok (set_children b r s)).
  { unfold sort_children, children_of. rewrite He. cbn [children]. now rewrite Hr. }
  exists (set_children b r s). split; [exact Hsort|].
  split; [apply set_children_length|].
  split; [intros j Hj; now apply set_children_lookup_ne|].
  cbn [sort_children_of]. rewrite represents_in_unfold. split; [lia|].
  exists r. split; [now rewrite (set_children_lookup _ _ _ _ He)|].
  apply represents_all_Forall2 in HF.
  eapply represents_all_weaken; [| |eapply represents_all_frame; [|exact HF]].
  - lia.
  - lia.
  - intros j Hj. apply set_children_lookup_ne. lia.
Qed.

Lemma length_le_sizes cs : length cs <= list_sum (map xml_size cs).
Proof.
  induction cs as [|[tg a tx tl gs] cs IH]; simpl; lia.
Qed.

Lemma for_children_forest fuel R s pre b cs :
  children_of s R = pre ++ child_ids b cs -> R < b -> loaded_forest s b cs ->
  Forall (fun c => comparable (xml_children c)) cs -> length cs < fuel ->
  exists s',
    for_children fuel sort_children R (length pre) s = Ok s'
    /\ length s' = length s
    /\ (forall j, j < b \/ b + list_sum (map xml_size cs) <= j -> s' !! j = s !! j)
    /\ represents_all b (b + list_sum (map xml_size cs)) s' (child_ids b cs)
         (map sort_children_of cs).
Proof.
  revert fuel s pre b. induction cs as [|c cs IH]; intros fuel s pre b HR Hlt Hl Hcmp Hfuel.
  - destruct fuel as [|fuel]; [simpl in Hfuel; lia|]. simpl.
    rewrite HR. simpl. rewrite app_nil_r, lookup_ge_None_2 by lia.
    eexists. repeat split; auto.
  - destruct fuel as [|fuel]; [simpl in Hfuel; lia|]. cbn [for_children].
    rewrite HR. cbn [child_ids].
    rewrite lookup_app_r by lia. replace (length pre - length pre) with 0 by lia.
    cbn [lookup list_lookup].
    apply loaded_forest_cons in Hl as [Hl1 Hl2].
    apply Forall_cons in Hcmp as [Hc Hcmp].
    pose proof (xml_size_pos c) as Hpos.
    destruct (sort_children_loaded s b c Hl1 Hc) as (s1 & Hs1 & Hlen1 & Hne1 & Hrep1).
    rewrite Hs1. simpl.
    destruct (IH fuel s1 (pre ++ [b]) (b + xml_size c)) as (s' & Hs' & Hlen' & Hne' & Hrep').
    { unfold children_of in *. rewrite Hne1 by lia. rewrite HR.
      cbn [child_ids]. now rewrite <- app_assoc. }
    { lia. }
    { eapply loaded_forest_frame; [|exact Hl2]. intros j Hj. apply Hne1. lia. }
    { exact Hcmp. }
    { simpl in Hfuel. lia. }
    rewrite length_app in Hs'. simpl in Hs'.
    replace (length pre + 1) with (S (length pre)) in Hs' by lia.
    exists s'. split; [exact Hs'|]. split; [lia|]. split.
    + intros j Hj. simpl in Hj. rewrite Hne' by lia. apply Hne1. lia.
    + simpl. split.
      * eapply represents_in_weaken; [| |eapply represents_in_frame; [|exact Hrep1]].
        -- lia.
        -- lia.
        -- intros j Hj. apply Hne'. lia.
      * eapply represents_all_weaken; [| |exact Hrep']; lia.
Qed.

Lemma str_lt_asym a b : str_lt a b = true -> str_lt b a = false.
Proof.
  unfold str_lt. rewrite (String.compare_antisym b a).
  destruct (String.compare a b); simpl; congruence.
Qed.

Lemma key_ltb_asym k1 k2 : key_ltb k1 k2 = true -> key_ltb k2 k1 = false.
Proof.
  unfold key_ltb, key_lt. rewrite (String.eqb_sym k2.1 k1.1).
  destruct (String.eqb k1.1 k2.1).
  - destruct k1.2, k2.2; try discriminate; try reflexivity. apply str_lt_asym.
  - apply str_lt_asym.
Qed.

Lemma insert_xml_sorted x l : key_sorted l -> key_sorted (insert_xml x l).
Proof.
  unfold key_sorted. induction 1 as [|y l Hl IH Hhd]; simpl.
  - repeat constructor.
  - destruct (key_ltb (xml_key y) (xml_key x)) eqn:Hlt.
    + constructor; [exact IH|].
      destruct Hhd as [|z l Hz]; simpl.
      * constructor. now apply key_ltb_asym.
      * destruct (key_ltb (xml_key z) (xml_key x)); constructor;
          [exact Hz | now apply key_ltb_asym].
    + constructor; [now constructor|]. constructor. exact Hlt.
Qed.

Lemma sort_xml_sorted l : key_sorted (sort_xml l).
Proof.
  induction l as [|x l IH]; simpl; [constructor | now apply insert_xml_sorted].
Qed.

Lemma insert_xml_perm x l : insert_xml x l ≡ₚ x :: l.
Proof.
  induction l as [|y l IH]; simpl; [reflexivity|].
  destruct (key_ltb _ _); [|reflexivity].
  rewrite IH. apply Permutation_swap.
Qed.

Lemma sort_xml_perm l : sort_xml l ≡ₚ l.
Proof.
  induction l as [|x l IH]; simpl; [reflexivity|].
  now rewrite insert_xml_perm, IH.
Qed.

Lemma list_sum_perm (l1 l2 : list nat) : l1 ≡ₚ l2 -> list_sum l1 = list_sum l2.
Proof. induction 1; simpl; lia. Qed.

Lemma xml_size_sort_children_of c : xml_size (sort_children_of c) = xml_size c.
Proof.
  destruct c as [tg a tx tl gs]. cbn [sort_children_of]. rewrite !xml_size_unfold.
  f_equal. apply list_sum_perm. now rewrite sort_xml_perm.
Qed.

Lemma xml_size_canonical t : xml_size (canonical t) = xml_size t.
Proof.
  destruct t as [tg a tx tl cs]. cbn [canonical]. rewrite !xml_size_unfold.
  f_equal. induction cs as [|c cs IH]; simpl; [reflexivity|].
  now rewrite xml_size_sort_children_of, IH.
Qed.

Lemma load_0_loaded t : loaded (load 0 t) 0 t.
Proof. intros k e Hk. exact Hk. Qed.

Lemma canonical_sorted t :
  Forall2
    (fun c c' =>
       xml_tag c' = xml_tag c /\ xml_attrib c' = xml_attrib c
       /\ xml_children c' ≡ₚ xml_children c /\ key_sorted (xml_children c'))
    (xml_children t) (xml_children (canonical t)).
Proof.
  destruct t as [tg a tx tl cs]. cbn [canonical xml_children].
  induction cs as [|[tg' a' tx' tl' gs] cs IH]; simpl; constructor; [|exact IH].
  simpl. repeat split; [apply sort_xml_perm | apply sort_xml_sorted].
Qed.

Lemma sort_xml_attributes_tree (f : xml_file) :
  Forall (fun c => comparable (xml_children c)) (xml_children (body f)) ->
  exists t',
    _sort_xml_attributes (Xml f) = write_and_return (Xml f) (Ok t')
    /\ ET_document t' = Some (canonical (body f)).
Proof.
  intros Hcmp.
  unfold _sort_xml_attributes. cbn [ET_parse objects root decls].
  destruct f as [d ns t]. cbn [body ns_decls] in *.
  pose proof (load_0_loaded t) as Hl.
  destruct t as [tg a tx tl cs]. cbn [xml_children] in Hcmp.
  apply loaded_unfold in Hl as [He Hf].
  destruct (for_children_forest (fuel_of (load 0 (Element tg a tx tl cs))) 0
              (load 0 (Element tg a tx tl cs)) [] 1 cs) as (s' & Hs' & Hlen & Hne & Hrep).
  { unfold children_of. now rewrite He. }
  { lia. }
  { exact Hf. }
  { exact Hcmp. }
  { unfold fuel_of. rewrite length_load, xml_size_unfold.
    pose proof (length_le_sizes cs). lia. }
  cbn [length] in Hs'. rewrite Hs'. cbn [mbind result_bind].
  eexists. split; [reflexivity|].
  unfold ET_document, with_objects. cbn [objects root decls].
  assert (Hroot : represents_in 0 (xml_size (Element tg a tx tl cs)) s' 0
                    (canonical (Element tg a tx tl cs))).
  { cbn [canonical]. rewrite represents_in_unfold, xml_size_unfold. split; [lia|].
    exists (child_ids 1 cs). split; [rewrite Hne by lia; exact He|].
    eapply represents_all_weaken; [| |exact Hrep]; lia. }
  apply (represents_dump _ _ _ _ _ _ Hroot).
  rewrite xml_size_canonical, Hlen, length_load. lia.
Qed.

Lemma write_and_return_document c t x :
  ET_document t = Some x ->
  write_and_return c (Ok t)
  = (Ret true, written {| declaration := true; ns_decls := decls t; body := x |}).
Proof.
  intros Hx. unfold write_and_return, ET_write. cbn [mbind result_bind].
  now rewrite Hx.
Qed.

Lemma tree_written c res x :
  (exists t', res = write_and_return c (Ok t') /\ ET_document t' = Some x) ->
  exists t' c',
    res = write_and_return c (Ok t') /\ ET_document t' = Some x /\ res = (Ret true, c').
Proof.
  intros (t' & Hrun & Hdoc). exists t'. eexists. split; [exact Hrun|].
  split; [exact Hdoc|]. rewrite Hrun. apply (write_and_return_document _ _ _ Hdoc).
Qed.

(** C5 (amended). On every document in which the children of each child
    of the root have keys that can be ordered, the canonicalizer returns
    [True] after it has called [tree.write(full_path,
    xml_declaration=True)] on the tree of the same document in which the
    children of every direct child of the root are sorted by
    [(tag, desc)]: each such child keeps its tag and attributes, its
    children are a permutation of what they were and no child is followed
    by one of a smaller key.  The children of the root itself and the
    elements further down are not reordered. *)
Theorem sort_xml_attributes_sorts_one_level (f : xml_file) :
  Forall (fun c => comparable (xml_children c)) (xml_children (body f)) ->
  (exists t' c',
     _sort_xml_attributes (Xml f) = write_and_return (Xml f) (Ok t')
     /\ ET_document t' = Some (canonical (body f))
     /\ _sort_xml_attributes (Xml f) = (Ret true, c'))
  /\ xml_tag (canonical (body f)) = xml_tag (body f)
  /\ Forall2
       (fun c c' =>
          xml_tag c' = xml_tag c /\ xml_attrib c' = xml_attrib c
          /\ xml_children c' ≡ₚ xml_children c /\ key_sorted (xml_children c'))
       (xml_children (body f)) (xml_children (canonical (body f))).
Proof.
  intros Hcmp. split; [|split; [now destruct (body f) | apply canonical_sorted]].
  destruct (sort_xml_attributes_tree f Hcmp) as (t' & Hrun & Hdoc).
  exists t'. eexists. split; [exact Hrun|]. split; [exact Hdoc|].
  rewrite Hrun. apply (write_and_return_document _ _ _ Hdoc).
Qed.

Lemma sort_xml_attributes_sorts_one_level_witness :
  exists t' c',
    _sort_xml_attributes (Xml OfficeExamples.unsorted)
    = write_and_return (Xml OfficeExamples.unsorted) (Ok t')
    /\ ET_document t' = Some (canonical (body OfficeExamples.unsorted))
    /\ _sort_xml_attributes (Xml OfficeExamples.unsorted) = (Ret true, c').
Proof.
  apply (sort_xml_attributes_sorts_one_level OfficeExamples.unsorted).
  repeat constructor; intros x y Hx Hy;
    repeat (apply elem_of_cons in Hx as [->|Hx]); try (now apply elem_of_nil in Hx);
    repeat (apply elem_of_cons in Hy as [->|Hy]); try (now apply elem_of_nil in Hy);
    vm_compute; eauto.
Defined.

(** C5 (as stated, refuted). On
    [<root><b/><a><z desc="d"/><x><q/><p/></x><x/></a></root>] the
    children of [a] are sorted, but the children [b], [a] of the root stay
    in that order and so do the children [q], [p] of [x], two levels
    down. *)
Lemma sort_xml_attributes_leaves_other_levels :
  exists out,
    _sort_xml_attributes (Xml OfficeExamples.unsorted)
    = (Ret true, Xml {| declaration := true; ns_decls := []; body := out |})
    /\ map xml_tag (xml_children out) = ["b"; "a"]
    /\ ~ key_sorted (xml_children out)
    /\ exists a x,
         xml_children out !! 1 = Some a /\ map xml_tag (xml_children a) = ["x"; "x"; "z"]
         /\ xml_children a !! 0 = Some x /\ map xml_tag (xml_children x) = ["q"; "p"]
         /\ ~ key_sorted (xml_children x).
Proof.
  eexists. split; [vm_compute; reflexivity|].
  split; [reflexivity|]. split.
  - intros H. inversion H as [|? ? _ Hhd]; subst.
    inversion Hhd as [|? ? Hlt]; subst. vm_compute in Hlt. discriminate.
  - eexists _, _. repeat split.
    intros H. inversion H as [|? ? _ Hhd]; subst.
    inversion Hhd as [|? ? Hlt]; subst. vm_compute in Hlt. discriminate.
Qed.

End Objects.

(** ** Traversals and the removal of revision session ids *)

Section Traversal.

Import Office OfficeSpec.

#[local] Open Scope nat_scope.
#[local] Open Scope list_scope.

Lemma iter_list_pop fuel s p k stack :
  children_of s p !! k = None ->
  iter_list fuel s (IterStack ((p, k) :: stack)) = iter_list fuel s (IterStack stack).
Proof.
  intros Hk. destruct fuel as [|fuel]; [reflexivity|].
  cbn [iter_list iter_next advance]. now rewrite Hk.
Qed.

Lemma iter_list_subtree t :
  forall s b stack fuel tl,
    loaded s b t ->
    iter_list fuel s (IterStack stack) = Ok tl ->
    iter_list (fuel + (xml_size t - 1)) s (IterStack ((b, 0) :: stack))
    = Ok (seq (S b) (xml_size t - 1) ++ tl).
Proof.
  induction t as [tg a tx tl' cs IH] using xml_ind'.
  intros s b stack fuel tl Hl Htl.
  apply loaded_unfold in Hl as [He Hf]. rewrite xml_size_unfold.
  replace (S (list_sum (map xml_size cs)) - 1) with (list_sum (map xml_size cs)) by lia.
  assert (Hch : children_of s b = [] ++ child_ids (S b) cs)
    by (unfold children_of; now rewrite He).
  change 0 with (length (@nil nat)).
  revert Hch Hf Htl. generalize (@nil nat) as pre. generalize (S b) as b'.
  clear He. revert stack fuel tl.
  induction IH as [|c cs Hc _ IHcs]; intros stack fuel tl b' pre Hch Hf Htl.
  - simpl. rewrite Nat.add_0_r. rewrite iter_list_pop; [exact Htl|].
    rewrite Hch. simpl. rewrite app_nil_r. apply lookup_ge_None_2. lia.
  - apply loaded_forest_cons in Hf as [Hf1 Hf2].
    pose proof (xml_size_pos c) as Hpos.
    cbn [map].
    change (list_sum (xml_size c :: map xml_size cs))
      with (xml_size c + list_sum (map xml_size cs)).
    replace (fuel + (xml_size c + list_sum (map xml_size cs)))
      with (S (fuel + list_sum (map xml_size cs) + (xml_size c - 1))) by lia.
    cbn [iter_list iter_next advance].
    rewrite Hch. cbn [child_ids].
    rewrite lookup_app_r by lia. replace (length pre - length pre) with 0 by lia.
    cbn [lookup list_lookup].
    rewrite (Hc s b' ((b, S (length pre)) :: stack) (fuel + list_sum (map xml_size cs))
               (seq (b' + xml_size c) (list_sum (map xml_size cs)) ++ tl) Hf1).
    + assert (Hseq : seq b' (xml_size c + list_sum (map xml_size cs))
                     = b' :: (seq (S b') (xml_size c - 1)
                              ++ seq (b' + xml_size c) (list_sum (map xml_size cs)))).
      { replace (xml_size c + list_sum (map xml_size cs))
          with (S (xml_size c - 1) + list_sum (map xml_size cs)) by lia.
        rewrite seq_app. cbn [seq app]. do 3 f_equal. lia. }
      rewrite Hseq. cbn [mbind result_bind app]. now rewrite <- app_assoc.
    + replace (S (length pre)) with (length (pre ++ [b'])) by (rewrite length_app; simpl; lia).
      apply IHcs; [|exact Hf2|exact Htl].
      rewrite Hch. cbn [child_ids]. now rewrite <- app_assoc.
Qed.

Lemma iter_list_loaded t :
  iter_list (fuel_of (load 0 t)) (load 0 t) (IterStart 0) = Ok (seq 0 (xml_size t)).
Proof.
  unfold fuel_of. rewrite length_load.
  pose proof (xml_size_pos t) as Hpos.
  cbn [iter_list iter_next].
  replace (xml_size t) with (1 + (xml_size t - 1)) at 1 by lia.
  rewrite (iter_list_subtree t (load 0 t) 0 [] 1 [] (load_0_loaded t) eq_refl).
  simpl. rewrite app_nil_r.
  replace (xml_size t) with (S (xml_size t - 1)) at 2 by lia. reflexivity.
Qed.

Lemma advance_shape s s0 stack :
  same_shape s s0 -> advance s stack = advance s0 stack.
Proof.
  intros Hs. induction stack as [|[n i] stack IH]; simpl; [reflexivity|].
  now rewrite Hs, IH.
Qed.

Lemma iter_next_shape s s0 st :
  same_shape s s0 -> iter_next s st = iter_next s0 st.
Proof.
  intros Hs. destruct st as [e|stack]; simpl; [reflexivity|].
  now rewrite (advance_shape s s0).
Qed.

Lemma for_iter_for_each {A : Type} (body : nat -> list element * A -> result (list element * A))
    (s0 : list element) fuel st s a xs :
  (forall x s a s' a', same_shape s s0 -> body x (s, a) = Ok (s', a') -> same_shape s' s0) ->
  same_shape s s0 ->
  iter_list fuel s0 st = Ok xs ->
  for_iter fuel body st (s, a) = for_each body xs (s, a).
Proof.
  intros Hbody. revert st s a xs.
  induction fuel as [|fuel IH]; intros st s a xs Hs; simpl; [discriminate|].
  rewrite (iter_next_shape s s0 st Hs).
  destruct (iter_next s0 st) as [[x st']|]; [|now intros [= <-]].
  destruct (iter_list fuel s0 st') as [xs'|e] eqn:Hxs'; simpl; [|discriminate].
  intros [= <-]. simpl.
  destruct (body x (s, a)) as [[s' a']|e] eqn:Hb; simpl; [|reflexivity].
  apply IH; [|exact Hxs']. eapply Hbody; eassumption.
Qed.

Lemma set_attrib_children i a s j : children_of (set_attrib i a s) j = children_of s j.
Proof.
  unfold children_of, set_attrib. destruct (s !! i) as [e|] eqn:He; [|reflexivity].
  destruct (decide (j = i)) as [->|Hne].
  - rewrite list_lookup_insert_eq by (now apply lookup_lt_Some in He). now rewrite He.
  - now rewrite list_lookup_insert_ne.
Qed.

Lemma collect_rsid_shape s0 x s a s' a' :
  same_shape s s0 -> MSOfficeParser.collect_rsid 0 x (s, a) = Ok (s', a') ->
  same_shape s' s0.
Proof.
  intros Hs. unfold MSOfficeParser.collect_rsid.
  destruct (decide (x = 0)); [now intros [= <- <-]|].
  destruct (MSOfficeParser.rsid_tag _); intros [= <- <-]; [exact Hs|].
  intros j. rewrite set_attrib_children. apply Hs.
Qed.

Lemma collect_rsid_step i s acc :
  exists s',
    MSOfficeParser.collect_rsid 0 i (s, acc)
    = Ok (s', acc ++ (if decide (collected s i) then [i] else []))
    /\ length s' = length s
    /\ s' !! i = pass1_entry i <$> s !! i
    /\ forall j, j <> i -> s' !! j = s !! j.
Proof.
  unfold MSOfficeParser.collect_rsid, collected, pass1_entry.
  destruct (decide (i = 0)) as [->|Hi0].
  - exists s. rewrite decide_False by tauto. rewrite app_nil_r.
    repeat split. now destruct (s !! 0).
  - destruct (MSOfficeParser.rsid_tag (tag_of s i)) eqn:Htag.
    + exists s. rewrite decide_True by tauto. repeat split.
      unfold tag_of in Htag. destruct (s !! i); [|reflexivity]. simpl. now rewrite Htag.
    + eexists. rewrite decide_False by (intros [_ ?]; discriminate).
      rewrite app_nil_r. split; [reflexivity|].
      unfold set_attrib, tag_of, attrib_of in *.
      destruct (s !! i) as [e|] eqn:He.
      * split; [apply length_insert|]. split.
        -- rewrite list_lookup_insert_eq by (now apply lookup_lt_Some in He).
           simpl. now rewrite Htag.
        -- intros j Hj. now rewrite list_lookup_insert_ne.
      * repeat split. now rewrite He.
Qed.

Lemma tag_of_eq s s' i : s' !! i = s !! i -> tag_of s' i = tag_of s i.
Proof. unfold tag_of. now intros ->. Qed.

Lemma collect_rsid_run s0 ids s acc :
  NoDup ids ->
  (forall j, j ∈ ids -> s !! j = s0 !! j) ->
  exists s1,
    for_each (MSOfficeParser.collect_rsid 0) ids (s, acc)
    = Ok (s1, acc ++ filter (collected s0) ids)
    /\ length s1 = length s
    /\ forall j, s1 !! j = if decide (j ∈ ids) then pass1_entry j <$> s0 !! j else s !! j.
Proof.
  revert s acc. induction ids as [|i ids IH]; intros s acc Hnd Horig.
  - exists s. rewrite filter_nil, app_nil_r. split; [reflexivity|]. split; [reflexivity|].
    intros j. now rewrite decide_False by apply not_elem_of_nil.
  - apply NoDup_cons in Hnd as [Hi Hnd]. cbn [for_each].
    destruct (collect_rsid_step i s acc) as (s' & Hs' & Hlen' & Hi' & Hne').
    rewrite Hs'. cbn [mbind result_bind].
    destruct (IH s' (acc ++ (if decide (collected s i) then [i] else [])) Hnd)
      as (s1 & Hs1 & Hlen1 & Hlook1).
    { intros j Hj. rewrite Hne' by (intros ->; contradiction).
      apply Horig. now right. }
    exists s1. split; [|split; [lia|]].
    + rewrite Hs1. do 2 f_equal. rewrite <- app_assoc. f_equal.
      rewrite filter_cons.
      assert (Hc : collected s i <-> collected s0 i).
      { unfold collected. rewrite (tag_of_eq s0 s i); [tauto|].
        apply Horig. left. }
      destruct (decide (collected s i)), (decide (collected s0 i)); tauto.
    + intros j. rewrite Hlook1.
      destruct (decide (j = i)) as [->|Hji].
      * rewrite decide_False by exact Hi. rewrite decide_True by left.
        rewrite Hi'. f_equal. apply Horig. left.
      * destruct (decide (j ∈ ids)) as [Hj|Hj].
        -- rewrite decide_True by now right. reflexivity.
        -- rewrite decide_False by (intros H; apply elem_of_cons in H as [?|?]; tauto).
           now apply Hne'.
Qed.

Lemma child_ids_range b cs x :
  x ∈ child_ids b cs -> b <= x < b + list_sum (map xml_size cs).
Proof.
  revert b. induction cs as [|c cs IH]; intros b; simpl.
  - intros H. now apply elem_of_nil in H.
  - pose proof (xml_size_pos c) as Hpos. intros H. apply elem_of_cons in H as [->|H]; [lia|].
    apply IH in H. lia.
Qed.

Lemma child_ids_NoDup b cs : NoDup (child_ids b cs).
Proof.
  revert b. induction cs as [|c cs IH]; intros b; simpl; constructor; [|apply IH].
  intros H. apply child_ids_range in H. pose proof (xml_size_pos c) as Hpos. lia.
Qed.

Lemma refs_loaded t :
  forall s b, loaded s b t ->
    NoDup (flat_map (children_of s) (seq b (xml_size t)))
    /\ forall x, x ∈ flat_map (children_of s) (seq b (xml_size t)) ->
         b < x < b + xml_size t.
Proof.
  induction t as [tg a tx tl cs IH] using xml_ind'. intros s b Hl.
  apply loaded_unfold in Hl as [He Hf]. rewrite xml_size_unfold.
  cbn [seq flat_map].
  assert (Hch : children_of s b = child_ids (S b) cs)
    by (unfold children_of; now rewrite He).
  rewrite Hch.
  assert (Hforest : NoDup (flat_map (children_of s) (seq (S b) (list_sum (map xml_size cs))))
            /\ forall x, x ∈ flat_map (children_of s) (seq (S b) (list_sum (map xml_size cs))) ->
                 S b <= x < S b + list_sum (map xml_size cs) /\ x ∉ child_ids (S b) cs).
  { clear He Hch. revert Hf. generalize (S b) as b'.
    induction IH as [|c cs Hc _ IHcs]; intros b' Hf.
    - simpl. split; [constructor|]. intros x Hx. now apply elem_of_nil in Hx.
    - apply loaded_forest_cons in Hf as [Hf1 Hf2].
      destruct (Hc s b' Hf1) as [Hnd1 Hr1].
      destruct (IHcs (b' + xml_size c) Hf2) as [Hnd2 Hr2].
      pose proof (xml_size_pos c) as Hpos.
      cbn [map]. change (list_sum (xml_size c :: map xml_size cs))
        with (xml_size c + list_sum (map xml_size cs)).
      rewrite seq_app, flat_map_app. split.
      + apply NoDup_app. split; [exact Hnd1|]. split; [|exact Hnd2].
        intros x Hx1 Hx2. apply Hr1 in Hx1. apply Hr2 in Hx2. lia.
      + intros x Hx. apply elem_of_app in Hx as [Hx|Hx].
        * apply Hr1 in Hx. split; [lia|]. cbn [child_ids].
          intros H. apply elem_of_cons in H as [->|H]; [lia|].
          apply child_ids_range in H. lia.
        * apply Hr2 in Hx as [Hx Hni]. split; [lia|]. cbn [child_ids].
          intros H. apply elem_of_cons in H as [->|H]; [lia|]. contradiction. }
  destruct Hforest as [Hnd Hr]. split.
  - apply NoDup_app. split; [apply child_ids_NoDup|]. split; [|exact Hnd].
    intros x Hx1 Hx2. apply Hr in Hx2 as [_ Hx2]. contradiction.
  - intros x Hx. apply elem_of_app in Hx as [Hx|Hx].
    + apply child_ids_range in Hx. lia.
    + apply Hr in Hx as [Hx _]. lia.
Qed.

Lemma fold_insert_lookup (p : nat) (cs : list nat) (m : gmap nat nat) (c : nat) :
  fold_left (fun m c => <[c := p]> m) cs m !! c
  = if decide (c ∈ cs) then Some p else m !! c.
Proof.
  revert m. induction cs as [|c' cs IH]; intros m; cbn [fold_left].
  - now rewrite decide_False by apply not_elem_of_nil.
  - rewrite IH. destruct (decide (c ∈ cs)) as [Hc|Hc].
    + rewrite decide_True by now right. reflexivity.
    + destruct (decide (c = c')) as [->|Hne].
      * rewrite decide_True by left. apply lookup_insert_eq.
      * rewrite decide_False by (intros H; apply elem_of_cons in H as [?|?]; tauto).
        now apply lookup_insert_ne.
Qed.

Lemma parent_fold_notin s ps (m : gmap nat nat) c :
  c ∉ flat_map (children_of s) ps ->
  fold_left (fun m p => fold_left (fun m c => <[c := p]> m) (children_of s p) m) ps m !! c
  = m !! c.
Proof.
  revert m. induction ps as [|p ps IH]; intros m Hc; simpl; [reflexivity|].
  simpl in Hc. rewrite elem_of_app in Hc.
  rewrite IH by tauto. rewrite fold_insert_lookup. now rewrite decide_False by tauto.
Qed.

Lemma parent_fold_lookup s ps (m : gmap nat nat) p c :
  NoDup (flat_map (children_of s) ps) -> p ∈ ps -> c ∈ children_of s p ->
  fold_left (fun m p => fold_left (fun m c => <[c := p]> m) (children_of s p) m) ps m !! c
  = Some p.
Proof.
  revert m. induction ps as [|p0 ps IH]; intros m Hnd Hp Hc; simpl.
  - now apply elem_of_nil in Hp.
  - simpl in Hnd. apply NoDup_app in Hnd as (Hnd0 & Hdis & Hnd').
    destruct (decide (c ∈ flat_map (children_of s) ps)) as [Hin|Hnotin].
    + apply IH; [exact Hnd'| |exact Hc].
      apply elem_of_cons in Hp as [->|Hp]; [|exact Hp].
      exfalso. eapply Hdis; eassumption.
    + rewrite parent_fold_notin by exact Hnotin. rewrite fold_insert_lookup.
      apply elem_of_cons in Hp as [->|Hp].
      * now rewrite decide_True.
      * exfalso. apply Hnotin. apply list_elem_of_In, in_flat_map.
        exists p. split; now apply list_elem_of_In.
Qed.

Lemma filter_id {X : Type} (P : X -> Prop) `{forall x, Decision (P x)} (l : list X) :
  (forall x, x ∈ l -> P x) -> filter P l = l.
Proof.
  induction l as [|x l IH]; intros Hall; [reflexivity|].
  rewrite filter_cons_True by (apply Hall; left).
  f_equal. apply IH. intros y Hy. apply Hall. now right.
Qed.

Lemma list_remove_NoDup x l :
  NoDup l -> x ∈ l -> list_remove x l = Some (filter (fun y => y ∉ [x]) l).
Proof.
  induction l as [|y l IH]; intros Hnd Hx; [now apply elem_of_nil in Hx|].
  apply NoDup_cons in Hnd as [Hy Hnd]. cbn [list_remove].
  destruct (decide (y = x)) as [->|Hne].
  - rewrite filter_cons_False by (intros H; apply H; left).
    rewrite filter_id; [reflexivity|].
    intros z Hz Hzx. apply list_elem_of_singleton in Hzx. subst z. contradiction.
  - apply elem_of_cons in Hx as [->|Hx]; [contradiction|].
    rewrite IH by assumption. cbn [fmap option_fmap option_map].
    rewrite filter_cons_True; [reflexivity|].
    intros H. apply list_elem_of_singleton in H. contradiction.
Qed.

Lemma children_of_fmap (f : element -> element) (s s' : list element) :
  (forall j, s' !! j = f <$> s !! j) ->
  forall q, children_of s' q = match s !! q with Some e => children (f e) | None => [] end.
Proof.
  intros H q. unfold children_of. rewrite H. now destruct (s !! q).
Qed.

Lemma pass2_run (pm : gmap nat nat) gone s :
  NoDup gone -> unique_parent s ->
  (forall c, c ∈ gone -> exists p, pm !! c = Some p /\ c ∈ children_of s p) ->
  exists s2,
    for_each (MSOfficeParser.remove_from_parent pm) gone s = Ok s2
    /\ length s2 = length s
    /\ forall j, s2 !! j = drop_children gone <$> s !! j.
Proof.
  revert s. induction gone as [|c gone IH]; intros s Hnd [Hu1 Hu2] Hpar.
  - exists s. split; [reflexivity|]. split; [reflexivity|].
    intros j. destruct (s !! j) as [[tg a tx tl cs]|]; [|reflexivity].
    unfold drop_children. simpl. f_equal. f_equal.
    symmetry. apply filter_id. intros x _. apply not_elem_of_nil.
  - apply NoDup_cons in Hnd as [Hc Hnd].
    destruct (Hpar c) as (p & Hp & Hcp); [left|].
    set (s' := set_children p (filter (fun y => y ∉ [c]) (children_of s p)) s).
    assert (Hstep : MSOfficeParser.remove_from_parent pm c s = Ok s').
    { unfold MSOfficeParser.remove_from_parent, parent_of. rewrite Hp.
      cbn [mbind result_bind]. unfold Element_remove.
      now rewrite (list_remove_NoDup c _ (Hu1 p) Hcp). }
    cbn [for_each]. rewrite Hstep. cbn [mbind result_bind].
    assert (Hs' : forall j, s' !! j = drop_children [c] <$> s !! j).
    { intros j. subst s'. destruct (decide (j = p)) as [->|Hne].
      - unfold children_of in *. destruct (s !! p) as [e|] eqn:He;
          [|now apply elem_of_nil in Hcp].
        now rewrite (set_children_lookup _ _ _ _ He).
      - rewrite set_children_lookup_ne by exact Hne.
        destruct (s !! j) as [[tg a tx tl cs]|] eqn:He; [|reflexivity].
        unfold drop_children. simpl. f_equal. f_equal.
        symmetry. apply filter_id. intros x Hx Hxc.
        apply list_elem_of_singleton in Hxc. subst x.
        apply Hne. apply (Hu2 c); [|exact Hcp].
        unfold children_of. now rewrite He. }
    assert (Hch : forall q, children_of s' q = filter (fun y => y ∉ [c]) (children_of s q)).
    { intros q. rewrite (children_of_fmap _ s s' Hs'). unfold children_of.
      now destruct (s !! q). }
    destruct (IH s') as (s2 & Hs2 & Hlen2 & Hlook2).
    + exact Hnd.
    + split.
      * intros q. rewrite Hch. apply NoDup_filter, Hu1.
      * intros x q1 q2. rewrite !Hch. intros H1 H2.
        apply list_elem_of_filter in H1 as [_ H1]. apply list_elem_of_filter in H2 as [_ H2].
        eapply Hu2; eassumption.
    + intros c' Hc'. destruct (Hpar c') as (p' & Hp' & Hcp'); [now right|].
      exists p'. split; [exact Hp'|]. rewrite Hch. apply list_elem_of_filter.
      split; [|exact Hcp']. intros H. apply list_elem_of_singleton in H. subst c'.
      contradiction.
    + exists s2. split; [exact Hs2|]. split; [subst s'; rewrite set_children_length in Hlen2; exact Hlen2|].
      intros j. rewrite Hlook2, Hs'. destruct (s !! j) as [e|]; [|reflexivity].
      simpl. unfold drop_children. simpl. f_equal. f_equal.
      rewrite list_filter_filter. apply list_filter_iff. intros x.
      rewrite !elem_of_cons. pose proof (not_elem_of_nil x). tauto.
Qed.

Lemma strip_rsid_unfold tg a tx tl cs :
  strip_rsid (Element tg a tx tl cs)
  = Element tg (filter (fun kv => negb (MSOfficeParser.rsid_key kv.1)) a) tx tl
      (strip_rsid_forest cs).
Proof. reflexivity. Qed.

Lemma loaded_tag s b t : loaded s b t -> tag_of s b = xml_tag t.
Proof.
  destruct t as [tg a tx tl cs]. rewrite loaded_unfold. intros [He _].
  unfold tag_of. now rewrite He.
Qed.

Section Strip.

Variables (s0 sF : list element) (gone : list nat).

Lemma strip_represents t :
  forall b,
    loaded s0 b t -> 0 < b ->
    (forall j e, b <= j < b + xml_size t -> s0 !! j = Some e ->
       sF !! j = Some (drop_children gone (pass1_entry j e))) ->
    (forall c, b <= c < b + xml_size t ->
       (c ∈ gone <-> MSOfficeParser.rsid_tag (tag_of s0 c) = true)) ->
    MSOfficeParser.rsid_tag (xml_tag t) = false ->
    represents_in b (b + xml_size t) sF b (strip_rsid t).
Proof.
  induction t as [tg a tx tl cs IH] using xml_ind'.
  intros b Hl Hb HF Hgone Htag.
  pose proof Hl as Hl'. apply loaded_unfold in Hl' as [He Hf].
  rewrite strip_rsid_unfold, represents_in_unfold. rewrite xml_size_unfold in *.
  split; [lia|].
  exists (filter (fun c => c ∉ gone) (child_ids (S b) cs)). split.
  - rewrite (HF b _ ltac:(lia) He). unfold pass1_entry, drop_children.
    rewrite decide_False by lia. cbn [tag xml_tag] in *. rewrite Htag. reflexivity.
  - assert (Hgen : forall b', b < b' ->
              b' + list_sum (map xml_size cs) <= b + S (list_sum (map xml_size cs)) ->
              loaded_forest s0 b' cs ->
              represents_all b (b + S (list_sum (map xml_size cs))) sF
                (filter (fun c => c ∉ gone) (child_ids b' cs)) (strip_rsid_forest cs)).
    { clear He Hf Hl Htag.
      revert HF Hgone. generalize (b + S (list_sum (map xml_size cs))) as hi.
      intros hi HF Hgone.
      induction IH as [|c cs Hc _ IHcs]; intros b' Hlo Hhi Hlf; [exact I|].
      apply loaded_forest_cons in Hlf as [Hl1 Hl2].
      pose proof (xml_size_pos c) as Hpos.
      cbn [map] in Hhi. change (list_sum (xml_size c :: map xml_size cs))
        with (xml_size c + list_sum (map xml_size cs)) in Hhi.
      cbn [child_ids strip_rsid_forest]. rewrite filter_cons.
      pose proof (Hgone b' ltac:(lia)) as Hb'. rewrite (loaded_tag _ _ _ Hl1) in Hb'.
      destruct (MSOfficeParser.rsid_tag (xml_tag c)) eqn:Hc_tag.
      - rewrite decide_False by tauto. apply IHcs; [lia|lia|exact Hl2].
      - rewrite decide_True by (rewrite Hb'; discriminate).
        cbn [represents_all]. split.
        + assert (Hrep : represents_in b' (b' + xml_size c) sF b' (strip_rsid c)).
          { apply (Hc b' Hl1); [lia| | |reflexivity].
            - intros j e Hj. apply HF. lia.
            - intros x Hx. apply Hgone. lia. }
          eapply represents_in_weaken; [| |exact Hrep]; lia.
        + apply IHcs; [lia|lia|exact Hl2]. }
    apply Hgen; [lia|lia|exact Hf].
Qed.

Lemma strip_forest_represents cs :
  forall b' lo hi,
    loaded_forest s0 b' cs -> 0 < b' -> lo <= b' ->
    b' + list_sum (map xml_size cs) <= hi ->
    (forall j e, b' <= j < hi -> s0 !! j = Some e ->
       sF !! j = Some (drop_children gone (pass1_entry j e))) ->
    (forall c, b' <= c < hi ->
       (c ∈ gone <-> MSOfficeParser.rsid_tag (tag_of s0 c) = true)) ->
    represents_all lo hi sF (filter (fun c => c ∉ gone) (child_ids b' cs))
      (strip_rsid_forest cs).
Proof.
  induction cs as [|c cs IH]; intros b' lo hi Hlf Hb' Hlo Hhi HF Hgone; [exact I|].
  apply loaded_forest_cons in Hlf as [Hl1 Hl2].
  pose proof (xml_size_pos c) as Hpos.
  cbn [map] in Hhi. change (list_sum (xml_size c :: map xml_size cs))
    with (xml_size c + list_sum (map xml_size cs)) in Hhi.
  cbn [child_ids strip_rsid_forest]. rewrite filter_cons.
  pose proof (Hgone b' ltac:(lia)) as Hgb. rewrite (loaded_tag _ _ _ Hl1) in Hgb.
  assert (Hrest : represents_all lo hi sF
                    (filter (fun c => c ∉ gone) (child_ids (b' + xml_size c) cs))
                    (strip_rsid_forest cs)).
  { apply IH; [exact Hl2|lia|lia|lia| |].
    - intros j e Hj. apply HF. lia.
    - intros x Hx. apply Hgone. lia. }
  destruct (MSOfficeParser.rsid_tag (xml_tag c)) eqn:Hc_tag.
  - rewrite decide_False by tauto. exact Hrest.
  - rewrite decide_True by (rewrite Hgb; discriminate).
    cbn [represents_all]. split; [|exact Hrest].
    assert (Hrep : represents_in b' (b' + xml_size c) sF b' (strip_rsid c)).
    { apply (strip_represents c b' Hl1); [lia| | |exact Hc_tag].
      - intros j e Hj. apply HF. lia.
      - intros x Hx. apply Hgone. lia. }
    eapply represents_in_weaken; [| |exact Hrep]; lia.
Qed.

End Strip.

Lemma xml_size_strip_forest cs :
  Forall (fun c => xml_size (strip_rsid c) <= xml_size c) cs ->
  list_sum (map xml_size (strip_rsid_forest cs)) <= list_sum (map xml_size cs).
Proof.
  induction 1 as [|c cs Hc _ IH]; simpl; [lia|].
  destruct (MSOfficeParser.rsid_tag (xml_tag c)); simpl; lia.
Qed.

Lemma xml_size_strip t : xml_size (strip_rsid t) <= xml_size t.
Proof.
  induction t as [tg a tx tl cs IH] using xml_ind'.
  rewrite strip_rsid_unfold, !xml_size_unfold.
  pose proof (xml_size_strip_forest cs IH). lia.
Qed.

Lemma refs_loaded_complete t :
  forall s b x, loaded s b t -> b < x < b + xml_size t ->
    x ∈ flat_map (children_of s) (seq b (xml_size t)).
Proof.
  induction t as [tg a tx tl cs IH] using xml_ind'. intros s b x Hl.
  apply loaded_unfold in Hl as [He Hf]. rewrite xml_size_unfold.
  cbn [seq flat_map].
  assert (Hch : children_of s b = child_ids (S b) cs)
    by (unfold children_of; now rewrite He).
  rewrite Hch. intros Hx. apply elem_of_app.
  assert (Hgen : forall b', loaded_forest s b' cs ->
            b' <= x < b' + list_sum (map xml_size cs) ->
            x ∈ child_ids b' cs
            \/ x ∈ flat_map (children_of s) (seq b' (list_sum (map xml_size cs)))).
  { clear He Hch Hf Hx.
    induction IH as [|c cs Hc _ IHcs]; intros b' Hlf Hx; [simpl in Hx; lia|].
    apply loaded_forest_cons in Hlf as [Hl1 Hl2].
    cbn [map] in *. change (list_sum (xml_size c :: map xml_size cs))
      with (xml_size c + list_sum (map xml_size cs)) in *.
    rewrite seq_app, flat_map_app. cbn [child_ids].
    destruct (decide (x = b')) as [->|Hne]; [left; left|].
    destruct (decide (x < b' + xml_size c)) as [Hlt|Hge].
    - right. apply elem_of_app. left. apply Hc; [exact Hl1|lia].
    - destruct (IHcs (b' + xml_size c) Hl2) as [H|H]; [lia| |].
      + left. now right.
      + right. apply elem_of_app. now right. }
  apply Hgen; [exact Hf|lia].
Qed.

Lemma NoDup_flat_map_elem {X Y : Type} (f : X -> list Y) l x :
  NoDup (flat_map f l) -> x ∈ l -> NoDup (f x).
Proof.
  induction l as [|y l IH]; intros Hnd Hx; [now apply elem_of_nil in Hx|].
  simpl in Hnd. apply NoDup_app in Hnd as (H1 & _ & H2).
  apply elem_of_cons in Hx as [->|Hx]; auto.
Qed.

Lemma NoDup_flat_map_unique {X Y : Type} (f : X -> list Y) l x y a :
  NoDup (flat_map f l) -> x ∈ l -> y ∈ l -> a ∈ f x -> a ∈ f y -> x = y.
Proof.
  induction l as [|z l IH]; intros Hnd Hx Hy Hax Hay; [now apply elem_of_nil in Hx|].
  simpl in Hnd. apply NoDup_app in Hnd as (H1 & Hdis & H2).
  assert (Hin : forall w, w ∈ l -> a ∈ f w -> a ∈ flat_map f l).
  { intros w Hw Haw. apply list_elem_of_In, in_flat_map. exists w.
    split; now apply list_elem_of_In. }
  apply elem_of_cons in Hx as [->|Hx]; apply elem_of_cons in Hy as [->|Hy]; auto.
  - exfalso. eapply Hdis; eauto.
  - exfalso. eapply Hdis; eauto.
Qed.

Lemma children_of_lt s p c : c ∈ children_of s p -> p < length s.
Proof.
  unfold children_of. destruct (s !! p) eqn:He.
  - intros _. now apply lookup_lt_Some in He.
  - intros H. now apply elem_of_nil in H.
Qed.

Lemma unique_parent_loaded t : unique_parent (load 0 t).
Proof.
  destruct (refs_loaded t (load 0 t) 0 (load_0_loaded t)) as [Hnd _].
  split.
  - intros p. destruct (decide (p < xml_size t)) as [Hp|Hp].
    + eapply NoDup_flat_map_elem; [exact Hnd|]. apply elem_of_seq. lia.
    + unfold children_of. rewrite lookup_ge_None_2 by (rewrite length_load; lia).
      constructor.
  - intros c p q Hp Hq.
    pose proof (children_of_lt _ _ _ Hp) as Hp'. pose proof (children_of_lt _ _ _ Hq) as Hq'.
    rewrite length_load in *.
    eapply NoDup_flat_map_unique; [exact Hnd| | |exact Hp|exact Hq];
      apply elem_of_seq; lia.
Qed.

Lemma unique_parent_shape s s0 : same_shape s s0 -> unique_parent s0 -> unique_parent s.
Proof.
  intros Hs [H1 H2]. split.
  - intros p. rewrite Hs. apply H1.
  - intros c p q. rewrite !Hs. apply H2.
Qed.

End Traversal.

(** ** [__remove_rsid] on documents *)

Section Rsid.

Import Office OfficeSpec.

#[local] Open Scope nat_scope.
#[local] Open Scope list_scope.

Lemma strip_rsid_clean t :
  MSOfficeParser.rsid_tag (xml_tag t) = false ->
  forall e, e ∈ elements (strip_rsid t) ->
    MSOfficeParser.rsid_tag (xml_tag e) = false
    /\ forall kv, kv ∈ xml_attrib e -> MSOfficeParser.rsid_key kv.1 = false.
Proof.
  induction t as [tg a tx tl cs IH] using xml_ind'. intros Htag e.
  rewrite strip_rsid_unfold. cbn [elements]. intros He.
  apply elem_of_cons in He as [->|He].
  - cbn [xml_tag xml_attrib]. split; [exact Htag|].
    intros kv Hkv. apply list_elem_of_filter in Hkv as [Hkv _].
    now destruct (MSOfficeParser.rsid_key kv.1).
  - clear Htag. induction IH as [|c cs Hc _ IHcs]; [now apply elem_of_nil in He|].
    cbn [strip_rsid_forest] in He.
    destruct (MSOfficeParser.rsid_tag (xml_tag c)) eqn:Hct; [now apply IHcs|].
    cbn [flat_map] in He. apply elem_of_app in He as [He|He]; [now apply Hc|now apply IHcs].
Qed.

Lemma strip_rsid_below_root_clean t : no_rsid_below_root (strip_rsid_below_root t).
Proof.
  destruct t as [tg a tx tl cs]. unfold no_rsid_below_root, descendants.
  cbn [strip_rsid_below_root xml_children]. intros e He.
  induction cs as [|c cs IH]; [now apply elem_of_nil in He|].
  cbn [strip_rsid_forest] in He.
  destruct (MSOfficeParser.rsid_tag (xml_tag c)) eqn:Hct; [now apply IH|].
  cbn [flat_map] in He. apply elem_of_app in He as [He|He]; [|now apply IH].
  eapply strip_rsid_clean; eassumption.
Qed.

Lemma xml_size_strip_below_root t : xml_size (strip_rsid_below_root t) <= xml_size t.
Proof.
  destruct t as [tg a tx tl cs]. cbn [strip_rsid_below_root]. rewrite !xml_size_unfold.
  assert (H : list_sum (map xml_size (strip_rsid_forest cs)) <= list_sum (map xml_size cs)).
  { apply xml_size_strip_forest. apply Forall_forall. intros c _. apply xml_size_strip. }
  lia.
Qed.

Lemma remove_rsid_objects t :
  let s0 := load 0 t in
  exists pm s1 sF,
    parent_map s0 0 = Ok pm
    /\ for_iter (fuel_of s0) (MSOfficeParser.collect_rsid 0) (IterStart 0) (s0, [])
       = Ok (s1, filter (collected s0) (seq 0 (xml_size t)))
    /\ for_each (MSOfficeParser.remove_from_parent pm)
         (filter (collected s0) (seq 0 (xml_size t))) s1 = Ok sF
    /\ length sF = xml_size t
    /\ represents_in 0 (xml_size t) sF 0 (strip_rsid_below_root t).
Proof.
  intros s0.
  pose proof (iter_list_loaded t) as Hiter. fold s0 in Hiter.
  pose proof (load_0_loaded t) as Hl. fold s0 in Hl.
  set (n := xml_size t) in *.
  set (gone := filter (collected s0) (seq 0 n)).
  (* the dictionary of parents *)
  eexists. 
  assert (Hpm : parent_map s0 0 = Ok
      (fold_left (fun m p => fold_left (fun m c => <[c := p]> m) (children_of s0 p) m)
         (seq 0 n) ∅)).
  { unfold parent_map. now rewrite Hiter. }
  (* first loop *)
  destruct (collect_rsid_run s0 (seq 0 n) s0 [] (NoDup_seq 0 n) (fun j _ => eq_refl))
    as (s1 & Hrun1 & Hlen1 & Hlook1).
  assert (Hpass1 : for_iter (fuel_of s0) (MSOfficeParser.collect_rsid 0) (IterStart 0) (s0, [])
                   = Ok (s1, gone)).
  { rewrite (for_iter_for_each _ s0 _ _ _ _ (seq 0 n)); [exact Hrun1| | |exact Hiter].
    - intros x s a s' a'. apply collect_rsid_shape.
    - intros i. reflexivity. }
  assert (Hs1 : forall j, s1 !! j = pass1_entry j <$> s0 !! j).
  { intros j. rewrite Hlook1. case_decide as Hj; [reflexivity|].
    rewrite lookup_ge_None_2; [reflexivity|].
    unfold s0. rewrite length_load. fold n.
    destruct (decide (n <= j)); [assumption|]. exfalso. apply Hj, elem_of_seq. lia. }
  assert (Hshape : same_shape s1 s0).
  { intros i. unfold children_of. rewrite Hs1. destruct (s0 !! i) as [e|]; [|reflexivity].
    unfold pass1_entry. simpl. destruct (decide (i = 0)); [reflexivity|].
    now destruct (MSOfficeParser.rsid_tag (tag e)). }
  (* second loop *)
  destruct (refs_loaded t s0 0 Hl) as [Hnd Hrange]. fold n in Hnd, Hrange.
  destruct (pass2_run
              (fold_left (fun m p => fold_left (fun m c => <[c := p]> m) (children_of s0 p) m)
                 (seq 0 n) ∅) gone s1) as (sF & HsF & HlenF & HlookF).
  { apply NoDup_filter, NoDup_seq. }
  { eapply unique_parent_shape; [exact Hshape|]. apply unique_parent_loaded. }
  { intros c Hc. apply list_elem_of_filter in Hc as [[Hc0 _] Hc].
    apply elem_of_seq in Hc.
    pose proof (refs_loaded_complete t s0 0 c Hl ltac:(fold n; lia)) as Hin. fold n in Hin.
    apply list_elem_of_In, in_flat_map in Hin as (p & Hp & Hcp).
    apply list_elem_of_In in Hp, Hcp.
    exists p. split; [|now rewrite Hshape].
    now apply parent_fold_lookup. }
  exists s1, sF. split; [exact Hpm|]. split; [exact Hpass1|]. split; [exact HsF|].
  split; [rewrite HlenF, Hlen1; unfold s0; apply length_load|].
  (* the document held by the objects *)
  destruct t as [tg a tx tl cs].
  pose proof Hl as Hl'. apply loaded_unfold in Hl' as [He Hf].
  cbn [strip_rsid_below_root]. rewrite represents_in_unfold.
  subst n. rewrite xml_size_unfold in *. split; [lia|].
  exists (filter (fun c => c ∉ gone) (child_ids 1 cs)). split.
  - rewrite HlookF, Hs1, He. reflexivity.
  - apply (strip_forest_represents s0 sF gone cs 1 0 (S (list_sum (map xml_size cs))));
      [exact Hf|lia|lia|lia| |].
    + intros j e Hj Hje. now rewrite HlookF, Hs1, Hje.
    + intros c Hc. unfold gone. rewrite list_elem_of_filter, elem_of_seq.
      try rewrite xml_size_unfold. unfold collected. split; [tauto|]. intros H. split; [split; [lia|exact H]|lia].
Qed.

(** C4 (as stated, refuted). A member that binds the main namespace to
    another prefix than [w] is reported clean and left as it is, rsid
    names included; and where the prefix [w] is declared, the root keeps
    its [w:rsidR] attribute and [<w:tblRsid>], whose local name contains
    but does not start with [rsid], stays. *)
Lemma remove_rsid_leaves_rsid_names :
  (MSOfficeParser.__remove_rsid
     (Xml (OfficeExamples.word_document "x" OfficeExamples.rsid_body))
   = (Ret true, Xml (OfficeExamples.word_document "x" OfficeExamples.rsid_body))
   /\ rsid_free (body (OfficeExamples.word_document "x" OfficeExamples.rsid_body)) = false)
  /\ exists out,
       MSOfficeParser.__remove_rsid
         (Xml (OfficeExamples.word_document "w" OfficeExamples.rsid_body))
       = (Ret true, Xml out)
       /\ map fst (xml_attrib (body out))
          = [OfficeExamples.qname OfficeExamples.w_uri "rsidR"]
       /\ map xml_tag (descendants (body out))
          = [OfficeExamples.qname OfficeExamples.w_uri "p";
             OfficeExamples.qname OfficeExamples.w_uri "tblRsid"]
       /\ rsid_free (body out) = false.
Proof.
  split; [split; vm_compute; reflexivity|].
  eexists. split; [vm_compute; reflexivity|]. repeat split.
Qed.

Lemma remove_rsid_tree (f : xml_file) :
  "w" ∈ dom (namespace_map (ns_decls f)) ->
  exists t',
    MSOfficeParser.__remove_rsid (Xml f) = write_and_return (Xml f) (Ok t')
    /\ ET_document t' = Some (strip_rsid_below_root (body f)).
Proof.
  intros Hw.
  unfold MSOfficeParser.__remove_rsid, _parse_xml.
  cbn [ET_parse mbind option_bind objects root decls].
  rewrite bool_decide_eq_false_2 by tauto.
  destruct (remove_rsid_objects (body f)) as (pm & s1 & sF & Hpm & H1 & H2 & Hlen & Hrep).
  cbv zeta in Hpm, H1, H2.
  rewrite Hpm. cbn [mbind result_bind]. rewrite H1. cbn [mbind result_bind fst snd].
  rewrite H2. cbn [mbind result_bind].
  eexists. split; [reflexivity|].
  unfold ET_document, with_objects. cbn [objects root decls].
  apply (represents_dump _ _ _ _ _ _ Hrep).
  pose proof (xml_size_strip_below_root (body f)). lia.
Qed.

Lemma remove_rsid_unguarded (f : xml_file) :
  "w" ∉ dom (namespace_map (ns_decls f)) ->
  MSOfficeParser.__remove_rsid (Xml f) = (Ret true, Xml f).
Proof.
  intros Hw. unfold MSOfficeParser.__remove_rsid, _parse_xml.
  cbn [ET_parse mbind option_bind objects root decls].
  now rewrite bool_decide_eq_true_2.
Qed.

(** C4 (amended). For every member whose prefixes [ET.register_namespace]
    accepts and that declares the prefix [w], the rsid-removal step
    reports success after it has called [tree.write] on the tree of the
    document in which, below the root, the elements whose tag contains
    ["}rsid"] (a local name that starts with rsid, in any case) are gone
    with all they hold and the other elements have lost the attributes
    whose name contains ["}rsid"]: below the root no such tag and no such
    attribute name is left.  The root keeps its tag and attributes.  A
    member that does not declare the prefix [w] is reported clean and
    left as it is. *)
Theorem remove_rsid_below_root (f : xml_file) :
  ascii_prefixes (ns_decls f) = true ->
  ("w" ∈ dom (namespace_map (ns_decls f)) ->
   (exists t' c',
      MSOfficeParser.__remove_rsid (Xml f) = write_and_return (Xml f) (Ok t')
      /\ ET_document t' = Some (strip_rsid_below_root (body f))
      /\ MSOfficeParser.__remove_rsid (Xml f) = (Ret true, c'))
   /\ no_rsid_below_root (strip_rsid_below_root (body f)))
  /\ ("w" ∉ dom (namespace_map (ns_decls f)) ->
      MSOfficeParser.__remove_rsid (Xml f) = (Ret true, Xml f)).
Proof.
  intros _. split.
  - intros Hw. split; [|apply strip_rsid_below_root_clean].
    destruct (remove_rsid_tree f Hw) as (t' & Hrun & Hdoc).
    exists t'. eexists. split; [exact Hrun|]. split; [exact Hdoc|].
    rewrite Hrun. apply (write_and_return_document _ _ _ Hdoc).
  - apply remove_rsid_unguarded.
Qed.

Lemma remove_rsid_below_root_witness :
  exists t' c',
    MSOfficeParser.__remove_rsid
      (Xml (OfficeExamples.word_document "w" OfficeExamples.rsid_body))
    = write_and_return
        (Xml (OfficeExamples.word_document "w" OfficeExamples.rsid_body)) (Ok t')
    /\ ET_document t'
       = Some (strip_rsid_below_root
                 (body (OfficeExamples.word_document "w" OfficeExamples.rsid_body)))
    /\ MSOfficeParser.__remove_rsid
         (Xml (OfficeExamples.word_document "w" OfficeExamples.rsid_body))
       = (Ret true, c').
Proof.
  destruct (remove_rsid_below_root
              (OfficeExamples.word_document "w" OfficeExamples.rsid_body) eq_refl)
    as [H _].
  apply H. apply (bool_decide_unpack _). vm_compute. exact I.
Defined.

End Rsid.

(** ** The office XML sanitizers *)

Section Outcomes.

Import Office.

Lemma write_and_return_inv c r o c' :
  write_and_return c r = (o, c') ->
  (o = Ret true /\ exists f, c' = written f) \/ (exists e, o = Exc e /\ c' = c).
Proof.
  unfold write_and_return.
  destruct r as [t|e]; simpl.
  - unfold ET_write. destruct (ET_document t); simpl; intros [= <- <-]; eauto.
  - intros [= <- <-]; eauto.
Qed.

Lemma write_and_return_not_false c r c' : write_and_return c r <> (Ret false, c').
Proof.
  intros H. apply write_and_return_inv in H as [[H _]|(e & H & _)]; discriminate.
Qed.

Lemma parse_xml_Xml f : exists t m, _parse_xml (Xml f) = Some (t, m).
Proof. unfold _parse_xml. simpl. eauto. Qed.

Lemma remove_rsid_false c c' :
  MSOfficeParser.__remove_rsid c = (Ret false, c') ->
  c' = c /\ ET_parse c = None.
Proof.
  unfold MSOfficeParser.__remove_rsid, _parse_xml.
  destruct (ET_parse c) as [t|] eqn:Hp; simpl.
  - case_bool_decide; [discriminate|].
    intros Hw. now apply write_and_return_not_false in Hw.
  - intros [= <-]. auto.
Qed.

Lemma remove_revisions_false c c' :
  MSOfficeParser.__remove_revisions c = (Ret false, c') ->
  c' = c /\ ET_parse c = None.
Proof.
  unfold MSOfficeParser.__remove_revisions, _parse_xml.
  destruct (ET_parse c) as [t|] eqn:Hp; simpl.
  - destruct (_ ≫= _) as [[[[w_del w_ins] dels] inss]|e]; [|discriminate].
    destruct dels, inss; try discriminate;
      intros H; now apply write_and_return_not_false in H.
  - intros [= <-]. auto.
Qed.

Lemma remove_content_type_members_false removed c c' :
  MSOfficeParser.__remove_content_type_members removed c = (Ret false, c') -> c' = c.
Proof.
  unfold MSOfficeParser.__remove_content_type_members.
  destruct (_parse_xml c) as [[t m]|]; [|now intros [= <-]].
  destruct (negb _); [now intros [= <-]|].
  intros H. now apply write_and_return_not_false in H.
Qed.

Lemma key_lt_raise k1 k2 e : key_lt k1 k2 = Raise e -> e = TypeError_compare.
Proof.
  unfold key_lt. destruct (String.eqb _ _); [|discriminate].
  destruct k1.2, k2.2; try discriminate; now intros [= <-].
Qed.

Lemma insert_by_key_raise {X : Type} (key : X -> string * option string) x l e :
  insert_by_key key x l = Raise e -> e = TypeError_compare.
Proof.
  induction l as [|y l IH]; simpl; [discriminate|].
  destruct (key_lt (key y) (key x)) as [[]|e'] eqn:Hk; simpl.
  - destruct (insert_by_key key x l); simpl; [discriminate|].
    intros [= <-]. now apply IH.
  - discriminate.
  - intros [= <-]. eapply key_lt_raise; eassumption.
Qed.

Lemma sorted_by_key_raise {X : Type} (key : X -> string * option string) l e :
  sorted_by_key key l = Raise e -> e = TypeError_compare.
Proof.
  induction l as [|x l IH]; simpl; [discriminate|].
  destruct (sorted_by_key key l) as [r|e']; simpl.
  - apply insert_by_key_raise.
  - intros [= <-]. now apply IH.
Qed.

Lemma for_children_raise fuel elem i s e :
  for_children fuel sort_children elem i s = Raise e ->
  e = TypeError_compare \/ e = Diverges.
Proof.
  revert i s. induction fuel as [|fuel IH]; intros i s; simpl.
  - intros [= <-]. auto.
  - destruct (children_of s elem !! i) as [c|]; [|discriminate].
    destruct (sort_children c s) as [s'|e'] eqn:Hs; simpl.
    + apply IH.
    + intros [= <-]. left. unfold sort_children in Hs.
      destruct (sorted_by_key _ (children_of s c)) as [cs|e''] eqn:Hk; [discriminate|].
      injection Hs as <-. eapply sorted_by_key_raise; eassumption.
Qed.

Lemma sort_xml_attributes_ParseError c c' :
  _sort_xml_attributes c = (Exc ParseError, c') -> ET_parse c = None /\ c' = c.
Proof.
  unfold _sort_xml_attributes.
  destruct (ET_parse c) as [t|]; [|now intros [= <-]].
  unfold write_and_return.
  destruct (for_children _ _ _ _ _) as [s|e] eqn:Hf; simpl.
  - unfold ET_write. destruct (ET_document _); simpl; discriminate.
  - intros [= -> <-]. apply for_children_raise in Hf as [?|?]; discriminate.
Qed.

Lemma remove_rsid_true c c' :
  MSOfficeParser.__remove_rsid c = (Ret true, c') ->
  ET_parse c <> None /\ (c' = c \/ exists f, c' = written f).
Proof.
  unfold MSOfficeParser.__remove_rsid, _parse_xml.
  destruct (ET_parse c) as [t|]; cbn [mbind option_bind]; [|discriminate].
  split; [discriminate|]. revert H. case_bool_decide; [intros [= <-]; auto|].
  intros Hw. apply write_and_return_inv in Hw as [[_ Hw]|(e & He & _)];
    [auto|discriminate].
Qed.

Lemma remove_revisions_true c c' :
  MSOfficeParser.__remove_revisions c = (Ret true, c') ->
  ET_parse c <> None /\ (c' = c \/ exists f, c' = written f).
Proof.
  unfold MSOfficeParser.__remove_revisions, _parse_xml.
  destruct (ET_parse c) as [t|]; cbn [mbind option_bind]; [|discriminate].
  split; [discriminate|]. revert H.
  destruct (_ ≫= _) as [[[[w_del w_ins] dels] inss]|e]; [|discriminate].
  destruct dels, inss; try (intros [= <-]; auto);
    intros Hw; apply write_and_return_inv in Hw as [[_ Hw]|(e & He & _)];
    auto; discriminate.
Qed.

Lemma remove_content_type_members_true removed c c' :
  MSOfficeParser.__remove_content_type_members removed c = (Ret true, c') ->
  exists f, c' = written f.
Proof.
  unfold MSOfficeParser.__remove_content_type_members.
  destruct (_parse_xml c) as [[t m]|]; [|discriminate].
  destruct (negb _); [discriminate|].
  intros Hw. apply write_and_return_inv in Hw as [[_ Hw]|(e & He & _)];
    [exact Hw|discriminate].
Qed.

End Outcomes.

Section SpecificCleanup.

Import Office.

(** C6. The claim does not hold of the code.  The member
    [<w:data xmlns:w="..."><w:café/></w:data>] is well-formed and declares
    the prefix [w]: [__remove_rsid] parses it, finds nothing to remove and
    writes it back with [tree.write(full_path, xml_declaration=True)],
    that is in [us-ascii], the name [café] becoming [caf&#233;]; the file
    no longer parses, [_sort_xml_attributes] raises [ParseError] on it and
    the hook returns [False], leaving on disk the file that
    [__remove_rsid] wrote and not the one that was read. *)
Theorem specific_cleanup_false_after_rewrite
    (removed_fnames : gset string) (sub_ignorable : content -> content) :
  MSOfficeParser.__remove_rsid (Xml OfficeExamples.accented)
    = (Ret true, IllFormed OfficeExamples.accented)
  /\ _sort_xml_attributes (IllFormed OfficeExamples.accented)
     = (Exc ParseError, IllFormed OfficeExamples.accented)
  /\ MSOfficeParser._specific_cleanup removed_fnames sub_ignorable
       "/tmp/customXml/item1.xml" (Xml OfficeExamples.accented)
     = (Ret false, IllFormed OfficeExamples.accented)
  /\ IllFormed OfficeExamples.accented <> Xml OfficeExamples.accented.
Proof.
  assert (Hrsid : MSOfficeParser.__remove_rsid (Xml OfficeExamples.accented)
                  = (Ret true, IllFormed OfficeExamples.accented))
    by (vm_compute; reflexivity).
  assert (Hsort : _sort_xml_attributes (IllFormed OfficeExamples.accented)
                  = (Exc ParseError, IllFormed OfficeExamples.accented))
    by reflexivity.
  split; [exact Hrsid|]. split; [exact Hsort|]. split; [|discriminate].
  unfold MSOfficeParser._specific_cleanup.
  change (is_empty_file (Xml OfficeExamples.accented)) with false.
  replace (Py.endswith "/tmp/customXml/item1.xml" ".xml") with true
    by (vm_compute; reflexivity).
  replace (Py.endswith "/tmp/customXml/item1.xml" "/[Content_Types].xml") with false
    by (vm_compute; reflexivity).
  replace (Py.endswith "/tmp/customXml/item1.xml" "/word/document.xml") with false
    by (vm_compute; reflexivity).
  replace (Py.endswith "/tmp/customXml/item1.xml" "/docProps/app.xml") with false
    by (vm_compute; reflexivity).
  replace (Py.endswith "/tmp/customXml/item1.xml" "/docProps/core.xml") with false
    by (vm_compute; reflexivity).
  cbn [negb]. rewrite Hrsid, Hsort. reflexivity.
Qed.


(** C10. The canonicalizer is not total on well-formed documents: on
    [<root><a><x desc="d"/><x/></a></root>] the two children of [a] have
    the same tag and only one has a [desc]; comparing their keys compares
    [None] with a string and raises [TypeError].  The file is left as it
    was, and neither per-member hook catches the exception. *)
Theorem sort_xml_attributes_raises_TypeError :
  exists f : xml_file,
    _sort_xml_attributes (Xml f) = (Exc TypeError_compare, Xml f)
    /\ MSOfficeParser._specific_cleanup ∅ (fun c => c) "/tmp/word/styles.xml" (Xml f)
       = (Exc TypeError_compare, Xml f)
    /\ LibreOfficeParser._specific_cleanup "/tmp/styles.xml" (Xml f)
       = (Exc TypeError_compare, Xml f).
Proof. exists OfficeExamples.mixed_desc. vm_compute. auto. Qed.

(** C7. [__remove_revisions] of the ODF cleaner looks for
    [<text:tracked-changes>] at any depth below [<office:text>] but
    removes what it finds from the child list of [<office:text>] itself:
    a block one level further down makes [text.remove] raise
    [ValueError], which the per-member hook does not catch, and the file
    is not rewritten.  A block that is a direct child is removed; of two
    adjacent ones the second is skipped, the list being changed while it
    is iterated. *)
Theorem odf_remove_revisions_nested_block_raises :
  let nested :=
    OfficeExamples.odf_content
      [OfficeExamples.elem (OfficeExamples.qname OfficeExamples.text_uri "p") []
         [OfficeExamples.tracked_changes]] in
  LibreOfficeParser.__remove_revisions (Xml nested)
    = (Exc ValueError_not_in_list, Xml nested)
  /\ LibreOfficeParser._specific_cleanup "/tmp/content.xml" (Xml nested)
     = (Exc ValueError_not_in_list, Xml nested)
  /\ LibreOfficeParser.__remove_revisions
       (Xml (OfficeExamples.odf_content [OfficeExamples.tracked_changes]))
     = (Ret true, Xml (OfficeExamples.odf_content []))
  /\ LibreOfficeParser.__remove_revisions
       (Xml (OfficeExamples.odf_content
               [OfficeExamples.tracked_changes; OfficeExamples.tracked_changes]))
     = (Ret true, Xml (OfficeExamples.odf_content [OfficeExamples.tracked_changes])).
Proof. vm_compute. auto. Qed.

(** X23. When the hook of [MSOfficeParser] returns [False], the member
    is either what it was before the hook ran, or a file that one of the
    steps of the hook left with [tree.write] and that does not parse. *)
Theorem specific_cleanup_false_cases
    (removed_fnames : gset string) (sub_ignorable : content -> content)
    (full_path : string) (c c' : content) :
  MSOfficeParser._specific_cleanup removed_fnames sub_ignorable full_path c
    = (Ret false, c') ->
  c' = c \/ (exists f, c' = written f /\ ET_parse c' = None).
Proof.
  unfold MSOfficeParser._specific_cleanup.
  destruct (is_empty_file c); [discriminate|].
  destruct (negb _); [discriminate|].
  set (first_step := if Py.endswith full_path "/[Content_Types].xml" then _ else _).
  assert (Hfirst : forall r c1, first_step = (r, c1) ->
            match r with
            | Ret false => c1 = c
            | Ret true => c1 = c \/ (exists f, c1 = written f) \/ ET_parse c1 <> None
            | Exc _ => True
            end).
  { subst first_step. intros r c1.
    destruct (Py.endswith full_path "/[Content_Types].xml").
    { destruct r as [[]|e]; intros H; auto.
      - right. left. eapply remove_content_type_members_true; eassumption.
      - eapply remove_content_type_members_false; eassumption. }
    destruct (Py.endswith full_path "/word/document.xml").
    { destruct r as [[]|e]; intros H; auto.
      - apply remove_revisions_true in H as [_ [->|H]]; auto.
      - now apply remove_revisions_false in H. }
    unfold MSOfficeParser.blank_app, MSOfficeParser.blank_core.
    repeat destruct (Py.endswith _ _); intros [= <- <-]; auto;
      right; right; discriminate. }
  destruct first_step as [r c1]. specialize (Hfirst r c1 eq_refl).
  destruct r as [[]|e]; [|intros [= <-]; auto|discriminate].
  destruct (MSOfficeParser.__remove_rsid c1) as [[[]|e] c2] eqn:Hrsid; [| |discriminate].
  - destruct (_sort_xml_attributes c2) as [[b|e] c3] eqn:Hsort; [discriminate|].
    destruct e; try discriminate.
    apply sort_xml_attributes_ParseError in Hsort as [Hnone ->]. intros [= <-].
    apply remove_rsid_true in Hrsid as [Hp [-> | [f ->]]]; [contradiction|].
    right. eauto.
  - intros [= <-]. apply remove_rsid_false in Hrsid as [-> Hnone].
    destruct Hfirst as [-> | [[f ->] | Hp]]; [auto| |contradiction].
    right. eauto.
Qed.

Lemma specific_cleanup_false_cases_witness :
  IllFormed OfficeExamples.accented = Xml OfficeExamples.accented
  \/ (exists f, IllFormed OfficeExamples.accented = written f
                /\ ET_parse (IllFormed OfficeExamples.accented) = None).
Proof.
  apply (specific_cleanup_false_cases ∅ (fun c => c) "/tmp/customXml/item1.xml"
           (Xml OfficeExamples.accented) (IllFormed OfficeExamples.accented)).
  vm_compute. reflexivity.
Defined.

End SpecificCleanup.

(** ** The HTML sanitizer as a validator and a filter *)

Section Validator.

Import Web WebSpec.
#[local] Open Scope list_scope.

Lemma feed_app_eq evs1 evs2 p :
  feed (evs1 ++ evs2) p = feed evs1 p ≫= feed evs2.
Proof.
  revert p. induction evs1 as [|ev evs1 IH]; intros p; simpl; [reflexivity|].
  destruct (handle ev p) as [p1|e]; simpl; [apply IH | reflexivity].
Qed.

Lemma balanced_app evs1 evs2 :
  balanced evs1 -> balanced evs2 -> balanced (evs1 ++ evs2).
Proof.
  intros H1 H2. induction H1; simpl.
  - exact H2.
  - now constructor.
  - now constructor.
  - rewrite <- app_assoc. simpl. now constructor.
Qed.

Lemma handle_starttag_queue tag attrs text p :
  validation_queue (handle_starttag tag attrs text p) = text :: validation_queue p.
Proof. unfold handle_starttag. now destruct (_ && _). Qed.

Lemma handle_data_queue data p :
  validation_queue (handle_data data p) = validation_queue p.
Proof.
  unfold handle_data.
  repeat match goal with |- context [if ?b then _ else _] => destruct b end; reflexivity.
Qed.

Lemma handle_startendtag_queue tag attrs text p :
  validation_queue (handle_startendtag tag attrs text p) = validation_queue p.
Proof.
  unfold handle_startendtag.
  repeat match goal with |- context [if ?b then _ else _] => destruct b end; reflexivity.
Qed.

Lemma handle_endtag_Ok tag p p' :
  handle_endtag tag p = Ok p' ->
  exists text, validation_queue p = text :: validation_queue p' /\ tag = closing_name text.
Proof.
  unfold handle_endtag.
  destruct (validation_queue p) as [|text q] eqn:Hq; [discriminate|].
  destruct (String.eqb tag _) eqn:Hc; [|discriminate]. simpl.
  apply String.eqb_eq in Hc.
  intros H. exists text. split; [|exact Hc]. f_equal.
  repeat match type of H with context [if ?b then _ else _] => destruct b end;
    injection H as <-; reflexivity.
Qed.

Lemma handle_endtag_accepts text p :
  validation_queue p = text :: tl (validation_queue p) ->
  exists p', handle_endtag (closing_name text) p = Ok p'
             /\ validation_queue p' = tl (validation_queue p).
Proof.
  intros Hq. unfold handle_endtag. rewrite Hq. cbn [tl].
  fold (closing_name text). rewrite String.eqb_refl. simpl.
  repeat match goal with |- context [if ?b then _ else _] => destruct b end;
    eexists; split; reflexivity.
Qed.

Lemma balanced_accepted evs :
  balanced evs ->
  forall p, exists p', feed evs p = Ok p' /\ validation_queue p' = validation_queue p.
Proof.
  induction 1 as [|data evs _ IH|tag attrs text evs _ IH
                  |tag attrs text inner rest _ IHinner _ IHrest]; intros p.
  - exists p. auto.
  - simpl. destruct (IH (handle_data data p)) as (p' & Hp' & Hq).
    exists p'. split; [exact Hp'|]. now rewrite Hq, handle_data_queue.
  - simpl. destruct (IH (handle_startendtag tag attrs text p)) as (p' & Hp' & Hq).
    exists p'. split; [exact Hp'|]. now rewrite Hq, handle_startendtag_queue.
  - cbn [feed handle mbind result_bind]. rewrite feed_app_eq.
    destruct (IHinner (handle_starttag tag attrs text p)) as (p1 & Hp1 & Hq1).
    rewrite Hp1. cbn [mbind result_bind feed handle].
    rewrite handle_starttag_queue in Hq1.
    destruct (handle_endtag_accepts text p1) as (p2 & Hp2 & Hq2); [now rewrite Hq1|].
    rewrite Hp2. cbn [mbind result_bind].
    destruct (IHrest p2) as (p' & Hp' & Hq'). exists p'. split; [exact Hp'|].
    now rewrite Hq', Hq2, Hq1.
Qed.

Lemma open_frames_app_balanced evs q bs :
  open_frames evs q -> balanced bs -> open_frames (evs ++ bs) q.
Proof.
  intros (done & frames & -> & Hdone & Hframes & ->) Hbs.
  destruct frames as [|f frames _] using rev_ind.
  - exists (done ++ bs), []. simpl. rewrite !app_nil_r.
    split; [reflexivity|]. split; [now apply balanced_app|]. split; [constructor|reflexivity].
  - destruct f as [[[tag attrs] text] inner].
    exists done, (frames ++ [((tag, attrs, text), inner ++ bs)]).
    apply Forall_app in Hframes as [Hframes Hf]. apply Forall_inv in Hf.
    rewrite !map_app, !concat_app. simpl. rewrite !app_nil_r.
    split; [now rewrite <- !app_assoc|]. split; [exact Hdone|]. split.
    + apply Forall_app. split; [exact Hframes|]. apply Forall_singleton.
      cbn in Hf |- *. now apply balanced_app.
    + reflexivity.
Qed.

Lemma open_frames_start evs q tag attrs text :
  open_frames evs q -> open_frames (evs ++ [StartTag tag attrs text]) (text :: q).
Proof.
  intros (done & frames & -> & Hdone & Hframes & ->).
  exists done, (frames ++ [((tag, attrs, text), [])]).
  rewrite !map_app, concat_app, rev_app_distr. simpl. rewrite ?app_nil_r.
  split; [now rewrite <- ?app_assoc|]. split; [exact Hdone|]. split; [|reflexivity].
  apply Forall_app. split; [exact Hframes|]. apply Forall_singleton. constructor.
Qed.

Lemma open_frames_end evs q text :
  open_frames evs (text :: q) -> open_frames (evs ++ [EndTag (closing_name text)]) q.
Proof.
  intros (done & frames & -> & Hdone & Hframes & Hq).
  destruct frames as [|f frames _] using rev_ind; [discriminate|].
  rewrite map_app, rev_app_distr in Hq. simpl in Hq. injection Hq as Htext ->.
  destruct f as [[[tag attrs] text'] inner]. cbn in Htext. subst text'.
  apply Forall_app in Hframes as [Hframes Hf]. apply Forall_inv in Hf. cbn in Hf.
  assert (Hel : balanced (StartTag tag attrs text :: inner ++ [EndTag (closing_name text)])).
  { now apply balanced_element; [|constructor]. }
  rewrite map_app, concat_app. simpl. rewrite app_nil_r.
  replace ((done ++ concat (map frame_events frames) ++ StartTag tag attrs text :: inner)
           ++ [EndTag (closing_name text)])
    with ((done ++ concat (map frame_events frames))
          ++ (StartTag tag attrs text :: inner ++ [EndTag (closing_name text)]))
    by (now rewrite <- !app_assoc).
  apply open_frames_app_balanced; [|exact Hel].
  exists done, frames. auto.
Qed.

Lemma feed_open_frames evs p0 p :
  validation_queue p0 = [] -> feed evs p0 = Ok p -> open_frames evs (validation_queue p).
Proof.
  intros Hq0. revert p. induction evs as [|ev evs IH] using rev_ind; intros p.
  - simpl. intros [= <-]. rewrite Hq0. exists [], []. repeat split; constructor.
  - rewrite feed_app_eq. destruct (feed evs p0) as [p1|e]; [|discriminate].
    specialize (IH p1 eq_refl). cbn [mbind result_bind feed].
    destruct (handle ev p1) as [p2|e] eqn:Hh; [|discriminate].
    cbn [mbind result_bind]. intros [= <-].
    destruct ev as [tag attrs text|tag|data|tag attrs text]; simpl in Hh.
    + injection Hh as <-. rewrite handle_starttag_queue. now apply open_frames_start.
    + apply handle_endtag_Ok in Hh as (text & Hq & ->).
      rewrite Hq in IH. now apply open_frames_end.
    + injection Hh as <-. rewrite handle_data_queue.
      apply open_frames_app_balanced; [exact IH|]. repeat constructor.
    + injection Hh as <-. rewrite handle_startendtag_queue.
      apply open_frames_app_balanced; [exact IH|]. repeat constructor.
Qed.

Lemma open_frames_nil evs : open_frames evs [] -> balanced evs.
Proof.
  intros (done & frames & -> & Hdone & _ & Hq).
  destruct frames as [|f frames _] using rev_ind.
  - simpl. now rewrite app_nil_r.
  - rewrite map_app, rev_app_distr in Hq. discriminate.
Qed.

(** X1. On the events that [html.parser] delivers for an ASCII text,
    the sanitizer accepts exactly the well-nested event sequences:
    feeding succeeds and [remove_all] writes its output (returning [True])
    if and only if every start tag is closed, in order, by an end tag
    carrying the lower-cased name read off the start tag's text; any
    other sequence makes [handle_endtag] or [remove_all] raise. *)
Theorem accepted_iff_balanced fname B R evs :
  forallb from_html_parser evs = true ->
  forallb ascii_event evs = true ->
  R ∩ B = ∅ ->
  (balanced evs <->
   exists p out, AbstractHTMLParser_init fname B R evs = Ok p
                 /\ remove_all p = Ok (true, out)).
Proof.
  intros _ _ Hdis. unfold AbstractHTMLParser_init, init.
  rewrite bool_decide_eq_true_2 by exact Hdis. cbn [mbind result_bind].
  set (p0 := {| filename := fname; textrepr := []; meta := ∅; validation_queue := [];
                in_dangerous_but_required_tag := 0; in_dangerous_tag := 0;
                tag_required_blacklist := R; tag_blacklist := B |}).
  split.
  - intros Hb. destruct (balanced_accepted evs Hb p0) as (p & Hp & Hq).
    exists p, (render (textrepr p)). split; [exact Hp|].
    unfold remove_all. now rewrite Hq.
  - intros (p & out & Hp & Hrm). apply open_frames_nil.
    unfold remove_all in Hrm.
    destruct (validation_queue p) eqn:Hq; [|discriminate].
    rewrite <- Hq. now apply (feed_open_frames evs p0).
Qed.

Lemma accepted_iff_balanced_witness :
  balanced Examples.page_events.
Proof.
  assert (Hdis : ({["title"]} : gset string) ∩ {["meta"]} = ∅)
    by (apply (bool_decide_unpack _); vm_compute; exact I).
  apply (accepted_iff_balanced "index.html" {["meta"]} {["title"]}
           Examples.page_events); [reflexivity|reflexivity|exact Hdis|].
  eexists _, _. split; vm_compute; reflexivity.
Defined.

End Validator.

Section Copying.

Import Web WebSpec.
#[local] Open Scope list_scope.





Lemma depth_in_pos tags q t :
  t ∈ q -> tag_of t ∈ tags -> 0 < depth_in tags q.
Proof.
  induction q as [|x q IH]; intros Ht Htag; [now apply elem_of_nil in Ht|].
  simpl. pose proof (depth_in_nonneg tags q).
  apply elem_of_cons in Ht as [->|Ht].
  - rewrite bool_decide_eq_true_2 by exact Htag. lia.
  - specialize (IH Ht Htag). case_bool_decide; lia.
Qed.

Lemma handle_inside_dangerous ev p p' :
  0 < in_dangerous_tag p -> 0 <= in_dangerous_but_required_tag p ->
  handle ev p = Ok p' -> textrepr p' = textrepr p.
Proof.
  intros Hd Hr.
  destruct ev as [tag attrs text|tag|data|tag attrs text]; simpl.
  - intros [= <-]. unfold handle_starttag. simpl.
    destruct (_ && _) eqn:Hemit; [|reflexivity].
    apply andb_true_iff in Hemit as [Hz _]. apply Z.eqb_eq in Hz. simpl in Hz.
    destruct (bool_decide (tag ∈ tag_blacklist p)); lia.
  - unfold handle_endtag. destruct (validation_queue p); [discriminate|].
    destruct (negb _); [discriminate|]. simpl.
    destruct (in_dangerous_tag p =? 0) eqn:Hz; [apply Z.eqb_eq in Hz; lia|]. simpl.
    repeat case_bool_decide; intros [= <-]; reflexivity.
  - intros [= <-]. unfold handle_data.
    destruct (in_dangerous_tag p =? 0) eqn:Hz; [apply Z.eqb_eq in Hz; lia|].
    destruct (in_dangerous_but_required_tag p =? 0); reflexivity.
  - intros [= <-]. unfold handle_startendtag.
    destruct (in_dangerous_tag p =? 0) eqn:Hz; [apply Z.eqb_eq in Hz; lia|].
    case_bool_decide; simpl; [rewrite Hz; reflexivity|].
    destruct (in_dangerous_but_required_tag p =? 0); reflexivity.
Qed.

(** X3. While a start tag of the blacklist is open no event appends
    anything to the output, and while a start tag of the required
    blacklist is open character data is not appended. *)
Theorem nothing_appended_inside_listed_tag fname B R evs p :
  forallb from_html_parser evs = true ->
  AbstractHTMLParser_init fname B R evs = Ok p ->
  ((exists t, t ∈ validation_queue p /\ tag_of t ∈ B) ->
   forall ev p', handle ev p = Ok p' -> textrepr p' = textrepr p)
  /\ ((exists t, t ∈ validation_queue p /\ tag_of t ∈ R) ->
      forall data, textrepr (handle_data data p) = textrepr p).
Proof.
  intros Hevs Hinit. unfold AbstractHTMLParser_init in Hinit.
  apply bind_Ok in Hinit as (p0 & H0 & Hfeed).
  pose proof (feed_invariant _ _ _ Hevs (init_invariant _ _ _ _ H0) Hfeed) as Hinv.
  destruct (feed_config _ _ _ Hfeed) as [HR HB].
  destruct (init_config _ _ _ _ H0) as [HR0 HB0].
  rewrite HR0 in HR. rewrite HB0 in HB.
  pose proof (inv_required _ Hinv) as Hr. pose proof (inv_dangerous _ Hinv) as Hd.
  rewrite HR in Hr. rewrite HB in Hd.
  split.
  - intros (t & Ht & Htag) ev p'. apply handle_inside_dangerous.
    + rewrite Hd. eapply depth_in_pos; eassumption.
    + rewrite Hr. apply depth_in_nonneg.
  - intros (t & Ht & Htag) data. unfold handle_data.
    destruct (in_dangerous_but_required_tag p =? 0) eqn:Hz; [|reflexivity].
    apply Z.eqb_eq in Hz. pose proof (depth_in_pos R _ t Ht Htag). lia.
Qed.

Lemma nothing_appended_inside_listed_tag_witness :
  exists p,
    HTMLParser "index.html" (firstn 10 Examples.page_events) = Ok p
    /\ forall ev p', handle ev p = Ok p' -> textrepr p' = textrepr p.
Proof.
  assert (Hevs : forallb from_html_parser (firstn 10 Examples.page_events) = true)
    by (vm_compute; reflexivity).
  assert (Hinit : exists p, AbstractHTMLParser_init "index.html" {["meta"]} {["title"]}
                    (firstn 10 Examples.page_events) = Ok p
                    /\ "<meta>" ∈ validation_queue p)
    by (eexists; split; [vm_compute; reflexivity|]; simpl; left).
  destruct Hinit as (p & Hinit & Hopen).
  destruct (nothing_appended_inside_listed_tag _ _ _ _ _ Hevs Hinit) as [H _].
  exists p. split; [exact Hinit|]. apply H.
  exists "<meta>". split; [exact Hopen|].
  apply elem_of_singleton. vm_compute. reflexivity.
Defined.

Lemma handle_meta ev p p' :
  handle ev p = Ok p' ->
  meta p' = harvest (tag_blacklist p) (tag_required_blacklist p) [ev] (meta p).
Proof.
  destruct ev as [tag attrs text|tag|data|tag attrs text]; simpl.
  - intros [= <-]. unfold handle_starttag. now destruct (_ && _).
  - unfold handle_endtag. destruct (validation_queue p); [discriminate|].
    destruct (negb _); [discriminate|]. simpl.
    repeat match goal with |- context [if ?b then _ else _] => destruct b end;
      intros [= <-]; reflexivity.
  - intros [= <-]. unfold handle_data.
    repeat match goal with |- context [if ?b then _ else _] => destruct b end; reflexivity.
  - intros [= <-]. unfold handle_startendtag.
    case_bool_decide; simpl;
      repeat match goal with |- context [if ?b then _ else _] => destruct b end; reflexivity.
Qed.

Lemma feed_meta evs :
  forall p p',
    feed evs p = Ok p' ->
    meta p' = harvest (tag_blacklist p) (tag_required_blacklist p) evs (meta p).
Proof.
  induction evs as [|ev evs IH]; intros p p'; simpl.
  - now intros [= <-].
  - destruct (handle ev p) as [p1|e] eqn:Hh; [|discriminate]. cbn [mbind result_bind].
    intros Hfeed. rewrite (IH _ _ Hfeed).
    destruct (handle_config ev p p1 Hh) as [-> ->].
    rewrite (handle_meta ev p p1 Hh). reflexivity.
Qed.

Lemma harvest_none B R evs :
  (forall tag attrs text, StartEndTag tag attrs text ∈ evs -> tag ∉ R ∪ B) ->
  forall m, harvest B R evs m = m.
Proof.
  unfold harvest.
  induction evs as [|ev evs IH]; intros Hnone m; [reflexivity|].
  cbn [fold_left].
  rewrite IH by (intros; eapply Hnone; right; eassumption).
  destruct ev as [| | |tag attrs text]; try reflexivity.
  rewrite bool_decide_eq_false_2; [reflexivity|].
  eapply Hnone. left.
Qed.

(** X4. The metadata collected from a document is that of its self-closing
    tags that are in one of the two sets, whatever is open around them;
    start tags, end tags and character data contribute nothing, so that a
    document without a listed self-closing tag has no metadata. *)
Theorem metadata_from_self_closing_tags_only fname B R evs p :
  AbstractHTMLParser_init fname B R evs = Ok p ->
  meta p = harvest B R evs ∅
  /\ ((forall tag attrs text, StartEndTag tag attrs text ∈ evs -> tag ∉ R ∪ B) ->
      meta p = ∅).
Proof.
  intros Hinit. unfold AbstractHTMLParser_init in Hinit.
  apply bind_Ok in Hinit as (p0 & H0 & Hfeed).
  unfold init in H0. case_bool_decide; [|discriminate]. injection H0 as <-.
  apply feed_meta in Hfeed. simpl in Hfeed. split; [exact Hfeed|].
  intros Hnone. rewrite Hfeed. now apply harvest_none.
Qed.

Lemma metadata_from_self_closing_tags_only_witness :
  exists p,
    HTMLParser "index.html" Examples.page_events = Ok p
    /\ meta p = harvest {["meta"]} {["title"]} Examples.page_events ∅.
Proof.
  eexists. split; [vm_compute; reflexivity|].
  apply (metadata_from_self_closing_tags_only "index.html" {["meta"]} {["title"]}
           Examples.page_events).
  vm_compute; reflexivity.
Defined.

End Copying.

Section Clean.

Import Web WebSpec.
#[local] Open Scope list_scope.

Lemma handle_clean ev p p' :
  from_html_parser ev = true -> invariant p -> handle ev p = Ok p' ->
  Forall (clean_chunk (tag_blacklist p) (tag_required_blacklist p)) (textrepr p) ->
  Forall (clean_chunk (tag_blacklist p) (tag_required_blacklist p)) (textrepr p').
Proof.
  intros Hev Hinv Hh Hclean.
  pose proof (handle_invariant ev p p' Hev Hinv Hh) as Hinv'.
  destruct (handle_config ev p p' Hh) as [HR HB].
  pose proof (inv_dangerous _ Hinv) as Hd.
  pose proof (depth_in_nonneg (tag_blacklist p) (validation_queue p)) as Hd0.
  pose proof (inv_dangerous _ Hinv') as Hd'.
  pose proof (depth_in_nonneg (tag_blacklist p') (validation_queue p')) as Hd0'.
  destruct ev as [tag attrs text|tag|data|tag attrs text]; simpl in Hh, Hev.
  - injection Hh as <-. apply andb_true_iff in Hev as [_ Hev].
    apply String.eqb_eq in Hev. unfold handle_starttag in *. simpl in *.
    destruct (_ && _) eqn:Hemit; [|exact Hclean].
    apply andb_true_iff in Hemit as [Hz _]. apply Z.eqb_eq in Hz.
    simpl. apply Forall_app. split; [exact Hclean|]. repeat constructor. simpl.
    unfold tag_of. rewrite <- Hev. intros Hin.
    rewrite bool_decide_eq_true_2 in Hz by exact Hin. lia.
  - unfold handle_endtag in Hh.
    destruct (validation_queue p) as [|text q]; [discriminate|].
    destruct (String.eqb tag _) eqn:Hc; [|discriminate]. apply String.eqb_eq in Hc.
    simpl in Hh.
    destruct ((in_dangerous_tag p =? 0) && _) eqn:Hemit.
    + apply andb_true_iff in Hemit as [Hz _]. apply Z.eqb_eq in Hz.
      assert (Hnb : tag ∉ tag_blacklist p).
      { intros Hin.
        assert (Hnr : tag ∉ tag_required_blacklist p).
        { pose proof (inv_disjoint _ Hinv) as Hdis. intros Hr.
          apply (not_elem_of_empty (C := gset string) tag).
          rewrite <- Hdis. apply elem_of_intersection. auto. }
        simpl in Hh. rewrite bool_decide_eq_false_2 in Hh by exact Hnr.
        rewrite bool_decide_eq_true_2 in Hh by exact Hin.
        injection Hh as <-. simpl in *. lia. }
      assert (Htext : textrepr p'
                      = textrepr p ++ [OEnd (Py.split_blank_0 (Py.slice_1_m1 text))]).
      { simpl in Hh. repeat case_bool_decide; injection Hh as <-; reflexivity. }
      rewrite Htext. apply Forall_app. split; [exact Hclean|]. repeat constructor.
      simpl. now rewrite <- Hc.
    + assert (Htext : textrepr p' = textrepr p).
      { repeat case_bool_decide; injection Hh as <-; reflexivity. }
      now rewrite Htext.
  - injection Hh as <-. unfold handle_data.
    repeat match goal with |- context [if ?b then _ else _] => destruct b end;
      try exact Hclean.
    simpl. apply Forall_app. split; [exact Hclean|]. now repeat constructor.
  - injection Hh as <-. apply andb_true_iff in Hev as [_ Hev].
    apply String.eqb_eq in Hev. unfold handle_startendtag.
    case_bool_decide as Hlisted; simpl.
    + destruct (negb _); [exact Hclean|].
      case_bool_decide as Hreq; [|exact Hclean].
      simpl. apply Forall_app. split; [exact Hclean|]. now repeat constructor.
    + repeat match goal with |- context [if ?b then _ else _] => destruct b end;
        try exact Hclean.
      simpl. apply Forall_app. split; [exact Hclean|]. repeat constructor.
      simpl. unfold tag_of. now rewrite <- Hev.
Qed.

Lemma feed_clean evs :
  forall p p',
    forallb from_html_parser evs = true -> invariant p -> feed evs p = Ok p' ->
    Forall (clean_chunk (tag_blacklist p) (tag_required_blacklist p)) (textrepr p) ->
    Forall (clean_chunk (tag_blacklist p) (tag_required_blacklist p)) (textrepr p').
Proof.
  induction evs as [|ev evs IH]; intros p p' Hevs Hinv; simpl.
  - now intros [= <-].
  - simpl in Hevs. apply andb_true_iff in Hevs as [Hev Hevs].
    intros Hfeed Hclean. apply bind_Ok in Hfeed as (p1 & H1 & Hfeed).
    destruct (handle_config ev p p1 H1) as [HR HB].
    rewrite <- HR, <- HB. apply IH; [exact Hevs| |exact Hfeed|].
    + eapply handle_invariant; eassumption.
    + rewrite HR, HB. eapply handle_clean; eassumption.
Qed.

(** X19. No tag of the blacklist is ever written: in the output of a
    document as [html.parser] delivers it, no start tag and no end tag
    has its name in the blacklist, a self-closing tag copied as it stood
    is in neither set, and a placeholder stands for a tag of the required
    blacklist only. *)
Theorem blacklisted_tags_never_written fname B R evs p :
  forallb from_html_parser evs = true ->
  AbstractHTMLParser_init fname B R evs = Ok p ->
  Forall (clean_chunk B R) (textrepr p).
Proof.
  intros Hevs Hinit. unfold AbstractHTMLParser_init in Hinit.
  apply bind_Ok in Hinit as (p0 & H0 & Hfeed).
  destruct (init_config _ _ _ _ H0) as [HR HB].
  pose proof (feed_clean evs p0 p Hevs (init_invariant _ _ _ _ H0) Hfeed) as H.
  rewrite HR, HB in H. apply H.
  unfold init in H0. case_bool_decide; [|discriminate]. injection H0 as <-. constructor.
Qed.

Lemma blacklisted_tags_never_written_witness :
  exists p,
    HTMLParser "index.html" Examples.page_events = Ok p
    /\ Forall (clean_chunk {["meta"]} {["title"]}) (textrepr p).
Proof.
  eexists. split; [vm_compute; reflexivity|].
  apply (blacklisted_tags_never_written "index.html" {["meta"]} {["title"]}
           Examples.page_events).
  - vm_compute; reflexivity.
  - vm_compute; reflexivity.
Defined.

End Clean.

(** ** [CSSParser]: the comments read and the comments deleted *)

Section CssMeta.

Import Web Css.
#[local] Open Scope nat_scope.

Lemma findall_from_drop (k : nat) (s : string) :
  findall_from k s = findall_comments (Py.drop k s).
Proof.
  revert k. induction s as [|c s IH]; intros [|k]; try reflexivity.
  cbn [findall_from Py.drop]. apply IH.
Qed.

Lemma findall_no_comment (s : string) :
  has_comment s = false -> findall_comments s = [].
Proof.
  unfold findall_comments.
  induction s as [|c s IH]; [reflexivity|].
  cbn [has_comment findall_from].
  destruct (match_comment (String c s)); [discriminate|]. exact IH.
Qed.

Lemma find_close_split body k :
  find_close body = Some k ->
  body = substring 0 k body ++ "*/" ++ Py.drop (k + 2) body
  /\ find_close (substring 0 k body) = None.
Proof.
  revert k. induction body as [|c body IH]; intros k; [discriminate|].
  cbn [find_close].
  destruct (Ascii.eqb c "*" && Py.startswith body "/") eqn:Hc.
  - intros [= <-]. apply andb_true_iff in Hc as [Hc Hs].
    apply Ascii.eqb_eq in Hc. subst c.
    destruct body as [|d body]; [discriminate|]. cbn [Py.startswith] in Hs.
    rewrite andb_true_r in Hs.
    apply Ascii.eqb_eq in Hs. subst d. split; reflexivity.
  - destruct (find_close body) as [k'|] eqn:Hb; [|discriminate].
    intros [= <-]. destruct (IH k' eq_refl) as [Hsplit Hnone].
    split.
    + change (String c body
              = String c (substring 0 k' body ++ "*/" ++ Py.drop (k' + 2) body)).
      f_equal. exact Hsplit.
    + cbn [substring find_close]. rewrite Hnone.
      destruct (Ascii.eqb c "*") eqn:Hstar; [|reflexivity]. simpl in Hc.
      destruct k' as [|k'].
      * destruct body; reflexivity.
      * destruct body as [|d body]; [reflexivity|].
        cbn [substring]. simpl in Hc. simpl. now rewrite Hc.
Qed.

Lemma match_comment_split s n :
  match_comment s = Some n ->
  s = "/*" ++ substring 2 (n - 4) s ++ "*/" ++ Py.drop n s
  /\ find_close (substring 2 (n - 4) s) = None
  /\ 4 <= n.
Proof.
  destruct s as [|c1 [|c2 body]]; try discriminate.
  cbn [match_comment].
  destruct (Ascii.eqb c1 "/") eqn:H1; [|discriminate].
  destruct (Ascii.eqb c2 "*") eqn:H2; [|discriminate].
  apply Ascii.eqb_eq in H1, H2. subst. cbn [andb].
  destruct (find_close body) as [k|] eqn:Hb; [|discriminate].
  intros [= <-]. destruct (find_close_split body k Hb) as [Hsplit Hnone].
  replace (2 + k + 2) with (S (S (k + 2))) by lia.
  replace (S (S (k + 2)) - 4) with k by lia.
  repeat split.
  - change (String "/" (String "*" body)
            = String "/" (String "*" (substring 0 k body ++ "*/" ++ Py.drop (k + 2) body))).
    do 2 f_equal. exact Hsplit.
  - exact Hnone.
  - lia.
Qed.

Lemma comments_split_by_length (n : nat) :
  forall text, String.length text <= n ->
  exists pieces last,
    text = weave pieces last
    /\ sub_comments text = kept pieces last
    /\ findall_comments text = map snd pieces
    /\ Forall (fun kb => find_close kb.2 = None) pieces.
Proof.
  induction n as [|n IH]; intros text Hle.
  - destruct text; [|simpl in Hle; lia]. exists [], "". repeat split; constructor.
  - destruct text as [|c s]; [exists [], ""; repeat split; constructor|].
    destruct (match_comment (String c s)) as [m|] eqn:Hm.
    + destruct (match_comment_split _ _ Hm) as (Hsplit & Hnone & Hlen).
      set (text := String c s) in *.
      destruct (IH (Py.drop m text)) as (pieces & last & Ht & Hs & Hf & Hn).
      { pose proof (match_comment_opener _ _ Hm) as [body Hbody].
        unfold text in *. injection Hbody as -> ->.
        destruct m as [|m]; [lia|]. cbn [Py.drop].
        pose proof (length_drop m (String "*" body)).
        simpl in Hle. simpl in H. lia. }
      exists (("", substring 2 (m - 4) text) :: pieces), last.
      assert (Hdrop : Py.drop (m - 1) s = Py.drop m text).
      { unfold text. destruct m as [|m]; [lia|]. cbn [Py.drop].
        now replace (S m - 1) with m by lia. }
      repeat split.
      * cbn [weave fold_right fst snd]. fold (weave pieces last).
        rewrite <- Ht. exact Hsplit.
      * unfold sub_comments, text. cbn [sub_comments_from]. fold text. rewrite Hm.
        rewrite sub_comments_from_drop, Hdrop, Hs. reflexivity.
      * unfold findall_comments, text. cbn [findall_from]. fold text. rewrite Hm.
        rewrite findall_from_drop, Hdrop, Hf. reflexivity.
      * constructor; [exact Hnone|exact Hn].
    + destruct (IH s) as (pieces & last & Ht & Hs & Hf & Hn).
      { simpl in Hle. lia. }
      assert (Hsub : sub_comments (String c s) = String c (sub_comments s)).
      { unfold sub_comments. cbn [sub_comments_from]. now rewrite Hm. }
      assert (Hfind : findall_comments (String c s) = findall_comments s).
      { unfold findall_comments. cbn [findall_from]. now rewrite Hm. }
      destruct pieces as [|[k b] pieces].
      * exists [], (String c last). simpl in *. subst.
        repeat split; [now rewrite Hsub, Hs|now rewrite Hfind|constructor].
      * exists ((String c k, b) :: pieces), last.
        apply Forall_cons in Hn as [Hb Hn].
        repeat split.
        -- rewrite Ht. reflexivity.
        -- rewrite Hsub, Hs. reflexivity.
        -- rewrite Hfind, Hf. reflexivity.
        -- constructor; assumption.
Qed.

(** X5. [remove_all] deletes exactly what [get_meta] reads: every CSS
    text is a sequence of kept texts and comments [/* body */] followed
    by a last kept text, such that the cleaned file is the kept texts,
    the bodies are the matches [get_meta] goes through, and no body holds
    a comment end. *)
Theorem remove_all_deletes_what_get_meta_reads (text : string) :
  exists pieces last,
    text = weave pieces last
    /\ snd (CSSParser_remove_all text) = kept pieces last
    /\ findall_comments text = map snd pieces
    /\ Forall (fun kb => find_close kb.2 = None) pieces.
Proof. exact (comments_split_by_length (String.length text) text (le_n _)). Qed.

(** X7. A CSS file without a comment has no metadata, and the file
    [remove_all] writes has none whenever no ['/'] stands immediately
    before a comment opening in the input. *)
Theorem css_without_comment_has_no_metadata (text : string) :
  (has_comment text = false -> CSSParser_get_meta text = ∅)
  /\ (Py.contains "//*" text = false ->
      CSSParser_get_meta (snd (CSSParser_remove_all text)) = ∅).
Proof.
  assert (H : forall s, has_comment s = false -> CSSParser_get_meta s = ∅).
  { intros s Hs. unfold CSSParser_get_meta. now rewrite findall_no_comment. }
  split; [apply H|].
  intros Hc. apply H. simpl. now apply no_junction_no_comment.
Qed.

Lemma css_without_comment_has_no_metadata_witness :
  CSSParser_get_meta
    (snd (CSSParser_remove_all "/* author: Alice */ body{color:red}")) = ∅.
Proof.
  apply (css_without_comment_has_no_metadata "/* author: Alice */ body{color:red}").
  vm_compute. reflexivity.
Defined.

Lemma splitlines_nil s : splitlines s = [] <-> s = "".
Proof.
  split; [|now intros ->].
  induction s as [|c s IH]; [reflexivity|].
  cbn [splitlines]. destruct (is_linebreak c).
  - destruct (Ascii.eqb c "013" && Py.startswith s (String "010" "")) eqn:Hc; [|discriminate].
    intros Hs. apply IH in Hs. subst s. apply andb_true_iff in Hc as [_ Hc]. discriminate.
  - destruct (splitlines s); discriminate.
Qed.

Lemma line_entry_nonempty m line : line_entry m line <> ∅.
Proof.
  unfold line_entry.
  destruct (split_colon line) as [|k [|v [|]]]; apply insert_non_empty.
Qed.

Lemma fold_line_entry_nonempty lines m :
  m <> ∅ \/ lines <> [] -> fold_left line_entry lines m <> ∅.
Proof.
  revert m. induction lines as [|line lines IH]; intros m [Hm|Hl]; try easy.
  - cbn [fold_left]. apply IH. left. apply line_entry_nonempty.
  - cbn [fold_left]. apply IH. left. apply line_entry_nonempty.
Qed.

Lemma fold_comments_empty ms m :
  fold_left (fun metadata c => fold_left line_entry (splitlines c) metadata) ms m = ∅
  <-> m = ∅ /\ Forall (fun c => c = "") ms.
Proof.
  revert m. induction ms as [|c ms IH]; intros m; cbn [fold_left].
  - split; [intros ->; split; [reflexivity|constructor] | now intros [-> _]].
  - rewrite IH. split.
    + intros [Hm Hms].
      destruct (decide (m = ∅)) as [->|Hne].
      * destruct (splitlines c) eqn:Hc.
        -- apply splitlines_nil in Hc. subst c. split; [reflexivity|now constructor].
        -- exfalso. revert Hm. apply fold_line_entry_nonempty. now right.
      * exfalso. revert Hm. apply fold_line_entry_nonempty. now left.
    + intros [-> Hall]. apply Forall_cons in Hall as [-> Hall]. now split.
Qed.

(** X6. [get_meta] returns an empty dictionary exactly when every comment
    of the file has an empty body: a comment with any text, even blank,
    gives an entry, while [/**/] is not reported. *)
Theorem css_get_meta_empty_iff (text : string) :
  CSSParser_get_meta text = ∅ <-> Forall (fun m => m = "") (findall_comments text).
Proof.
  unfold CSSParser_get_meta. rewrite fold_comments_empty. tauto.
Qed.

Lemma css_get_meta_empty_iff_witness :
  CSSParser_get_meta "a{}/**/b{}/**/" = ∅.
Proof.
  apply (css_get_meta_empty_iff "a{}/**/b{}/**/").
  repeat constructor.
Defined.

End CssMeta.

(** ** The hooks of the office sanitizers *)

Section Hooks.

Import Office OfficeSpec MSOfficeFiles Revisions.
#[local] Open Scope nat_scope.
#[local] Open Scope list_scope.

Lemma endswith_drop_self k s : Py.endswith s (Py.drop k s) = true.
Proof.
  revert k. induction s as [|c s IH]; intros [|k]; cbn [Py.endswith Py.drop];
    try reflexivity.
  - now rewrite String.eqb_refl.
  - rewrite IH. apply orb_true_r.
Qed.

Lemma endswith_drop s suf k :
  Py.endswith s suf = true -> Py.endswith s (Py.drop k suf) = true.
Proof.
  induction s as [|c s IH]; cbn [Py.endswith].
  - rewrite orb_false_r. intros H. apply String.eqb_eq in H. subst suf.
    now destruct k.
  - intros H. apply orb_true_iff in H as [H|H].
    + apply String.eqb_eq in H. subst suf.
      change (Py.endswith (String c s) (Py.drop k (String c s)) = true).
      apply endswith_drop_self.
    + rewrite (IH H). apply orb_true_r.
Qed.

Lemma endswith_length s suf :
  Py.endswith s suf = true -> String.length suf <= String.length s.
Proof.
  induction s as [|c s IH]; cbn [Py.endswith].
  - rewrite orb_false_r. intros H. apply String.eqb_eq in H. now subst.
  - intros H. apply orb_true_iff in H as [H|H].
    + apply String.eqb_eq in H. now subst.
    + specialize (IH H). simpl. lia.
Qed.

Lemma endswith_same_length s a b :
  Py.endswith s a = true -> Py.endswith s b = true ->
  String.length a = String.length b -> a = b.
Proof.
  induction s as [|c s IH]; cbn [Py.endswith].
  - rewrite !orb_false_r. intros Ha Hb _.
    apply String.eqb_eq in Ha, Hb. congruence.
  - intros Ha Hb Hlen.
    apply orb_true_iff in Ha as [Ha|Ha]; apply orb_true_iff in Hb as [Hb|Hb].
    + apply String.eqb_eq in Ha, Hb. congruence.
    + apply String.eqb_eq in Ha. subst a. apply endswith_length in Hb.
      simpl in Hlen. lia.
    + apply String.eqb_eq in Hb. subst b. apply endswith_length in Ha.
      simpl in Hlen. lia.
    + now apply IH.
Qed.

(** Two suffixes that differ in their last [n] characters exclude each
    other. *)
Lemma endswith_exclusive s a b ka kb :
  Py.endswith s a = true ->
  String.length (Py.drop ka a) = String.length (Py.drop kb b) ->
  Py.drop ka a <> Py.drop kb b ->
  Py.endswith s b = false.
Proof.
  intros Ha Hlen Hne. destruct (Py.endswith s b) eqn:Hb; [|reflexivity].
  exfalso. apply Hne.
  apply (endswith_same_length s); [now apply endswith_drop..|exact Hlen].
Qed.

(** X8. Whatever a non-empty member named [.../docProps/app.xml] or
    [.../docProps/core.xml] holds, well-formed or not, the hook of
    [MSOfficeParser] returns [True] and leaves in its place the fixed
    document without properties (on which the last step, the deletion of
    [mc:Ignorable], has run). *)
Theorem docProps_replaced_by_blank
    (removed_fnames : gset string) (sub_ignorable : content -> content)
    (full_path : string) (c : content) :
  is_empty_file c = false ->
  (Py.endswith full_path "/docProps/app.xml" = true ->
   MSOfficeParser._specific_cleanup removed_fnames sub_ignorable full_path c
   = (Ret true, sub_ignorable MSOfficeParser.blank_app))
  /\ (Py.endswith full_path "/docProps/core.xml" = true ->
      MSOfficeParser._specific_cleanup removed_fnames sub_ignorable full_path c
      = (Ret true, sub_ignorable MSOfficeParser.blank_core)).
Proof.
  intros Hne. unfold MSOfficeParser._specific_cleanup. rewrite Hne. split; intros Hp.
  - rewrite (endswith_drop _ _ 13 Hp : Py.endswith full_path ".xml" = true).
    rewrite (endswith_exclusive full_path _ "/[Content_Types].xml" 12 15 Hp)
      by (vm_compute; first [reflexivity|discriminate]).
    rewrite (endswith_exclusive full_path _ "/word/document.xml" 12 13 Hp)
      by (vm_compute; first [reflexivity|discriminate]).
    rewrite Hp. cbn [negb]. vm_compute. reflexivity.
  - rewrite (endswith_drop _ _ 14 Hp : Py.endswith full_path ".xml" = true).
    rewrite (endswith_exclusive full_path _ "/[Content_Types].xml" 13 15 Hp)
      by (vm_compute; first [reflexivity|discriminate]).
    rewrite (endswith_exclusive full_path _ "/word/document.xml" 13 13 Hp)
      by (vm_compute; first [reflexivity|discriminate]).
    rewrite (endswith_exclusive full_path _ "/docProps/app.xml" 13 12 Hp)
      by (vm_compute; first [reflexivity|discriminate]).
    rewrite Hp. cbn [negb]. vm_compute. reflexivity.
Qed.

Lemma docProps_replaced_by_blank_witness :
  MSOfficeParser._specific_cleanup ∅ (fun c => c) "/tmp/docProps/app.xml"
    (NotXml "<Properties><Application>Word")
  = (Ret true, MSOfficeParser.blank_app).
Proof.
  apply (docProps_replaced_by_blank ∅ (fun c => c) "/tmp/docProps/app.xml"
           (NotXml "<Properties><Application>Word")); reflexivity.
Defined.



Lemma odf_remove_revisions_false c c' :
  LibreOfficeParser.__remove_revisions c = (Ret false, c') ->
  c' = c /\ ET_parse c = None.
Proof.
  unfold LibreOfficeParser.__remove_revisions, _parse_xml.
  destruct (ET_parse c) as [t|]; cbn [mbind option_bind].
  - case_bool_decide; [discriminate|].
    intros Hw. now apply write_and_return_not_false in Hw.
  - intros [= <-]. auto.
Qed.

Lemma odf_remove_revisions_true c c' :
  LibreOfficeParser.__remove_revisions c = (Ret true, c') ->
  ET_parse c <> None /\ (c' = c \/ exists f, c' = written f).
Proof.
  unfold LibreOfficeParser.__remove_revisions, _parse_xml.
  destruct (ET_parse c) as [t|]; cbn [mbind option_bind]; [|discriminate].
  split; [discriminate|]. revert H. case_bool_decide.
  - intros [= <-]. auto.
  - intros Hw. apply write_and_return_inv in Hw as [[_ Hw]|(e & He & _)];
      [auto|discriminate].
Qed.

Lemma sort_xml_attributes_not_false c c' : _sort_xml_attributes c <> (Ret false, c').
Proof.
  unfold _sort_xml_attributes. destruct (ET_parse c); [|discriminate].
  apply write_and_return_not_false.
Qed.

(** X10. The hook of [LibreOfficeParser] returns [False] in two cases
    only.  Either the member, which is not empty and whose base name ends
    in [.xml], is not well-formed XML: it is then left as it was.  Or the
    member is a well-formed [content.xml] that [__remove_revisions]
    rewrote, returning [True], into a file that does not parse, on which
    [_sort_xml_attributes] raised [ParseError]: the member is then left
    as [__remove_revisions] wrote it.  Conversely, on a member other than
    [content.xml] that is not well-formed the hook returns [False]. *)
Theorem odf_specific_cleanup_false_cases (full_path : string) (c c' : content) :
  (LibreOfficeParser._specific_cleanup full_path c = (Ret false, c') ->
   is_empty_file c = false
   /\ Py.endswith (LibreOfficeParser.basename full_path) ".xml" = true
   /\ ((c' = c /\ ET_parse c = None)
       \/ (LibreOfficeParser.basename full_path = "content.xml"
           /\ LibreOfficeParser.__remove_revisions c = (Ret true, c')
           /\ ET_parse c <> None
           /\ ET_parse c' = None)))
  /\ (is_empty_file c = false ->
      Py.endswith (LibreOfficeParser.basename full_path) ".xml" = true ->
      LibreOfficeParser.basename full_path <> "content.xml" ->
      ET_parse c = None ->
      LibreOfficeParser._specific_cleanup full_path c = (Ret false, c)).
Proof.
  unfold LibreOfficeParser._specific_cleanup. split.
  - destruct (is_empty_file c); [discriminate|].
    destruct (Py.endswith _ ".xml"); [|discriminate].
    destruct (String.eqb _ "content.xml") eqn:Hname.
    + apply String.eqb_eq in Hname.
      destruct (LibreOfficeParser.__remove_revisions c) as [[[]|e] c1] eqn:Hrev.
      * destruct (_sort_xml_attributes c1) as [[b|e] c2] eqn:Hs; [discriminate|].
        destruct e; try discriminate.
        apply sort_xml_attributes_ParseError in Hs as [Hs ->]. intros [= <-].
        pose proof (odf_remove_revisions_true _ _ Hrev) as [Hp _].
        do 2 (split; [reflexivity|]). right. repeat split; assumption.
      * apply odf_remove_revisions_false in Hrev as [-> Hp]. intros [= <-]. auto.
      * discriminate.
    + destruct (_sort_xml_attributes c) as [[b|e] c2] eqn:Hs; [discriminate|].
      destruct e; try discriminate.
      apply sort_xml_attributes_ParseError in Hs as [Hs ->]. intros [= <-]. auto.
  - intros -> -> Hname Hp. apply String.eqb_neq in Hname. rewrite Hname.
    unfold _sort_xml_attributes. now rewrite Hp.
Qed.

Lemma odf_specific_cleanup_false_cases_witness :
  LibreOfficeParser._specific_cleanup "/tmp/Configurations2/styles.xml" (NotXml "<a>")
  = (Ret false, NotXml "<a>").
Proof.
  apply (odf_specific_cleanup_false_cases "/tmp/Configurations2/styles.xml"
           (NotXml "<a>") (NotXml "<a>")).
  - reflexivity.
  - reflexivity.
  - vm_compute. discriminate.
  - reflexivity.
Defined.

Lemma lower_mat x : is_reserved_prefix ("mat" ++ x)%string = false.
Proof. reflexivity. Qed.

(** X11. No key of the prefix map that [_parse_xml] returns has the form
    [ns] followed by digits, in any letter case, whatever prefixes the
    file declares: such prefixes are stored under [mat] and the digits. *)
Theorem namespace_map_has_no_reserved_prefix (ns : list (string * string)) (key : string) :
  key ∈ dom (namespace_map ns) -> is_reserved_prefix key = false.
Proof.
  unfold namespace_map.
  assert (H : forall m : gmap string string,
             (forall k, k ∈ dom m -> is_reserved_prefix k = false) ->
             forall k,
               k ∈ dom (fold_left
                          (fun m kv =>
                             let key := if is_reserved_prefix kv.1
                                        then ("mat" ++ Py.drop 2 kv.1)%string else kv.1 in
                             <[key := kv.2]> m) ns m) ->
               is_reserved_prefix k = false).
  { induction ns as [|[p uri] ns IH]; intros m Hm k; cbn [fold_left]; [apply Hm|].
    apply IH. intros k'. rewrite dom_insert, elem_of_union, elem_of_singleton.
    intros [->|Hk']; [|now apply Hm]. cbn [fst].
    destruct (is_reserved_prefix p) eqn:Hp; [apply lower_mat|exact Hp]. }
  apply H. intros k. rewrite dom_empty. intros Hk. now apply elem_of_empty in Hk.
Qed.

Lemma namespace_map_has_no_reserved_prefix_witness :
  "mat0" ∈ dom (namespace_map [("NS0", "urn:a")])
  /\ is_reserved_prefix "mat0" = false.
Proof.
  assert (Hk : "mat0" ∈ dom (namespace_map [("NS0", "urn:a")]))
    by (apply (bool_decide_unpack _); vm_compute; exact I).
  split; [exact Hk|].
  exact (namespace_map_has_no_reserved_prefix [("NS0", "urn:a")] "mat0" Hk).
Defined.

Lemma elem_of_removed_fnames names fname :
  fname ∈ removed_fnames names <-> fname ∈ names /\ omitted fname = true.
Proof.
  unfold removed_fnames.
  assert (H : forall acc : gset string,
             fname ∈ fold_left
                       (fun removed fname =>
                          if omitted fname then {[fname]} ∪ removed else removed)
                       names acc
             <-> (fname ∈ names /\ omitted fname = true) \/ fname ∈ acc).
  { induction names as [|x names IH]; intros acc; cbn [fold_left].
    - rewrite elem_of_nil. tauto.
    - rewrite IH, elem_of_cons. destruct (omitted x) eqn:Hx.
      + rewrite elem_of_union, elem_of_singleton. split.
        * intros [H|[->|H]]; [tauto| |tauto]. left. split; [now left|exact Hx].
        * intros [[[->|H] Ho]|H]; tauto.
      + split; [tauto|]. intros [[[->|H] Ho]|H]; [congruence|tauto|tauto]. }
  rewrite H, elem_of_empty. tauto.
Qed.

Lemma filter_filter_ext {X : Type} (P Q R : X -> Prop)
    `{forall x, Decision (P x)} `{forall x, Decision (Q x)} `{forall x, Decision (R x)}
    (l : list X) :
  (forall x, x ∈ l -> (P x /\ Q x <-> R x)) ->
  filter P (filter Q l) = filter R l.
Proof.
  induction l as [|x l IH]; intros Hx; [reflexivity|].
  rewrite (filter_cons Q), (filter_cons R).
  pose proof (Hx x ltac:(left)) as Hxx.
  assert (IH' := IH (fun y Hy => Hx y ltac:(now right))).
  destruct (decide (Q x)); destruct (decide (R x)).
  - rewrite filter_cons. rewrite decide_True by tauto. now rewrite IH'.
  - rewrite filter_cons. rewrite decide_False by tauto. exact IH'.
  - tauto.
  - exact IH'.
Qed.

Lemma drop_override_run (removed : gset string) (P : nat -> Prop)
    `{forall x, Decision (P x)} items :
  forall s e0,
    s !! 0 = Some e0 -> NoDup (children e0) -> 0 ∉ children e0 ->
    NoDup items -> (forall x, x ∈ items -> x ∈ children e0) ->
    (forall x, x ∈ items ->
       exists part, dict_get "PartName" (attrib_of s x) = Some part
                    /\ (Py.drop 1 part ∈ removed <-> P x)) ->
    exists s',
      for_each
        (fun item s =>
           part ← match dict_get "PartName" (attrib_of s item) with
                  | Some v => Ok v
                  | None => Raise (KeyError "PartName")
                  end;
           if bool_decide (Py.drop 1 part ∈ removed)
           then Element_remove 0 item s
           else Ok s) items s = Ok s'
      /\ length s' = length s
      /\ (forall j, j <> 0 -> s' !! j = s !! j)
      /\ s' !! 0 = Some {| tag := tag e0; attrib := attrib e0; text := text e0;
                           tail := tail e0;
                           children :=
                             filter (fun c => ~ (c ∈ items /\ P c)) (children e0) |}.
Proof.
  induction items as [|x items IH]; intros s e0 H0 Hnd H00 Hitems Hsub Hpart.
  - exists s. cbn [for_each]. repeat split; try reflexivity.
    rewrite H0. destruct e0 as [tg a tx tl cs]. cbn. f_equal. f_equal.
    symmetry. apply filter_id. intros c _ [Hc _]. now apply elem_of_nil in Hc.
  - apply NoDup_cons in Hitems as [Hx Hitems].
    destruct (Hpart x ltac:(left)) as (part & Hp & HP).
    cbn [for_each]. rewrite Hp. cbn [mbind result_bind].
    assert (Hx0 : x <> 0).
    { intros ->. apply H00, Hsub. left. }
    case_bool_decide as Hrem.
    + unfold Element_remove, children_of. rewrite H0.
      rewrite (list_remove_NoDup x (children e0) Hnd (Hsub x ltac:(left))).
      cbn [mbind result_bind].
      set (cs1 := filter (fun y => y ∉ [x]) (children e0)).
      pose proof (set_children_lookup 0 cs1 s e0 H0) as H1.
      destruct (IH (set_children 0 cs1 s) _ H1) as (s' & Hrun & Hlen & Hne & Hroot).
      { apply NoDup_filter, Hnd. }
      { cbn [children]. unfold cs1. rewrite list_elem_of_filter. tauto. }
      { exact Hitems. }
      { intros y Hy. cbn [children]. unfold cs1. apply list_elem_of_filter.
        split; [|apply Hsub; now right].
        rewrite list_elem_of_singleton. intros ->. contradiction. }
      { intros y Hy.
        assert (Hy0 : y <> 0) by (intros ->; apply H00, Hsub; now right).
        unfold attrib_of. rewrite set_children_lookup_ne by exact Hy0.
        apply Hpart. now right. }
      exists s'. split; [exact Hrun|]. split; [now rewrite Hlen, set_children_length|].
      split; [intros j Hj; rewrite Hne by exact Hj; now apply set_children_lookup_ne|].
      rewrite Hroot. cbn [tag attrib text tail children]. do 2 f_equal.
      unfold cs1. apply filter_filter_ext. intros c Hc.
      rewrite list_elem_of_singleton, elem_of_cons. split.
      * intros [Hn Hcx] [[->|Hin] HPc]; tauto.
      * intros Hn. split; [intros [Hin HPc]; apply Hn; tauto|].
        intros ->. apply Hn. split; [now left|]. now apply HP.
    + destruct (IH s e0 H0 Hnd H00 Hitems) as (s' & Hrun & Hlen & Hne & Hroot).
      { intros y Hy. apply Hsub. now right. }
      { intros y Hy. apply Hpart. now right. }
      exists s'. split; [exact Hrun|]. split; [exact Hlen|]. split; [exact Hne|].
      rewrite Hroot. do 2 f_equal. apply list_filter_iff. intros c.
      rewrite elem_of_cons. split.
      * intros Hn [[->|Hin] HPc]; [apply Hrem; now apply HP|tauto].
      * intros Hn [Hin HPc]. apply Hn. tauto.
Qed.

Lemma represents_in_tag_attrib lo hi s i t :
  represents_in lo hi s i t -> tag_of s i = xml_tag t /\ attrib_of s i = xml_attrib t.
Proof.
  destruct t as [tg a tx tl cs]. rewrite represents_in_unfold.
  intros (_ & ids & He & _). unfold tag_of, attrib_of. now rewrite He.
Qed.

Lemma Forall2_filter {X Y : Type} (R : X -> Y -> Prop) (P : X -> Prop) (Q : Y -> Prop)
    `{forall x, Decision (P x)} `{forall y, Decision (Q y)} l1 l2 :
  Forall2 R l1 l2 ->
  (forall x y, x ∈ l1 -> R x y -> (P x <-> Q y)) ->
  Forall2 R (filter P l1) (filter Q l2).
Proof.
  induction 1 as [|x y l1 l2 Hxy Hl IH]; intros HPQ; [constructor|].
  rewrite !filter_cons.
  pose proof (HPQ x y ltac:(left) Hxy) as Hiff.
  assert (IH' := IH (fun x' y' Hx' => HPQ x' y' ltac:(now right))).
  destruct (decide (P x)); destruct (decide (Q y)); try tauto.
  now constructor.
Qed.

Lemma list_sum_filter_le (P : xml -> Prop) `{forall x, Decision (P x)} cs :
  list_sum (map xml_size (filter P cs)) <= list_sum (map xml_size cs).
Proof.
  induction cs as [|c cs IH]; [reflexivity|].
  rewrite filter_cons. destruct (decide (P c)); simpl; lia.
Qed.

Lemma content_types_tree (names : list string) (f : xml_file) (uri : string) :
  namespace_map (ns_decls f) = {["" := uri]} ->
  Forall (fun item => xml_tag item = ("{" ++ uri ++ "}Override")%string ->
                      dict_get "PartName" (xml_attrib item) <> None)
    (xml_children (body f)) ->
  exists t',
    MSOfficeParser.__remove_content_type_members (removed_fnames names) (Xml f)
    = write_and_return (Xml f) (Ok t')
    /\ ET_document t' = Some (drop_dangling uri names (body f)).
Proof.
  intros Hns Hpart.
  unfold MSOfficeParser.__remove_content_type_members, _parse_xml.
  cbn [ET_parse mbind option_bind objects root decls].
  rewrite Hns, map_size_singleton, lookup_singleton_eq.
  cbn [Nat.eqb negb mbind result_bind].
  destruct f as [d ns t]. cbn [body ns_decls] in *.
  pose proof (load_0_loaded t) as Hl.
  destruct t as [tg a tx tl cs]. cbn [xml_children] in Hpart.
  set (t := Element tg a tx tl cs) in *.
  set (s0 := load 0 t) in *.
  set (q := ("{" ++ uri ++ "}Override")%string) in *.
  apply loaded_unfold in Hl as [He Hf].
  pose proof (loaded_forest_represents _ _ _ Hf) as Hrep.
  apply represents_all_Forall2 in Hrep.
  set (hi := 1 + list_sum (map xml_size cs)) in *.
  set (gone := fun x =>
         match dict_get "PartName" (attrib_of s0 x) with
         | Some part => bool_decide (Py.drop 1 part ∈ removed_fnames names)
         | None => false
         end = true).
  assert (Hchild : forall x, x ∈ child_ids 1 cs ->
            exists c, c ∈ cs /\ represents_in 1 hi s0 x c).
  { intros x Hx. apply list_elem_of_lookup in Hx as [k Hk].
    destruct (Forall2_lookup_l _ _ _ _ _ Hrep Hk) as (c & Hc & Hxc).
    exists c. split; [eapply list_elem_of_lookup_2; exact Hc|exact Hxc]. }
  unfold findall_children, children_of. rewrite He. cbn [children].
  set (items := filter (fun x => tag_of s0 x = q) (child_ids 1 cs)).
  destruct (drop_override_run (removed_fnames names) gone items s0 _ He)
    as (sF & Hrun & Hlen & Hne & Hroot).
  { apply child_ids_NoDup. }
  { cbn [children]. intros H0. apply child_ids_range in H0. lia. }
  { apply NoDup_filter, child_ids_NoDup. }
  { intros x Hx. apply list_elem_of_filter in Hx. tauto. }
  { intros x Hx. apply list_elem_of_filter in Hx as [Htag Hx].
    destruct (Hchild x Hx) as (c & Hc & Hxc).
    apply represents_in_tag_attrib in Hxc as [Ht Ha].
    rewrite Forall_forall in Hpart.
    specialize (Hpart c Hc ltac:(congruence)).
    unfold gone. rewrite Ha.
    destruct (dict_get "PartName" (xml_attrib c)) as [part|]; [|congruence].
    exists part. split; [reflexivity|]. now rewrite bool_decide_eq_true. }
  rewrite Hrun. cbn [mbind result_bind].
  eexists. split; [reflexivity|].
  unfold ET_document, with_objects. cbn [objects root decls].
  assert (Hfinal : represents_in 0 (xml_size t) sF 0 (drop_dangling uri names t)).
  { unfold t at 2. cbn [drop_dangling]. rewrite represents_in_unfold.
    unfold t. rewrite xml_size_unfold. split; [lia|].
    eexists. split; [exact Hroot|]. cbn [children].
    apply represents_all_Forall2.
    apply (Forall2_impl (represents_in 1 hi s0)).
    - apply Forall2_filter; [exact Hrep|].
      intros x c Hx Hxc. apply represents_in_tag_attrib in Hxc as [Ht Ha].
      unfold items, gone, dangling. rewrite list_elem_of_filter, Ht, Ha. fold q.
      destruct (dict_get "PartName" (xml_attrib c)) as [part|].
      + rewrite bool_decide_eq_true, elem_of_removed_fnames.
        rewrite andb_false_iff, andb_false_iff, !bool_decide_eq_false.
        destruct (omitted (Py.drop 1 part)); split.
        * intros Hn. destruct (decide (xml_tag c = q)); [|tauto].
          right. left. intros Hin. apply Hn. tauto.
        * intros [Hn|[Hn|Hn]] [[Htag _] [Hin _]]; try tauto. discriminate.
        * tauto.
        * intros _ [_ [_ Ho]]. discriminate.
      + rewrite andb_false_r. split; [reflexivity|]. intros _ [_ Hg]. discriminate.
    - intros x c Hxc.
      eapply represents_in_weaken; [| |eapply represents_in_frame; [|exact Hxc]].
      + lia.
      + unfold hi. lia.
      + intros j Hj. apply Hne. lia. }
  apply (represents_dump _ _ _ _ _ _ Hfinal).
  rewrite Hlen. unfold s0. rewrite length_load.
  unfold t. cbn [drop_dangling]. rewrite !xml_size_unfold.
  pose proof (list_sum_filter_le (fun item => dangling uri names item = false) cs). lia.
Qed.

(** X12. On a [[Content_Types].xml] whose one namespace is the default
    one and whose [Override] elements all have a [PartName],
    [__remove_content_type_members] returns [True] after it has called
    [tree.write(full_path, xml_declaration=True)] on the tree of the
    document without the [Override] children of the root whose part (the
    [PartName] less its first character) is a member of the archive that
    matches [files_to_omit]; every other element stays, in order. *)
Theorem content_types_lose_dangling_overrides
    (names : list string) (f : xml_file) (uri : string) :
  namespace_map (ns_decls f) = {["" := uri]} ->
  Forall (fun item => xml_tag item = ("{" ++ uri ++ "}Override")%string ->
                      dict_get "PartName" (xml_attrib item) <> None)
    (xml_children (body f)) ->
  exists t' c',
    MSOfficeParser.__remove_content_type_members (removed_fnames names) (Xml f)
    = write_and_return (Xml f) (Ok t')
    /\ ET_document t' = Some (drop_dangling uri names (body f))
    /\ MSOfficeParser.__remove_content_type_members (removed_fnames names) (Xml f)
       = (Ret true, c').
Proof.
  intros Hns Hpart. apply tree_written. now apply content_types_tree.
Qed.

Lemma content_types_lose_dangling_overrides_witness :
  exists t' c',
    MSOfficeParser.__remove_content_type_members
      (removed_fnames OfficeExamples2.member_names) (Xml OfficeExamples2.content_types)
    = write_and_return (Xml OfficeExamples2.content_types) (Ok t')
    /\ ET_document t'
       = Some (drop_dangling OfficeExamples2.types_uri OfficeExamples2.member_names
                 (body OfficeExamples2.content_types))
    /\ MSOfficeParser.__remove_content_type_members
         (removed_fnames OfficeExamples2.member_names) (Xml OfficeExamples2.content_types)
       = (Ret true, c').
Proof.
  apply (content_types_lose_dangling_overrides OfficeExamples2.member_names
           OfficeExamples2.content_types OfficeExamples2.types_uri).
  - apply insert_empty.
  - repeat (apply Forall_cons; split;
            [intros Htag; vm_compute in Htag |- *; first [discriminate Htag|discriminate]|]).
    constructor.
Defined.





Lemma sort_xml_of_sorted l : key_sorted l -> sort_xml l = l.
Proof.
  induction l as [|x l IH]; [reflexivity|].
  intros Hs. apply Sorted_inv in Hs as [Hs Hhd].
  cbn [sort_xml foldr]. fold (sort_xml l). rewrite (IH Hs).
  destruct l as [|y l]; [reflexivity|].
  apply HdRel_inv in Hhd. cbn [insert_xml]. now rewrite Hhd.
Qed.

Lemma canonical_idempotent t : canonical (canonical t) = canonical t.
Proof.
  destruct t as [tg a tx tl cs]. cbn [canonical]. f_equal.
  rewrite map_map. apply map_ext. intros [tg' a' tx' tl' gs]. cbn [sort_children_of].
  f_equal. apply sort_xml_of_sorted, sort_xml_sorted.
Qed.

Lemma comparable_canonical t :
  Forall (fun c => comparable (xml_children c)) (xml_children t) ->
  Forall (fun c => comparable (xml_children c)) (xml_children (canonical t)).
Proof.
  destruct t as [tg a tx tl cs]. cbn [canonical xml_children].
  rewrite Forall_map, !Forall_forall. intros Hall [tg' a' tx' tl' gs] Hin.
  specialize (Hall _ Hin). intros x y Hx Hy. cbn [sort_children_of xml_children] in *.
  apply Hall; now apply elem_of_sort_xml.
Qed.

(** X14. [_sort_xml_attributes] is idempotent on documents: where the
    keys can be ordered, the document it hands to [tree.write] has the
    children of each child of the root sorted; and on a file that holds
    that document it hands the same document to [tree.write] again, and
    returns [True]. *)
Theorem sort_xml_attributes_idempotent (f f2 : xml_file) :
  Forall (fun c => comparable (xml_children c)) (xml_children (body f)) ->
  body f2 = canonical (body f) ->
  (exists t1 c1,
     _sort_xml_attributes (Xml f) = write_and_return (Xml f) (Ok t1)
     /\ ET_document t1 = Some (body f2)
     /\ _sort_xml_attributes (Xml f) = (Ret true, c1))
  /\ (exists t2 c2,
        _sort_xml_attributes (Xml f2) = write_and_return (Xml f2) (Ok t2)
        /\ ET_document t2 = Some (body f2)
        /\ _sort_xml_attributes (Xml f2) = (Ret true, c2)).
Proof.
  intros Hcmp Hf2. split; apply tree_written.
  - rewrite Hf2. now apply sort_xml_attributes_tree.
  - destruct (sort_xml_attributes_tree f2) as (t2 & Hrun & Hdoc).
    { rewrite Hf2. now apply comparable_canonical. }
    exists t2. split; [exact Hrun|].
    now rewrite Hdoc, Hf2, canonical_idempotent.
Qed.

Lemma sort_xml_attributes_idempotent_witness :
  exists t2 c2,
    _sort_xml_attributes
      (Xml {| declaration := true; ns_decls := [];
              body := canonical (body OfficeExamples.unsorted) |})
    = write_and_return
        (Xml {| declaration := true; ns_decls := [];
                body := canonical (body OfficeExamples.unsorted) |}) (Ok t2)
    /\ ET_document t2 = Some (canonical (body OfficeExamples.unsorted))
    /\ _sort_xml_attributes
         (Xml {| declaration := true; ns_decls := [];
                 body := canonical (body OfficeExamples.unsorted) |})
       = (Ret true, c2).
Proof.
  apply (sort_xml_attributes_idempotent OfficeExamples.unsorted
           {| declaration := true; ns_decls := [];
              body := canonical (body OfficeExamples.unsorted) |}).
  - repeat constructor; intros x y Hx Hy;
      repeat (apply elem_of_cons in Hx as [->|Hx]);
      try (now apply elem_of_nil in Hx);
      repeat (apply elem_of_cons in Hy as [->|Hy]);
      try (now apply elem_of_nil in Hy);
      eexists; vm_compute; reflexivity.
  - reflexivity.
Defined.

Lemma xml_tag_strip_rsid t : xml_tag (strip_rsid t) = xml_tag t.
Proof. now destruct t. Qed.

Lemma filter_idemp {X : Type} (P : X -> Prop) `{forall x, Decision (P x)} (l : list X) :
  filter P (filter P l) = filter P l.
Proof.
  apply filter_id. intros x Hx. apply list_elem_of_filter in Hx. tauto.
Qed.

Lemma strip_rsid_idempotent t : strip_rsid (strip_rsid t) = strip_rsid t.
Proof.
  induction t as [tg a tx tl cs IH] using xml_ind'.
  rewrite !strip_rsid_unfold. f_equal; [apply filter_idemp|].
  induction cs as [|c cs IHcs]; [reflexivity|].
  apply Forall_cons in IH as [Hc Hcs]. cbn [strip_rsid_forest].
  destruct (MSOfficeParser.rsid_tag (xml_tag c)) eqn:Htag; [now apply IHcs|].
  cbn [strip_rsid_forest]. rewrite xml_tag_strip_rsid, Htag, Hc. f_equal. now apply IHcs.
Qed.

Lemma strip_rsid_forest_idempotent cs :
  strip_rsid_forest (strip_rsid_forest cs) = strip_rsid_forest cs.
Proof.
  induction cs as [|c cs IH]; [reflexivity|]. cbn [strip_rsid_forest].
  destruct (MSOfficeParser.rsid_tag (xml_tag c)) eqn:Htag; [exact IH|].
  cbn [strip_rsid_forest].
  now rewrite xml_tag_strip_rsid, Htag, strip_rsid_idempotent, IH.
Qed.

Lemma strip_rsid_below_root_idempotent t :
  strip_rsid_below_root (strip_rsid_below_root t) = strip_rsid_below_root t.
Proof.
  destruct t as [tg a tx tl cs]. cbn [strip_rsid_below_root].
  now rewrite strip_rsid_forest_idempotent.
Qed.

(** X15. [__remove_rsid] is idempotent on documents: on a file that
    declares the prefix [w], with prefixes that [ET.register_namespace]
    accepts, and that holds the document a first run handed to
    [tree.write], a second run hands the same document to [tree.write]
    and returns [True]. *)
Theorem remove_rsid_idempotent (f f2 : xml_file) :
  ascii_prefixes (ns_decls f2) = true ->
  "w" ∈ dom (namespace_map (ns_decls f2)) ->
  body f2 = strip_rsid_below_root (body f) ->
  exists t2 c2,
    MSOfficeParser.__remove_rsid (Xml f2) = write_and_return (Xml f2) (Ok t2)
    /\ ET_document t2 = Some (body f2)
    /\ MSOfficeParser.__remove_rsid (Xml f2) = (Ret true, c2).
Proof.
  intros _ Hw Hf2. apply tree_written.
  destruct (remove_rsid_tree f2 Hw) as (t2 & Hrun & Hdoc).
  exists t2. split; [exact Hrun|].
  now rewrite Hdoc, Hf2, strip_rsid_below_root_idempotent.
Qed.

Lemma remove_rsid_idempotent_witness :
  exists t2 c2,
    MSOfficeParser.__remove_rsid
      (Xml {| declaration := true; ns_decls := [("w", OfficeExamples.w_uri)];
              body := strip_rsid_below_root
                        (body (OfficeExamples.word_document "w"
                                 OfficeExamples.rsid_body)) |})
    = write_and_return
        (Xml {| declaration := true; ns_decls := [("w", OfficeExamples.w_uri)];
                body := strip_rsid_below_root
                          (body (OfficeExamples.word_document "w"
                                   OfficeExamples.rsid_body)) |}) (Ok t2)
    /\ ET_document t2
       = Some (strip_rsid_below_root
                 (body (OfficeExamples.word_document "w" OfficeExamples.rsid_body)))
    /\ MSOfficeParser.__remove_rsid
         (Xml {| declaration := true; ns_decls := [("w", OfficeExamples.w_uri)];
                 body := strip_rsid_below_root
                           (body (OfficeExamples.word_document "w"
                                    OfficeExamples.rsid_body)) |})
       = (Ret true, c2).
Proof.
  apply (remove_rsid_idempotent
           (OfficeExamples.word_document "w" OfficeExamples.rsid_body)
           {| declaration := true; ns_decls := [("w", OfficeExamples.w_uri)];
              body := strip_rsid_below_root
                        (body (OfficeExamples.word_document "w"
                                 OfficeExamples.rsid_body)) |}).
  - reflexivity.
  - apply (bool_decide_unpack _); vm_compute; exact I.
  - reflexivity.
Defined.

Lemma tags_load_forest b cs :
  Forall (fun c => forall b, map tag (load b c) = map xml_tag (elements c)) cs ->
  map tag (load_forest b cs) = map xml_tag (flat_map elements cs).
Proof.
  revert b. induction cs as [|c cs IH]; intros b Hall; [reflexivity|].
  apply Forall_cons in Hall as [Hc Hcs].
  cbn [load_forest flat_map]. rewrite !map_app, Hc, IH by exact Hcs. reflexivity.
Qed.

Lemma tags_load t : forall b, map tag (load b t) = map xml_tag (elements t).
Proof.
  induction t as [tg a tx tl cs IH] using xml_ind'. intros b.
  rewrite load_unfold. cbn [elements map tag xml_tag]. f_equal.
  now apply tags_load_forest.
Qed.

Lemma tag_of_descendant t x :
  0 < x < xml_size t ->
  exists e, e ∈ descendants t /\ tag_of (load 0 t) x = xml_tag e.
Proof.
  intros Hx. pose proof (tags_load t 0) as Htags.
  destruct (lookup_lt_is_Some_2 (load 0 t) x) as [e He];
    [rewrite length_load; lia|].
  assert (Hm : map tag (load 0 t) !! x = Some (tag e))
    by (rewrite list_lookup_fmap, He; reflexivity).
  rewrite Htags in Hm. destruct t as [tg a tx tl cs].
  cbn [elements map] in Hm. destruct x as [|x]; [lia|].
  change (map xml_tag (flat_map elements cs) !! x = Some (tag e)) in Hm.
  rewrite list_lookup_fmap in Hm.
  destruct (flat_map elements cs !! x) as [d|] eqn:Hd; [|discriminate].
  injection Hm as Hm. exists d. split.
  - unfold descendants. cbn [xml_children]. eapply list_elem_of_lookup_2; exact Hd.
  - unfold tag_of. now rewrite He.
Qed.

Lemma filter_none {X : Type} (P : X -> Prop) `{forall x, Decision (P x)} (l : list X) :
  (forall x, x ∈ l -> ~ P x) -> filter P l = [].
Proof.
  induction l as [|x l IH]; intros Hl; [reflexivity|].
  rewrite filter_cons, decide_False by (apply Hl; left).
  apply IH. intros y Hy. apply Hl. now right.
Qed.

Lemma findall_descendants_none t q :
  Forall (fun e => xml_tag e <> q) (descendants t) ->
  findall_descendants (load 0 t) 0 q = Ok [].
Proof.
  intros Hall. unfold findall_descendants. rewrite iter_list_loaded.
  cbn [mbind result_bind]. f_equal.
  apply filter_none. intros x Hx [Hx0 Htag]. apply elem_of_seq in Hx.
  destruct (tag_of_descendant t x ltac:(lia)) as (e & He & Hte).
  rewrite Forall_forall in Hall. apply (Hall e He). congruence.
Qed.



Lemma for_iter_noop {A : Type} (body : nat -> list element * A -> result (list element * A))
    fuel s a :
  forall st xs,
    iter_list fuel s st = Ok xs ->
    (forall x, x ∈ xs -> body x (s, a) = Ok (s, a)) ->
    for_iter fuel body st (s, a) = Ok (s, a).
Proof.
  induction fuel as [|fuel IH]; intros st xs; cbn [iter_list for_iter]; [discriminate|].
  cbn [fst]. destruct (iter_next s st) as [[x st']|]; [|reflexivity].
  destruct (iter_list fuel s st') as [xs'|e] eqn:Hxs; [|discriminate].
  cbn [mbind result_bind]. intros [= <-] Hbody.
  rewrite Hbody by left. cbn [mbind result_bind].
  apply (IH st' xs' Hxs). intros y Hy. apply Hbody. now right.
Qed.

(** X17. On a file whose prefixes [ET.register_namespace] accepts,
    [LibreOfficeParser.__remove_revisions] leaves a file that does not
    declare the prefix [office] as it was; on a file that declares it but
    has no [office:text] element below its root, it hands the document
    as it was parsed to [tree.write(full_path, xml_declaration=True)] and
    returns [True]. *)
Theorem odf_without_office_text_kept (f : xml_file) :
  ascii_prefixes (ns_decls f) = true ->
  ("office" ∉ dom (namespace_map (ns_decls f)) ->
   LibreOfficeParser.__remove_revisions (Xml f) = (Ret true, Xml f))
  /\ (forall uri,
        namespace_map (ns_decls f) !! "office" = Some uri ->
        Forall (fun e => xml_tag e <> ("{" ++ uri ++ "}text")%string)
          (descendants (body f)) ->
        exists t' c',
          LibreOfficeParser.__remove_revisions (Xml f)
          = write_and_return (Xml f) (Ok t')
          /\ ET_document t' = Some (body f)
          /\ LibreOfficeParser.__remove_revisions (Xml f) = (Ret true, c')).
Proof.
  intros _. split.
  - unfold LibreOfficeParser.__remove_revisions, _parse_xml.
    cbn [ET_parse mbind option_bind objects root decls].
    intros Hw. now rewrite bool_decide_eq_true_2.
  - intros uri Hw Hall. apply tree_written.
    unfold LibreOfficeParser.__remove_revisions, _parse_xml.
    cbn [ET_parse mbind option_bind objects root decls].
    rewrite bool_decide_eq_false_2
      by (intros Hn; apply Hn, elem_of_dom; eauto).
    unfold qualified. rewrite Hw. cbn [mbind result_bind].
    rewrite (for_iter_noop _ _ _ _ _ _ (iter_list_loaded (body f))).
    + cbn [mbind result_bind fst].
      eexists. split; [reflexivity|].
      unfold ET_document, with_objects. cbn [objects root decls].
      pose proof (loaded_represents _ _ _ (load_0_loaded (body f))) as Hrep.
      apply (represents_dump _ _ _ _ _ _ Hrep).
      rewrite length_load. lia.
    + intros x Hx. cbn [fst]. apply elem_of_seq in Hx.
      rewrite decide_False; [reflexivity|].
      intros [Hx0 Htag].
      destruct (tag_of_descendant (body f) x ltac:(lia)) as (e & He & Hte).
      rewrite Forall_forall in Hall. apply (Hall e He). rewrite <- Hte. exact Htag.
Qed.

Lemma odf_without_office_text_kept_witness :
  LibreOfficeParser.__remove_revisions (Xml OfficeExamples.unsorted)
  = (Ret true, Xml OfficeExamples.unsorted).
Proof.
  apply (odf_without_office_text_kept OfficeExamples.unsorted).
  - reflexivity.
  - apply (bool_decide_unpack _); vm_compute; exact I.
Defined.

(** X18. On a well-formed member whose name ends in [.xml] and is none
    of the four special names, and that does not declare the prefix [w]
    (its prefixes being such as [ET.register_namespace] accepts), the
    hook of [MSOfficeParser] is [_sort_xml_attributes] followed by the
    deletion of [mc:Ignorable]: [__remove_rsid] returns [True] without
    writing, the document with the children of each child of the root
    sorted is handed to [tree.write], [mc:Ignorable] is deleted from the
    file written and the hook returns [True]. *)
Theorem specific_cleanup_plain_member
    (removed_fnames : gset string) (sub_ignorable : content -> content)
    (full_path : string) (f : xml_file) :
  ascii_prefixes (ns_decls f) = true ->
  Py.endswith full_path ".xml" = true ->
  Py.endswith full_path "/[Content_Types].xml" = false ->
  Py.endswith full_path "/word/document.xml" = false ->
  Py.endswith full_path "/docProps/app.xml" = false ->
  Py.endswith full_path "/docProps/core.xml" = false ->
  "w" ∉ dom (namespace_map (ns_decls f)) ->
  Forall (fun c => comparable (xml_children c)) (xml_children (body f)) ->
  exists t' c1,
    _sort_xml_attributes (Xml f) = write_and_return (Xml f) (Ok t')
    /\ ET_document t' = Some (canonical (body f))
    /\ _sort_xml_attributes (Xml f) = (Ret true, c1)
    /\ MSOfficeParser._specific_cleanup removed_fnames sub_ignorable full_path (Xml f)
       = (Ret true, sub_ignorable c1).
Proof.
  intros _ Hxml Hct Hdoc Happ Hcore Hw Hcmp.
  destruct (tree_written _ _ _ (sort_xml_attributes_tree f Hcmp))
    as (t' & c1 & Hrun & Htree & Hret).
  exists t', c1. split; [exact Hrun|]. split; [exact Htree|]. split; [exact Hret|].
  unfold MSOfficeParser._specific_cleanup. cbn [is_empty_file].
  rewrite Hxml, Hct, Hdoc, Happ, Hcore. cbn [negb].
  rewrite (remove_rsid_unguarded f Hw), Hret. reflexivity.
Qed.

Lemma specific_cleanup_plain_member_witness :
  exists t' c1,
    _sort_xml_attributes (Xml OfficeExamples.unsorted)
    = write_and_return (Xml OfficeExamples.unsorted) (Ok t')
    /\ ET_document t' = Some (canonical (body OfficeExamples.unsorted))
    /\ _sort_xml_attributes (Xml OfficeExamples.unsorted) = (Ret true, c1)
    /\ MSOfficeParser._specific_cleanup ∅ (fun c => c) "/tmp/word/styles.xml"
         (Xml OfficeExamples.unsorted)
       = (Ret true, c1).
Proof.
  apply (specific_cleanup_plain_member ∅ (fun c => c) "/tmp/word/styles.xml"
           OfficeExamples.unsorted);
    try (vm_compute; reflexivity).
  - apply (bool_decide_unpack _); vm_compute; exact I.
  - repeat constructor; intros x y Hx Hy;
      repeat (apply elem_of_cons in Hx as [->|Hx]);
      try (now apply elem_of_nil in Hx);
      repeat (apply elem_of_cons in Hy as [->|Hy]);
      try (now apply elem_of_nil in Hy);
      eexists; vm_compute; reflexivity.
Defined.

Lemma iter_list_mono fuel :
  forall fuel' s st xs,
    iter_list fuel s st = Ok xs -> fuel <= fuel' -> iter_list fuel' s st = Ok xs.
Proof.
  induction fuel as [|fuel IH]; intros fuel' s st xs; [discriminate|].
  intros Hxs Hle. destruct fuel' as [|fuel']; [lia|].
  cbn [iter_list] in *. destruct (iter_next s st) as [[x st']|]; [|exact Hxs].
  destruct (iter_list fuel s st') as [xs'|e] eqn:Hxs'; [|discriminate].
  rewrite (IH fuel' s st' xs' Hxs') by lia. exact Hxs.
Qed.

Lemma elements_unfold tg a tx tl cs :
  elements (Element tg a tx tl cs) = Element tg a tx tl cs :: flat_map elements cs.
Proof. reflexivity. Qed.

Lemma iter_list_represented t :
  forall s lo hi i stack fuel tl,
    represents_in lo hi s i t ->
    iter_list fuel s (IterStack stack) = Ok tl ->
    exists ids,
      iter_list (fuel + (xml_size t - 1)) s (IterStack ((i, 0) :: stack)) = Ok (ids ++ tl)
      /\ map (tag_of s) ids = map xml_tag (descendants t).
Proof.
  induction t as [tg a tx tl' cs IH] using xml_ind'.
  intros s lo hi i stack fuel tl Hrep Htl.
  apply represents_in_unfold in Hrep as (_ & ids_c & He & Hall).
  rewrite xml_size_unfold.
  replace (S (list_sum (map xml_size cs)) - 1) with (list_sum (map xml_size cs)) by lia.
  unfold descendants. cbn [xml_children].
  assert (Hch : children_of s i = [] ++ ids_c)
    by (unfold children_of; now rewrite He).
  change 0 with (length (@nil nat)).
  revert Hch Hall Htl. generalize (@nil nat) as pre. clear He.
  revert stack fuel tl ids_c.
  induction IH as [|c cs Hc _ IHcs]; intros stack fuel tl ids_c pre Hch Hall Htl.
  - destruct ids_c as [|j ids_c]; [|contradiction].
    exists []. split; [|reflexivity]. simpl. rewrite Nat.add_0_r.
    rewrite iter_list_pop; [exact Htl|].
    rewrite Hch, app_nil_r. apply lookup_ge_None_2. lia.
  - destruct ids_c as [|j ids_c]; [contradiction|]. destruct Hall as [Hj Hall].
    pose proof (xml_size_pos c) as Hpos.
    destruct (IHcs stack fuel tl ids_c (pre ++ [j])) as (ids2 & Hrun2 & Htags2).
    { rewrite Hch. now rewrite <- app_assoc. }
    { exact Hall. }
    { exact Htl. }
    rewrite length_app in Hrun2. cbn [length] in Hrun2.
    replace (length pre + 1) with (S (length pre)) in Hrun2 by lia.
    destruct (Hc s lo hi j ((i, S (length pre)) :: stack)
                (fuel + list_sum (map xml_size cs)) (ids2 ++ tl) Hj Hrun2)
      as (ids1 & Hrun1 & Htags1).
    exists (j :: ids1 ++ ids2). split.
    + cbn [map].
      change (list_sum (xml_size c :: map xml_size cs))
        with (xml_size c + list_sum (map xml_size cs)).
      replace (fuel + (xml_size c + list_sum (map xml_size cs)))
        with (S (fuel + list_sum (map xml_size cs) + (xml_size c - 1))) by lia.
      cbn [iter_list iter_next advance].
      rewrite Hch. rewrite lookup_app_r by lia.
      replace (length pre - length pre) with 0 by lia.
      cbn [lookup list_lookup]. rewrite Hrun1. cbn [mbind result_bind app].
      now rewrite <- app_assoc.
    + cbn [flat_map map]. rewrite !map_app, Htags1, Htags2.
      destruct (represents_in_tag_attrib _ _ _ _ _ Hj) as [-> _].
      destruct c as [tg' a' tx' tlc gs]. reflexivity.
Qed.

Lemma prune_unfold q tg a tx tl cs :
  prune q (Element tg a tx tl cs) = Element tg a tx tl (prune_forest q cs).
Proof.
  cbn [prune]. f_equal. induction cs as [|c cs IH]; [reflexivity|].
  cbn [prune_forest]. now rewrite IH.
Qed.

Section Prune.

Variables (s0 sF : list element) (gone : list nat) (q : string).

Lemma prune_represents t :
  forall b,
    loaded s0 b t ->
    (forall j e, b <= j < b + xml_size t -> s0 !! j = Some e ->
       sF !! j = Some (drop_children gone e)) ->
    (forall c, b < c < b + xml_size t -> (c ∈ gone <-> tag_of s0 c = q)) ->
    represents_in b (b + xml_size t) sF b (prune q t).
Proof.
  induction t as [tg a tx tl cs IH] using xml_ind'.
  intros b Hl HF Hgone.
  pose proof Hl as Hl'. apply loaded_unfold in Hl' as [He Hf].
  rewrite prune_unfold, represents_in_unfold. rewrite xml_size_unfold in *.
  split; [lia|].
  exists (filter (fun c => c ∉ gone) (child_ids (S b) cs)). split.
  - rewrite (HF b _ ltac:(lia) He). reflexivity.
  - assert (Hgen : forall b', b < b' ->
              b' + list_sum (map xml_size cs) <= b + S (list_sum (map xml_size cs)) ->
              loaded_forest s0 b' cs ->
              represents_all b (b + S (list_sum (map xml_size cs))) sF
                (filter (fun c => c ∉ gone) (child_ids b' cs)) (prune_forest q cs)).
    { clear He Hf Hl.
      revert HF Hgone. generalize (b + S (list_sum (map xml_size cs))) as hi.
      intros hi HF Hgone.
      induction IH as [|c cs Hc _ IHcs]; intros b' Hlo Hhi Hlf; [exact I|].
      apply loaded_forest_cons in Hlf as [Hl1 Hl2].
      pose proof (xml_size_pos c) as Hpos.
      cbn [map] in Hhi. change (list_sum (xml_size c :: map xml_size cs))
        with (xml_size c + list_sum (map xml_size cs)) in Hhi.
      cbn [child_ids prune_forest]. rewrite filter_cons.
      pose proof (Hgone b' ltac:(lia)) as Hb'. rewrite (loaded_tag _ _ _ Hl1) in Hb'.
      destruct (String.eqb (xml_tag c) q) eqn:Hc_tag.
      - apply String.eqb_eq in Hc_tag.
        rewrite decide_False by tauto. apply IHcs; [lia|lia|exact Hl2].
      - apply String.eqb_neq in Hc_tag.
        rewrite decide_True by tauto.
        cbn [represents_all]. split.
        + assert (Hrep : represents_in b' (b' + xml_size c) sF b' (prune q c)).
          { apply (Hc b' Hl1).
            - intros j e Hj. apply HF. lia.
            - intros x Hx. apply Hgone. lia. }
          eapply represents_in_weaken; [| |exact Hrep]; lia.
        + apply IHcs; [lia|lia|exact Hl2]. }
    apply Hgen; [lia|lia|exact Hf].
Qed.

End Prune.

Lemma xml_size_prune q t : xml_size (prune q t) <= xml_size t.
Proof.
  induction t as [tg a tx tl cs IH] using xml_ind'.
  rewrite prune_unfold, !xml_size_unfold. apply le_n_S.
  induction IH as [|c cs Hc _ IHcs]; [reflexivity|].
  cbn [prune_forest]. destruct (String.eqb (xml_tag c) q); simpl; lia.
Qed.

Lemma elements_prune q t :
  forall e', e' ∈ elements (prune q t) ->
    exists e, e ∈ elements t /\ xml_tag e' = xml_tag e.
Proof.
  induction t as [tg a tx tl cs IH] using xml_ind'.
  rewrite prune_unfold, !elements_unfold. intros e' He'.
  apply elem_of_cons in He' as [->|He'].
  - eexists. split; [left|reflexivity].
  - assert (Hf : exists e, e ∈ flat_map elements cs /\ xml_tag e' = xml_tag e).
    { induction IH as [|c cs Hc _ IHcs]; [now apply elem_of_nil in He'|].
      cbn [prune_forest] in He'. cbn [flat_map].
      destruct (String.eqb (xml_tag c) q).
      - destruct (IHcs He') as (e & He & Ht). exists e.
        split; [apply elem_of_app; now right|exact Ht].
      - cbn [flat_map] in He'. apply elem_of_app in He' as [He'|He'].
        + destruct (Hc e' He') as (e & He & Ht). exists e.
          split; [apply elem_of_app; now left|exact Ht].
        + destruct (IHcs He') as (e & He & Ht). exists e.
          split; [apply elem_of_app; now right|exact Ht]. }
    destruct Hf as (e & He & Ht). exists e. split; [now right|exact Ht].
Qed.

Lemma descendants_prune q t e' :
  e' ∈ descendants (prune q t) ->
  exists e, e ∈ descendants t /\ xml_tag e' = xml_tag e.
Proof.
  destruct t as [tg a tx tl cs]. rewrite prune_unfold. unfold descendants.
  cbn [xml_children]. induction cs as [|c cs IH]; cbn [prune_forest flat_map].
  - intros He'. now apply elem_of_nil in He'.
  - destruct (String.eqb (xml_tag c) q).
    + intros He'. destruct (IH He') as (e & He & Ht). exists e.
      split; [apply elem_of_app; now right|exact Ht].
    + cbn [flat_map]. intros He'. apply elem_of_app in He' as [He'|He'].
      * destruct (elements_prune q c e' He') as (e & He & Ht). exists e.
        split; [apply elem_of_app; now left|exact Ht].
      * destruct (IH He') as (e & He & Ht). exists e.
        split; [apply elem_of_app; now right|exact Ht].
Qed.

Lemma descendant_has_index t e :
  e ∈ descendants t ->
  exists x, 0 < x < xml_size t /\ tag_of (load 0 t) x = xml_tag e.
Proof.
  intros He. pose proof (tags_load t 0) as Htags.
  destruct t as [tg a tx tl cs]. unfold descendants in He. cbn [xml_children] in He.
  apply list_elem_of_lookup in He as [k Hk].
  assert (Hm : map tag (load 0 (Element tg a tx tl cs)) !! S k = Some (xml_tag e)).
  { rewrite Htags, elements_unfold. cbn [map lookup list_lookup].
    change (map xml_tag (flat_map elements cs) !! k = Some (xml_tag e)).
    now rewrite list_lookup_fmap, Hk. }
  rewrite list_lookup_fmap in Hm.
  destruct (load 0 (Element tg a tx tl cs) !! S k) as [el|] eqn:Hel; [|discriminate].
  injection Hm as Hm. exists (S k). split.
  - apply lookup_lt_Some in Hel. rewrite length_load in Hel. lia.
  - unfold tag_of. now rewrite Hel.
Qed.

Lemma tracked_deletions_tree (f : xml_file) (uri : string) :
  namespace_map (ns_decls f) !! "w" = Some uri ->
  Forall (fun e => xml_tag e <> ("{" ++ uri ++ "}ins")%string) (descendants (body f)) ->
  Exists (fun e => xml_tag e = ("{" ++ uri ++ "}del")%string) (descendants (body f)) ->
  exists t',
    MSOfficeParser.__remove_revisions (Xml f) = write_and_return (Xml f) (Ok t')
    /\ ET_document t' = Some (prune ("{" ++ uri ++ "}del") (body f)).
Proof.
  intros Hw Hins Hdel.
  unfold MSOfficeParser.__remove_revisions, _parse_xml.
  cbn [ET_parse mbind option_bind objects root decls].
  unfold qualified. rewrite Hw. cbn [mbind result_bind].
  set (q := ("{" ++ uri ++ "}del")%string) in *.
  set (qi := ("{" ++ uri ++ "}ins")%string) in *.
  change ("{" ++ uri ++ "}" ++ "del")%string with q.
  change ("{" ++ uri ++ "}" ++ "ins")%string with qi.
  destruct f as [d ns t]. cbn [body ns_decls] in *.
  set (s0 := load 0 t). set (n := xml_size t).
  pose proof (iter_list_loaded t) as Hiter. fold s0 n in Hiter.
  pose proof (load_0_loaded t) as Hl. fold s0 in Hl.
  set (gone := filter (fun x => x <> 0 /\ tag_of s0 x = q) (seq 0 n)).
  assert (Hdels : findall_descendants s0 0 q = Ok gone).
  { unfold findall_descendants. now rewrite Hiter. }
  rewrite Hdels. cbn [mbind result_bind].
  pose proof (findall_descendants_none t qi Hins) as Hnoins. fold s0 in Hnoins.
  rewrite Hnoins. cbn [mbind result_bind].
  assert (Hne : gone <> []).
  { apply Exists_exists in Hdel as (e & He & Htag).
    destruct (descendant_has_index t e He) as (x & Hx & Hxt).
    intros Hnil. apply (not_elem_of_nil x). rewrite <- Hnil.
    apply list_elem_of_filter.
    split; [split; [lia|unfold s0; rewrite Hxt; exact Htag]|].
    apply elem_of_seq. fold n. lia. }
  assert (Hgone_nd : NoDup gone) by apply NoDup_filter, NoDup_seq.
  assert (Hgone_in : forall c, c ∈ gone <-> (c <> 0 /\ tag_of s0 c = q) /\ c < n).
  { intros c. unfold gone. rewrite list_elem_of_filter, elem_of_seq. intuition lia. }
  clearbody gone.
  destruct gone as [|g gone'] eqn:Hgone; [congruence|]. rewrite <- Hgone in *.
  clear Hne.
  (* the dictionary of parents *)
  assert (Hpm : parent_map s0 0 = Ok
      (fold_left (fun m p => fold_left (fun m c => <[c := p]> m) (children_of s0 p) m)
         (seq 0 n) ∅)).
  { unfold parent_map. now rewrite Hiter. }
  rewrite Hpm. cbn [mbind result_bind].
  rewrite Hdels. cbn [mbind result_bind].
  destruct (refs_loaded t s0 0 Hl) as [Hnd Hrange]. fold n in Hnd, Hrange.
  destruct (pass2_run
              (fold_left (fun m p => fold_left (fun m c => <[c := p]> m) (children_of s0 p) m)
                 (seq 0 n) ∅) gone s0) as (sF & HsF & HlenF & HlookF).
  { exact Hgone_nd. }
  { apply unique_parent_loaded. }
  { intros c Hc. apply Hgone_in in Hc as [[Hc0 _] Hc].
    pose proof (refs_loaded_complete t s0 0 c Hl ltac:(fold n; lia)) as Hin. fold n in Hin.
    apply list_elem_of_In, in_flat_map in Hin as (p & Hp & Hcp).
    apply list_elem_of_In in Hp, Hcp.
    exists p. split; [|exact Hcp].
    now apply parent_fold_lookup. }
  rewrite HsF. cbn [mbind result_bind].
  (* the objects hold the pruned document *)
  assert (Hrep : represents_in 0 n sF 0 (prune q t)).
  { apply (prune_represents s0 sF gone q t 0 Hl).
    - intros j e _ He. now rewrite HlookF, He.
    - intros c Hc. rewrite Hgone_in. fold n in Hc.
      split; [tauto|]. intros Ht. split; [split; [lia|exact Ht]|lia]. }
  assert (HlenF' : length sF = n) by (rewrite HlenF; apply length_load).
  pose proof (xml_size_prune q t) as Hsize. fold n in Hsize.
  (* no insertion is found *)
  destruct (iter_list_represented (prune q t) sF 0 n 0 [] 1 [] Hrep eq_refl)
    as (ids & Hids & Htags).
  rewrite app_nil_r in Hids.
  assert (Hxs : iter_list (fuel_of sF) sF (IterStart 0) = Ok (0 :: ids)).
  { unfold fuel_of. rewrite HlenF'. cbn [iter_list iter_next].
    rewrite (iter_list_mono _ n _ _ _ Hids) by (pose proof (xml_size_pos (prune q t)); lia).
    reflexivity. }
  assert (Hinss : findall_descendants sF 0 qi = Ok []).
  { unfold findall_descendants. rewrite Hxs. cbn [mbind result_bind]. f_equal.
    apply filter_none. intros x Hx [Hx0 Htag].
    apply elem_of_cons in Hx as [->|Hx]; [congruence|].
    assert (Hin : tag_of sF x ∈ map (tag_of sF) ids)
      by (apply list_elem_of_fmap; eauto).
    rewrite Htags in Hin. apply list_elem_of_fmap in Hin as (e' & Hte' & He').
    destruct (descendants_prune q t e' He') as (e & He & Hte).
    rewrite Forall_forall in Hins. apply (Hins e He). congruence. }
  rewrite Hinss, Hxs. cbn [mbind result_bind MSOfficeParser.collect_insertions flat_map for_each].
  eexists. split; [reflexivity|].
  unfold ET_document, with_objects. cbn [objects root decls].
  apply (represents_dump _ _ _ _ _ _ Hrep). lia.
Qed.

(** X20. On a document that declares the prefix [w] (its prefixes being
    such as [ET.register_namespace] accepts), has a [w:del] element below
    its root and no [w:ins] element, [MSOfficeParser.__remove_revisions]
    returns [True] after it has called [tree.write(full_path,
    xml_declaration=True)] on the tree of the document without the
    [w:del] elements below the root and all they hold; every other
    element stays, in order. *)
Theorem tracked_deletions_removed (f : xml_file) (uri : string) :
  ascii_prefixes (ns_decls f) = true ->
  namespace_map (ns_decls f) !! "w" = Some uri ->
  Forall (fun e => xml_tag e <> ("{" ++ uri ++ "}ins")%string) (descendants (body f)) ->
  Exists (fun e => xml_tag e = ("{" ++ uri ++ "}del")%string) (descendants (body f)) ->
  exists t' c',
    MSOfficeParser.__remove_revisions (Xml f) = write_and_return (Xml f) (Ok t')
    /\ ET_document t' = Some (prune ("{" ++ uri ++ "}del") (body f))
    /\ MSOfficeParser.__remove_revisions (Xml f) = (Ret true, c').
Proof.
  intros _ Hw Hins Hdel. apply tree_written. now apply tracked_deletions_tree.
Qed.


Lemma tracked_deletions_removed_witness :
  exists t' c',
    MSOfficeParser.__remove_revisions
      (Xml (OfficeExamples2.paragraph [OfficeExamples2.w_del]))
    = write_and_return (Xml (OfficeExamples2.paragraph [OfficeExamples2.w_del])) (Ok t')
    /\ ET_document t'
       = Some (prune ("{" ++ OfficeExamples.w_uri ++ "}del")
                 (body (OfficeExamples2.paragraph [OfficeExamples2.w_del])))
    /\ MSOfficeParser.__remove_revisions
         (Xml (OfficeExamples2.paragraph [OfficeExamples2.w_del]))
       = (Ret true, c').
Proof.
  apply (tracked_deletions_removed
           (OfficeExamples2.paragraph [OfficeExamples2.w_del]) OfficeExamples.w_uri).
  - reflexivity.
  - vm_compute. reflexivity.
  - apply (bool_decide_unpack _); vm_compute; exact I.
  - apply (bool_decide_unpack _); vm_compute; exact I.
Defined.









(** X22. On a well-formed member whose base name ends in [.xml] and that
    is not a [content.xml] declaring the prefix [office], the hook of
    [LibreOfficeParser] is [_sort_xml_attributes]: wherever the keys can
    be ordered, the document with the children of each child of its root
    sorted is handed to [tree.write(full_path, xml_declaration=True)],
    and the hook returns [True].  (For [content.xml] the prefixes are to
    be such as [ET.register_namespace] accepts.) *)
Theorem odf_specific_cleanup_sorts (full_path : string) (f : xml_file) :
  Py.endswith (LibreOfficeParser.basename full_path) ".xml" = true ->
  LibreOfficeParser.basename full_path <> "content.xml"
  \/ (("office" ∉ dom (namespace_map (ns_decls f)))
      /\ ascii_prefixes (ns_decls f) = true) ->
  Forall (fun c => comparable (xml_children c)) (xml_children (body f)) ->
  exists t' c',
    LibreOfficeParser._specific_cleanup full_path (Xml f)
    = write_and_return (Xml f) (Ok t')
    /\ ET_document t' = Some (canonical (body f))
    /\ LibreOfficeParser._specific_cleanup full_path (Xml f) = (Ret true, c').
Proof.
  intros Hxml Hcase Hcmp. apply tree_written.
  destruct (tree_written _ _ _ (sort_xml_attributes_tree f Hcmp))
    as (t' & c1 & Hrun & Htree & Hret).
  exists t'. split; [|exact Htree]. rewrite <- Hrun.
  unfold LibreOfficeParser._specific_cleanup. cbn [is_empty_file]. rewrite Hxml.
  destruct (String.eqb _ "content.xml") eqn:Hname.
  - apply String.eqb_eq in Hname.
    destruct Hcase as [Hcase|[Hcase _]]; [contradiction|].
    assert (Hrev : LibreOfficeParser.__remove_revisions (Xml f) = (Ret true, Xml f)).
    { unfold LibreOfficeParser.__remove_revisions, _parse_xml.
      cbn [ET_parse mbind option_bind objects root decls].
      now rewrite bool_decide_eq_true_2. }
    rewrite Hrev. now rewrite Hret.
  - now rewrite Hret.
Qed.

Lemma odf_specific_cleanup_sorts_witness :
  exists t' c',
    LibreOfficeParser._specific_cleanup "/tmp/styles.xml" (Xml OfficeExamples.unsorted)
    = write_and_return (Xml OfficeExamples.unsorted) (Ok t')
    /\ ET_document t' = Some (canonical (body OfficeExamples.unsorted))
    /\ LibreOfficeParser._specific_cleanup "/tmp/styles.xml"
         (Xml OfficeExamples.unsorted)
       = (Ret true, c').
Proof.
  apply (odf_specific_cleanup_sorts "/tmp/styles.xml" OfficeExamples.unsorted).
  - reflexivity.
  - left. vm_compute. discriminate.
  - repeat constructor; intros x y Hx Hy;
      repeat (apply elem_of_cons in Hx as [->|Hx]);
      try (now apply elem_of_nil in Hx);
      repeat (apply elem_of_cons in Hy as [->|Hy]);
      try (now apply elem_of_nil in Hy);
      eexists; vm_compute; reflexivity.
Defined.

End Hooks.
